(** * qa_queue_service: a shallow embedding of the retrieval and task layers

    The development follows the Python sources:
    - [app/utils/document_processor.py]  (text extraction, chunker)
    - [app/qa/services.py]               (answer generators)
    - [app/qa/vector_store.py]           (the three vector stores)
    - [app/tasks/document_tasks.py], [app/tasks/qa_tasks.py] (Celery jobs)
    - [app/utils/task_monitor.py]        (task monitor)

    Python [int] is [Z]; Python [str] is a list of Unicode code points;
    [bytes] is a list of [Byte.byte]; exceptions are an explicit result
    type. *)

From Stdlib Require Import ZArith NArith List Bool Lia String Ascii.
From Stdlib Require Import Strings.Byte.
From Stdlib Require DecimalString DecimalZ DecimalPos Finite.
Import ListNotations.
Open Scope Z_scope.
#[global] Set Warnings "-register-all".

(* ================================================================== *)
(** ** Python values: [str], slicing, [rfind], [strip], [join] *)
(* ================================================================== *)

Module Py.

(** A Python [str] is a sequence of code points. *)
Definition str := list N.

(** String literals of the sources (all of them ASCII). *)
Definition lit (s : string) : str :=
  map N_of_ascii (list_ascii_of_string s).

Definition len {A : Type} (s : list A) : Z := Z.of_nat (List.length s).

Fixpoint str_eqb (a b : str) : bool :=
  match a, b with
  | [], [] => true
  | x :: a', y :: b' => (x =? y)%N && str_eqb a' b'
  | _, _ => false
  end.

(** [bool(s)] for a sequence: non-empty. *)
Definition truthy {A : Type} (s : list A) : bool :=
  match s with [] => false | _ :: _ => true end.

(** Index normalisation shared by slicing and by the [start]/[end]
    arguments of [str.rfind]: a negative index counts from the end, and
    the result is clamped to [0, n]. *)
Definition adjust (i n : Z) : Z :=
  if i <? 0 then Z.max 0 (i + n) else Z.min i n.

(** [s[lo:hi]] *)
Definition slice {A : Type} (s : list A) (lo hi : Z) : list A :=
  let n := len s in
  let a := adjust lo n in
  let b := adjust hi n in
  firstn (Z.to_nat (b - a)) (skipn (Z.to_nat a) s).

(** [s[:hi]] *)
Definition slice_to {A : Type} (s : list A) (hi : Z) : list A :=
  slice s 0 hi.

(** Scan left to right, remembering the last index in [lo, hi) that
    holds [c]; [acc] is the answer so far. *)
Fixpoint rfind_scan (c : N) (s : str) (i lo hi acc : Z) : Z :=
  match s with
  | [] => acc
  | x :: t =>
      rfind_scan c t (i + 1) lo hi
        (if (lo <=? i) && (i <? hi) && (x =? c)%N then i else acc)
  end.

(** [s.rfind(c, lo, hi)] for a one-character needle: the highest index
    in the (normalised) range holding [c], or [-1]. *)
Definition rfind (s : str) (c : N) (lo hi : Z) : Z :=
  let n := len s in
  rfind_scan c s 0 (adjust lo n) (adjust hi n) (-1).

(** [str.isspace] on one code point: the Unicode white-space characters
    that [str.strip()] removes. *)
Definition isspace (c : N) : bool :=
  (((9 <=? c) && (c <=? 13)) || ((28 <=? c) && (c <=? 32))
   || (c =? 133) || (c =? 160) || (c =? 5760)
   || ((8192 <=? c) && (c <=? 8202))
   || (c =? 8232) || (c =? 8233) || (c =? 8239) || (c =? 8287)
   || (c =? 12288))%N.

Fixpoint lstrip (s : str) : str :=
  match s with
  | [] => []
  | c :: t => if isspace c then lstrip t else s
  end.

Definition rstrip (s : str) : str := List.rev (lstrip (List.rev s)).

(** [s.strip()] *)
Definition strip (s : str) : str := rstrip (lstrip s).

(** [sep.join(parts)] *)
Fixpoint join (sep : str) (parts : list str) : str :=
  match parts with
  | [] => []
  | [p] => p
  | p :: rest => p ++ sep ++ join sep rest
  end.

(** [needle in hay] for strings: [needle] occurs as a contiguous run. *)
Fixpoint starts_with (needle hay : str) : bool :=
  match needle, hay with
  | [], _ => true
  | _ :: _, [] => false
  | a :: n', b :: h' => (a =? b)%N && starts_with n' h'
  end.

Fixpoint contains (needle hay : str) : bool :=
  starts_with needle hay
  || match hay with
     | [] => false
     | _ :: h' => contains needle h'
     end.

(** Look a key up in a [dict] kept as an association list. *)
Fixpoint assoc_get {V : Type} (key : str) (items : list (str * V))
  : option V :=
  match items with
  | [] => None
  | (k, v) :: rest => if str_eqb k key then Some v else assoc_get key rest
  end.

(** [enumerate(l)], counting from [i]. *)
Fixpoint enumerate_from {A : Type} (i : Z) (l : list A) : list (Z * A) :=
  match l with
  | [] => []
  | x :: t => (i, x) :: enumerate_from (i + 1) t
  end.

Definition enumerate {A : Type} (l : list A) : list (Z * A) :=
  enumerate_from 0 l.

(** [str(i)] for an [int]. *)
Definition str_of_int (i : Z) : str :=
  lit (DecimalString.NilZero.string_of_int (Z.to_int i)).

(** Exceptions the modelled code raises or catches, by class. *)
Inductive exn : Type :=
| ValueError (msg : str)
| UnicodeDecodeError
| RequestsTimeout
| RequestsConnectionError
| JSONDecodeError
| AttributeError
| KeyError
| IndexError
| TypeError
| DuplicateIDError
| OtherException (msg : str).

(** Outcome of a call: a value, or a raised exception. *)
Inductive res (A : Type) : Type :=
| Ret (a : A)
| Raise (e : exn).
Arguments Ret {A} a.
Arguments Raise {A} e.

Definition bind {A B : Type} (m : res A) (k : A -> res B) : res B :=
  match m with
  | Ret a => k a
  | Raise e => Raise e
  end.

(** [try: body except Exception: handler] *)
Definition try_except {A : Type} (body : res A) (handler : exn -> res A)
  : res A :=
  match body with
  | Ret a => Ret a
  | Raise e => handler e
  end.

End Py.

Notation "x <- m ;; k" := (Py.bind m (fun x => k))
  (at level 61, m at next level, right associativity).

(* ================================================================== *)
(** ** app/utils/document_processor.py: the chunker *)
(* ================================================================== *)

Module DocumentProcessor.
Import Py.

Definition dot : N := 46.      (* '.'  *)
Definition newline : N := 10.  (* '\n' *)

(** One pass through the body of the [while] loop (lines 59-75): from
    the current [start] and the chunks so far to the next [start] and
    chunks. *)
Definition loop_body (text : str) (chunk_size overlap : Z)
  (start : Z) (chunks : list str) : Z * list str :=
  let end0 := start + chunk_size in
  let end1 :=
    if end0 <? len text then
      let last_period := rfind text dot (Z.max start (end0 - 100)) end0 in
      let last_newline :=
        rfind text newline (Z.max start (end0 - 100)) end0 in
      let break_point := Z.max last_period last_newline in
      if break_point >? start then break_point + 1 else end0
    else end0 in
  let chunk := strip (slice text start end1) in
  let chunks' := if truthy chunk then chunks ++ [chunk] else chunks in
  (end1 - overlap, chunks').

(** The [while start < len(text)] loop.  [fuel] bounds the number of
    iterations; [None] means the bound was reached with the loop still
    running. *)
Fixpoint chunk_loop (fuel : nat) (text : str) (chunk_size overlap : Z)
  (start : Z) (chunks : list str) : option (list str) :=
  if start <? len text then
    match fuel with
    | O => None
    | S fuel' =>
        let '(start', chunks') :=
          loop_body text chunk_size overlap start chunks in
        if start' >=? len text then Some chunks'
        else chunk_loop fuel' text chunk_size overlap start' chunks'
    end
  else Some chunks.

(** [split_text_into_chunks(text, chunk_size, overlap)] *)
Definition split_text_into_chunks (fuel : nat) (text : str)
  (chunk_size overlap : Z) : option (list str) :=
  if len text <=? chunk_size then Some [text]
  else chunk_loop fuel text chunk_size overlap 0 [].

End DocumentProcessor.

(* ------------------------------------------------------------------ *)
(** *** Facts about [strip], [slice] and [rfind] *)

Module PyFacts.
Import Py.

Lemma lstrip_head (s : str) :
  lstrip s = [] \/ exists c t, lstrip s = c :: t /\ isspace c = false.
Proof.
  induction s as [|c t IH]; simpl.
  - now left.
  - destruct (isspace c) eqn:E.
    + exact IH.
    + right. now exists c, t.
Qed.

Lemma lstrip_nonspace_head (c : N) (t : str) :
  isspace c = false -> lstrip (c :: t) = c :: t.
Proof. intros E. simpl. now rewrite E. Qed.

Lemma lstrip_idem (s : str) : lstrip (lstrip s) = lstrip s.
Proof.
  destruct (lstrip_head s) as [E | (c & t & E & Hc)]; rewrite E.
  - reflexivity.
  - now apply lstrip_nonspace_head.
Qed.

Lemma lstrip_snoc_nonspace (a : str) (c : N) :
  isspace c = false -> lstrip (a ++ [c]) = lstrip a ++ [c].
Proof.
  intros Hc. induction a as [|x a IH]; simpl.
  - now rewrite Hc.
  - destruct (isspace x); [exact IH | reflexivity].
Qed.

Lemma rstrip_nonspace_head (c : N) (t : str) :
  isspace c = false -> rstrip (c :: t) = c :: rstrip t.
Proof.
  intros Hc. unfold rstrip. simpl.
  rewrite lstrip_snoc_nonspace by exact Hc.
  rewrite rev_app_distr. reflexivity.
Qed.

Lemma rstrip_idem (s : str) : rstrip (rstrip s) = rstrip s.
Proof.
  unfold rstrip. rewrite rev_involutive, lstrip_idem. reflexivity.
Qed.

(** [strip] is idempotent: a stripped string is its own trimming. *)
Lemma strip_idem (s : str) : strip (strip s) = strip s.
Proof.
  unfold strip.
  destruct (lstrip_head s) as [E | (c & t & E & Hc)]; rewrite E.
  - reflexivity.
  - rewrite (rstrip_nonspace_head c t Hc).
    rewrite (lstrip_nonspace_head c (rstrip t) Hc).
    rewrite (rstrip_nonspace_head c (rstrip t) Hc).
    now rewrite rstrip_idem.
Qed.

Lemma truthy_nonempty {A : Type} (s : list A) :
  truthy s = true <-> s <> [].
Proof.
  destruct s; simpl; split; intros H; try discriminate; try reflexivity.
  now contradiction H.
Qed.

Lemma adjust_nonneg (i n : Z) : 0 <= i -> adjust i n = Z.min i n.
Proof.
  intros H. unfold adjust.
  destruct (Z.ltb_spec i 0); [lia | reflexivity].
Qed.

Lemma adjust_le_len (i n : Z) : 0 <= n -> adjust i n <= n.
Proof.
  intros H. unfold adjust. destruct (Z.ltb_spec i 0); lia.
Qed.

Lemma len_nonneg {A : Type} (s : list A) : 0 <= len s.
Proof. unfold len. lia. Qed.

(** The scan answers either the accumulator it was given or an index
    inside the window that was visited. *)
Lemma rfind_scan_range (c : N) (s : str) :
  forall i lo hi acc,
    let r := rfind_scan c s i lo hi acc in
    r = acc \/ (lo <= r < hi /\ i <= r < i + len s).
Proof.
  induction s as [|x t IH]; intros i lo hi acc; simpl.
  - now left.
  - specialize (IH (i + 1) lo hi
        (if (lo <=? i) && (i <? hi) && (x =? c)%N then i else acc)).
    cbv zeta in IH.
    assert (L : len (x :: t) = len t + 1)
      by (unfold len; cbn [List.length]; lia).
    rewrite L. pose proof (len_nonneg t) as Ht.
    destruct IH as [IH | IH].
    + rewrite IH.
      destruct ((lo <=? i) && (i <? hi) && (x =? c)%N) eqn:E.
      * right. apply andb_prop in E as [E _]. apply andb_prop in E as [E1 E2].
        apply Z.leb_le in E1. apply Z.ltb_lt in E2. lia.
      * now left.
    + right. lia.
Qed.

(** [rfind] answers [-1] or an index of the normalised window. *)
Lemma rfind_range (s : str) (c : N) (lo hi : Z) :
  rfind s c lo hi = -1
  \/ (adjust lo (len s) <= rfind s c lo hi < adjust hi (len s)
      /\ 0 <= rfind s c lo hi < len s).
Proof.
  unfold rfind.
  destruct (rfind_scan_range c s 0 (adjust lo (len s)) (adjust hi (len s)) (-1))
    as [H | H]; [now left | right]. simpl in H. lia.
Qed.

End PyFacts.

(* ------------------------------------------------------------------ *)
(** *** The chunker: short inputs, trimmed chunks, progress of the scan *)

Module ChunkerProps.
Import Py PyFacts DocumentProcessor.

(** What the loop promises of every chunk it appends. *)
Definition trimmed_nonempty (c : str) : Prop := c <> [] /\ strip c = c.

Lemma loop_body_chunks (text : str) (cs ov start : Z) (chunks : list str) :
  Forall trimmed_nonempty chunks ->
  Forall trimmed_nonempty (snd (loop_body text cs ov start chunks)).
Proof.
  intros H. unfold loop_body. cbv zeta. cbn [snd].
  match goal with |- context [truthy ?c] => destruct (truthy c) eqn:E end.
  - apply Forall_app. split; [exact H |].
    constructor; [| constructor]. split.
    + now apply truthy_nonempty.
    + apply strip_idem.
  - exact H.
Qed.

Lemma chunk_loop_chunks (text : str) (cs ov : Z) :
  forall fuel start chunks out,
    Forall trimmed_nonempty chunks ->
    chunk_loop fuel text cs ov start chunks = Some out ->
    Forall trimmed_nonempty out.
Proof.
  induction fuel as [|fuel IH]; intros start chunks out Hc;
    cbn [chunk_loop].
  - destruct (start <? len text); [discriminate |].
    intros [= <-]. exact Hc.
  - destruct (start <? len text).
    + pose proof (loop_body_chunks text cs ov start chunks Hc) as Hb.
      destruct (loop_body text cs ov start chunks) as [start' chunks'].
      cbn [snd] in Hb.
      destruct (start' >=? len text).
      * intros [= <-]. exact Hb.
      * now apply IH.
    + intros [= <-]. exact Hc.
Qed.

(** Where the next window starts after one pass of the body. *)
Definition next_start (text : str) (cs ov start : Z) : Z :=
  fst (loop_body text cs ov start []).

Lemma loop_body_fst (text : str) (cs ov start : Z) (chunks : list str) :
  fst (loop_body text cs ov start chunks) = next_start text cs ov start.
Proof. reflexivity. Qed.

(** With [0 <= overlap] and [overlap + 100 <= chunk_size] every pass
    moves [start] forward. *)
Lemma next_start_progress (text : str) (cs ov start : Z) :
  0 <= ov -> ov + 100 <= cs -> 0 <= start ->
  start < next_start text cs ov start.
Proof.
  intros Hov Hgap Hs. unfold next_start, loop_body. cbv zeta. cbn [fst].
  destruct (start + cs <? len text) eqn:E; [| lia].
  set (lo := Z.max start (start + cs - 100)).
  destruct (Z.max (rfind text dot lo (start + cs))
                  (rfind text newline lo (start + cs)) >? start) eqn:B;
    [| lia].
  apply Z.gtb_lt in B.
  assert (R : forall c, start < rfind text c lo (start + cs) ->
                        lo <= rfind text c lo (start + cs)).
  { intros c Hc.
    destruct (rfind_range text c lo (start + cs)) as [H | [H1 H2]]; [lia |].
    rewrite adjust_nonneg in H1 by lia. lia. }
  pose proof (R dot). pose proof (R newline). lia.
Qed.

(** Under the same conditions the loop finishes within [fuel] passes as
    soon as [fuel] exceeds the distance left to the end of the text. *)
Lemma chunk_loop_finishes (text : str) (cs ov : Z) :
  0 <= ov -> ov + 100 <= cs ->
  forall fuel start chunks,
    0 <= start -> len text - start < Z.of_nat fuel ->
    exists out, chunk_loop fuel text cs ov start chunks = Some out.
Proof.
  intros Hov Hgap.
  induction fuel as [|fuel IH]; intros start chunks Hs Hf;
    cbn [chunk_loop].
  - destruct (Z.ltb_spec start (len text)); [lia | eauto].
  - destruct (Z.ltb_spec start (len text)); [| eauto].
    pose proof (next_start_progress text cs ov start Hov Hgap Hs) as P.
    rewrite <- (loop_body_fst text cs ov start chunks) in P.
    destruct (loop_body text cs ov start chunks) as [start' chunks'].
    cbn [fst] in P.
    destruct (start' >=? len text); [eauto |].
    apply IH; lia.
Qed.

(** [split_text_into_chunks] returns whenever the overlap stays at
    least 100 below the chunk size; the defaults (1000, 200) qualify. *)
Lemma split_text_into_chunks_finishes (text : str) (cs ov : Z) :
  0 <= ov -> ov + 100 <= cs ->
  exists out,
    split_text_into_chunks (S (List.length text)) text cs ov = Some out.
Proof.
  intros Hov Hgap. unfold split_text_into_chunks.
  destruct (len text <=? cs); [eauto |].
  apply chunk_loop_finishes; try assumption; try lia.
  unfold len. lia.
Qed.

(** The state [(start = 0, chunks)] recurs: on "abc" with
    [chunk_size = overlap = 2] each pass appends "ab" and returns to
    [start = 0]. *)
Lemma chunk_loop_stuck_equal_overlap :
  forall fuel chunks,
    chunk_loop fuel (lit "abc") 2 2 0 chunks = None.
Proof.
  induction fuel as [|fuel IH]; intros chunks.
  - reflexivity.
  - change (chunk_loop (S fuel) (lit "abc") 2 2 0 chunks)
      with (chunk_loop fuel (lit "abc") 2 2 0 (chunks ++ [lit "ab"])).
    apply IH.
Qed.

(** The same recurrence with [overlap < chunk_size]: on "a.bcdef" with
    [chunk_size = 3], [overlap = 2] the sentence break at index 1 cuts
    the window to "a." and [start] returns to 0. *)
Lemma chunk_loop_stuck_smaller_overlap :
  forall fuel chunks,
    chunk_loop fuel (lit "a.bcdef") 3 2 0 chunks = None.
Proof.
  induction fuel as [|fuel IH]; intros chunks.
  - reflexivity.
  - change (chunk_loop (S fuel) (lit "a.bcdef") 3 2 0 chunks)
      with (chunk_loop fuel (lit "a.bcdef") 3 2 0 (chunks ++ [lit "a."])).
    apply IH.
Qed.

(** C3 (code defect).  The claim says the scan terminates for every
    [chunk_size] and [overlap] because the overlap is clamped below the
    chunk size.  The source has no clamp: on the text "abc" with
    [chunk_size = 2] and [overlap = 2] the loop never leaves [start = 0],
    so no number of iterations produces a result; the same happens with
    [overlap < chunk_size] on "a.bcdef" with sizes 3 and 2. *)
Theorem split_text_into_chunks_can_loop_forever :
  (forall fuel, split_text_into_chunks fuel (lit "abc") 2 2 = None)
  /\ (forall fuel, split_text_into_chunks fuel (lit "a.bcdef") 3 2 = None).
Proof.
  split; intros fuel; unfold split_text_into_chunks.
  - change (len (lit "abc") <=? 2) with false. cbv iota.
    apply chunk_loop_stuck_equal_overlap.
  - change (len (lit "a.bcdef") <=? 3) with false. cbv iota.
    apply chunk_loop_stuck_smaller_overlap.
Qed.

(** C4, as stated, fails: a short text is returned as it is, white
    space included, so the single chunk differs from the trimmed input,
    and an empty text yields one chunk that is empty after trimming. *)
Lemma split_text_short_not_trimmed :
  split_text_into_chunks 1 (lit " a") 1000 200 = Some [lit " a"]
  /\ split_text_into_chunks 1 (lit " a") 1000 200
     <> Some [strip (lit " a")]
  /\ split_text_into_chunks 1 (lit "") 1000 200 = Some [lit ""]
  /\ strip (lit "") = [].
Proof.
  repeat split; try reflexivity.
  vm_compute. discriminate.
Qed.

(** C4 (amended).  A text no longer than [chunk_size] comes back as
    exactly one chunk, the input itself, unchanged; for a longer text
    every chunk of the returned list is non-empty and already trimmed. *)
Theorem split_text_short_identity_long_trimmed :
  forall (text : str) (cs ov : Z),
    (len text <= cs ->
     forall fuel, split_text_into_chunks fuel text cs ov = Some [text])
    /\ (cs < len text ->
        forall fuel out,
          split_text_into_chunks fuel text cs ov = Some out ->
          Forall (fun c => c <> [] /\ strip c = c) out).
Proof.
  intros text cs ov. split.
  - intros H fuel. unfold split_text_into_chunks.
    destruct (Z.leb_spec (len text) cs); [reflexivity | lia].
  - intros H fuel out. unfold split_text_into_chunks.
    destruct (Z.leb_spec (len text) cs); [lia |].
    apply chunk_loop_chunks. constructor.
Qed.

(** The amended C4 at concrete inputs: " a" within the chunk size, and
    "a.bcdef" cut with [chunk_size = 3], [overlap = 1]. *)
Lemma split_text_short_identity_long_trimmed_witness :
  split_text_into_chunks 1 (lit " a") 1000 200 = Some [lit " a"]
  /\ Forall (fun c => c <> [] /\ strip c = c)
       [lit "a."; lit ".bc"; lit "cde"; lit "ef"].
Proof.
  split.
  - apply (proj1 (split_text_short_identity_long_trimmed (lit " a") 1000 200)).
    vm_compute. discriminate.
  - apply (proj2 (split_text_short_identity_long_trimmed (lit "a.bcdef") 3 1))
      with (fuel := 10%nat).
    + reflexivity.
    + reflexivity.
Defined.

End ChunkerProps.

(* ================================================================== *)
(** ** app/utils/document_processor.py: text extraction *)
(* ================================================================== *)

Module Codecs.
Import Py.

Definition bytes := list byte.

Definition cont (b : N) : bool := ((128 <=? b) && (b <=? 191))%N.
Definition within (lo hi b : N) : bool := ((lo <=? b) && (b <=? hi))%N.

(** Strict UTF-8, as [bytes.decode('utf-8')] accepts it: shortest form
    only, no surrogates, nothing above U+10FFFF.  [None] stands for
    [UnicodeDecodeError]. *)
Fixpoint utf8_points (bs : list N) : option str :=
  match bs with
  | [] => Some []
  | b0 :: r0 =>
      if (b0 <=? 127)%N then option_map (cons b0) (utf8_points r0)
      else
        match r0 with
        | [] => None
        | b1 :: r1 =>
            if within 194 223 b0 then
              if cont b1
              then option_map (cons ((b0 - 192) * 64 + (b1 - 128))%N)
                     (utf8_points r1)
              else None
            else
              match r1 with
              | [] => None
              | b2 :: r2 =>
                  if within 224 239 b0 then
                    if within (if (b0 =? 224)%N then 160 else 128)
                              (if (b0 =? 237)%N then 159 else 191) b1
                       && cont b2
                    then option_map
                           (cons ((b0 - 224) * 4096 + (b1 - 128) * 64
                                  + (b2 - 128))%N)
                           (utf8_points r2)
                    else None
                  else
                    match r2 with
                    | [] => None
                    | b3 :: r3 =>
                        if within 240 244 b0
                           && within (if (b0 =? 240)%N then 144 else 128)
                                     (if (b0 =? 244)%N then 143 else 191) b1
                           && cont b2 && cont b3
                        then option_map
                               (cons ((b0 - 240) * 262144 + (b1 - 128) * 4096
                                      + (b2 - 128) * 64 + (b3 - 128))%N)
                               (utf8_points r3)
                        else None
                    end
              end
        end
  end.

(** A single-byte code page: the code point of each byte, when it has
    one. *)
Definition charmap := N -> option N.

Definition latin_1 : charmap := fun b => Some b.

(** Windows-1252: Latin-1 except for 0x80-0x9F, five of which are
    unassigned. *)
Definition cp1252 : charmap := fun b =>
  (if (b <? 128) || (160 <=? b) then Some b else
   match b with
   | 128 => Some 8364 | 130 => Some 8218 | 131 => Some 402
   | 132 => Some 8222 | 133 => Some 8230 | 134 => Some 8224
   | 135 => Some 8225 | 136 => Some 710  | 137 => Some 8240
   | 138 => Some 352  | 139 => Some 8249 | 140 => Some 338
   | 142 => Some 381
   | 145 => Some 8216 | 146 => Some 8217 | 147 => Some 8220
   | 148 => Some 8221 | 149 => Some 8226 | 150 => Some 8211
   | 151 => Some 8212 | 152 => Some 732  | 153 => Some 8482
   | 154 => Some 353  | 155 => Some 8250 | 156 => Some 339
   | 158 => Some 382  | 159 => Some 376
   | _ => None
   end)%N.

Fixpoint charmap_points (table : charmap) (bs : list N) : option str :=
  match bs with
  | [] => Some []
  | b :: r =>
      match table b, charmap_points table r with
      | Some c, Some s => Some (c :: s)
      | _, _ => None
      end
  end.

Inductive encoding := UTF_8 | LATIN_1 | CP1252.

(** [content.decode(encoding)] *)
Definition decode (enc : encoding) (content : bytes) : res str :=
  let ns := map Byte.to_N content in
  let out :=
    match enc with
    | UTF_8 => utf8_points ns
    | LATIN_1 => charmap_points latin_1 ns
    | CP1252 => charmap_points cp1252 ns
    end in
  match out with
  | Some s => Ret s
  | None => Raise UnicodeDecodeError
  end.

End Codecs.

Module TextExtraction.
Import Py Codecs.

(** The [for encoding in [...]] loop of [extract_text_from_txt] with
    its trailing [raise ValueError]: the first encoding that decodes
    wins, [UnicodeDecodeError] moves on to the next one. *)
Fixpoint try_encodings (encodings : list encoding) (file_content : bytes)
  : res str :=
  match encodings with
  | [] => Raise (ValueError (lit "Unable to decode text file"))
  | enc :: rest =>
      match decode enc file_content with
      | Ret s => Ret s
      | Raise UnicodeDecodeError => try_encodings rest file_content
      | Raise e => Raise e
      end
  end.

(** [extract_text_from_txt(file_content)] *)
Definition extract_text_from_txt (file_content : bytes) : res str :=
  match decode UTF_8 file_content with
  | Ret s => Ret s
  | Raise UnicodeDecodeError =>
      try_encodings [LATIN_1; CP1252] file_content
  | Raise e => Raise e
  end.

Section ProcessDocument.

(** Library calls of [process_document]: [hashlib.sha256(..).hexdigest()],
    the PyPDF2 page walk of [extract_text_from_pdf] (any failure is
    re-raised as [ValueError]), and [Path(filename).suffix.lower()]. *)
Variable sha256_hexdigest : bytes -> str.
Variable extract_text_from_pdf : bytes -> res str.
Variable suffix_lower : str -> str.

(** [calculate_hash(content)] *)
Definition calculate_hash (content : bytes) : str :=
  sha256_hexdigest content.

(** [process_document(filename, file_content)] *)
Definition process_document (filename : str) (file_content : bytes)
  : res (str * str) :=
  let file_ext := suffix_lower filename in
  text <-
    (if str_eqb file_ext (lit ".pdf") then
       extract_text_from_pdf file_content
     else if str_eqb file_ext (lit ".txt") then
       extract_text_from_txt file_content
     else
       Raise (ValueError (lit "Unsupported file type: " ++ file_ext))) ;;
  let content_hash := calculate_hash file_content in
  Ret (text, content_hash).

End ProcessDocument.

End TextExtraction.

Module TextExtractionProps.
Import Py Codecs TextExtraction.

Lemma latin_1_total (bs : list N) :
  charmap_points latin_1 bs = Some bs.
Proof.
  induction bs as [|b r IH]; simpl.
  - reflexivity.
  - now rewrite IH.
Qed.

Lemma decode_latin_1 (content : bytes) :
  decode LATIN_1 content = Ret (map Byte.to_N content).
Proof. unfold decode. now rewrite latin_1_total. Qed.

(** [decode] raises nothing but [UnicodeDecodeError]. *)
Lemma decode_raises (enc : encoding) (content : bytes) (e : exn) :
  decode enc content = Raise e -> e = UnicodeDecodeError.
Proof.
  unfold decode.
  destruct (match enc with
            | UTF_8 => utf8_points (map Byte.to_N content)
            | LATIN_1 => charmap_points latin_1 (map Byte.to_N content)
            | CP1252 => charmap_points cp1252 (map Byte.to_N content)
            end); [discriminate | now intros [= <-]].
Qed.

(** C10.  [extract_text_from_txt] returns a string for every byte
    sequence: the UTF-8 reading when the bytes are valid UTF-8, and
    otherwise the Latin-1 reading, which exists for all bytes; the final
    [ValueError] cannot be reached. *)
Theorem extract_text_from_txt_total :
  forall file_content : bytes,
    extract_text_from_txt file_content =
      Ret (match utf8_points (map Byte.to_N file_content) with
           | Some s => s
           | None => map Byte.to_N file_content
           end)
    /\ (forall e, extract_text_from_txt file_content <> Raise e).
Proof.
  intros file_content.
  assert (E : extract_text_from_txt file_content =
      Ret (match utf8_points (map Byte.to_N file_content) with
           | Some s => s
           | None => map Byte.to_N file_content
           end)).
  { unfold extract_text_from_txt.
    unfold decode at 1.
    destruct (utf8_points (map Byte.to_N file_content)).
    - reflexivity.
    - cbn [try_encodings]. now rewrite decode_latin_1. }
  split; [exact E |].
  intros e. rewrite E. discriminate.
Qed.

End TextExtractionProps.

(* ================================================================== *)
(** ** app/qa/services.py: answer generators *)
(* ================================================================== *)

Module Services.
Import Py.

(** A parsed JSON document, as [response.json()] / [json.loads] give
    it (numbers restricted to integers). *)
Inductive json : Type :=
| JNull
| JBool (b : bool)
| JInt (z : Z)
| JStr (s : str)
| JList (l : list json)
| JDict (items : list (str * json)).

(** [obj.get(key, default)]: defined on dicts only. *)
Definition json_get (obj : json) (key : str) (default : json) : res json :=
  match obj with
  | JDict items =>
      Ret (match assoc_get key items with Some v => v | None => default end)
  | _ => Raise AttributeError
  end.

(** [value.strip()]: defined on strings only. *)
Definition json_strip (value : json) : res str :=
  match value with
  | JStr s => Ret (strip s)
  | _ => Raise AttributeError
  end.

Definition blank_line : str := [10; 10]%N.   (* "\n\n" *)

Definition no_context_message : str :=
  lit "I don't have enough information to answer this question. Please upload relevant documents first.".

(* ---------------------------------------------------------------- *)
(** *** class SimpleLLM *)

Module SimpleLLM.

Section LLM.

(** [str.lower], the Unicode case mapping of the runtime. *)
Variable lower : str -> str.

(** [any(word in question_lower for word in words)] *)
Definition any_word_in (words : list str) (question_lower : str) : bool :=
  existsb (fun word => contains word question_lower) words.

(** [SimpleLLM.generate_answer(question, context)] *)
Definition generate_answer (question : str) (context : list str)
  : str :=
  if negb (truthy context) then no_context_message
  else
    let combined_context := join blank_line (slice_to context 3) in
    let question_lower := lower question in
    if any_word_in [lit "what"; lit "define"; lit "definition"]
         question_lower then
      lit "Based on the provided context:" ++ blank_line
        ++ slice_to combined_context 800 ++ lit "..."
    else if any_word_in [lit "how"; lit "explain"; lit "process"]
              question_lower then
      lit "Here's how it works according to the documents:" ++ blank_line
        ++ slice_to combined_context 800 ++ lit "..."
    else if any_word_in [lit "when"; lit "time"; lit "date"]
              question_lower then
      lit "According to the information available:" ++ blank_line
        ++ slice_to combined_context 800 ++ lit "..."
    else
      lit "Based on the relevant information I found:" ++ blank_line
        ++ slice_to combined_context 800 ++ lit "...".

End LLM.

End SimpleLLM.

(* ---------------------------------------------------------------- *)
(** *** class OllamaLLM *)

Module OllamaLLM.

Section LLM.

(** [str.lower], which the fallback uses. *)
Variable lower : str -> str.

(** The request [OllamaLLM.generate_answer] posts (the two sampling
    temperatures, floating-point constants, are left out). *)
Record generate_request : Type := {
  req_url : str;
  req_model : str;
  req_prompt : str;
  req_stream : bool;
  req_max_tokens : Z;
  req_stop : list str;
  req_timeout : Z
}.

(** What the code reads of a [requests] response: the status, the raw
    text, and the outcome of [response.json()]. *)
Record response : Type := {
  status_code : Z;
  text : str;
  json_body : res json
}.

(** [settings.ollama_url], [settings.ollama_model],
    [settings.ollama_timeout]. *)
Variable base_url : str.
Variable model : str.
Variable timeout : Z.

(** [requests.post]: the network call, which may raise. *)
Variable requests_post : generate_request -> res response.

Definition build_prompt (question : str) (combined_context : str) : str :=
  lit "Based on the following context, please answer the question. If the context doesn't contain enough information to answer the question, please say so clearly. Be concise and accurate."
  ++ blank_line ++ lit "Context:" ++ [10%N] ++ combined_context
  ++ blank_line ++ lit "Question: " ++ question
  ++ blank_line ++ lit "Answer:".

Definition build_request (prompt : str) : generate_request :=
  {| req_url := base_url ++ lit "/api/generate";
     req_model := model;
     req_prompt := prompt;
     req_stream := false;
     req_max_tokens := 500;
     req_stop := [lit "Question:"; lit "Context:"];
     req_timeout := timeout |}.

(** The body of the [try] block of [OllamaLLM.generate_answer]. *)
Definition try_body (question : str) (context : list str) (prompt : str)
  : res str :=
  response <- requests_post (build_request prompt) ;;
  if status_code response =? 200 then
    result <- json_body response ;;
    value <- json_get result (lit "response") (JStr []) ;;
    answer <- json_strip value ;;
    if truthy answer then Ret answer
    else
      Ret (lit "I couldn't generate a proper answer. Please try rephrasing your question.")
  else
    Ret (SimpleLLM.generate_answer lower question context).

(** [OllamaLLM.generate_answer(question, context)]: the three [except]
    clauses ([Timeout], [ConnectionError], [Exception]) differ in what
    they print and all return the [SimpleLLM] answer. *)
Definition generate_answer (question : str) (context : list str)
  : res str :=
  if negb (truthy context) then Ret no_context_message
  else
    let combined_context := join blank_line (slice_to context 5) in
    let prompt := build_prompt question combined_context in
    try_except (try_body question context prompt)
      (fun e =>
         match e with
         | RequestsTimeout =>
             Ret (SimpleLLM.generate_answer lower question context)
         | RequestsConnectionError =>
             Ret (SimpleLLM.generate_answer lower question context)
         | _ => Ret (SimpleLLM.generate_answer lower question context)
         end).

(** The backend call failed: it raised, or answered with a status other
    than 200. *)
Definition backend_failed (question : str) (context : list str) : Prop :=
  let prompt :=
    build_prompt question (join blank_line (slice_to context 5)) in
  match requests_post (build_request prompt) with
  | Raise _ => True
  | Ret response => status_code response <> 200
  end.

End LLM.

End OllamaLLM.

(* ---------------------------------------------------------------- *)
(** *** class OpenAILLM *)

Module OpenAILLM.

Section LLM.

Variable lower : str -> str.

(** One message of a chat-completion call. *)
Record message : Type := {
  role : str;
  content : str
}.

Record chat_request : Type := {
  chat_model : str;
  messages : list message;
  chat_max_tokens : Z
}.

(** [self.client]: [None] without an API key; otherwise
    [client.chat.completions.create], which may raise and answers with
    the [message.content] of each choice ([None] when a choice carries
    no text). *)
Variable client : option (chat_request -> res (list (option str))).

Definition build_prompt (question : str) (combined_context : str) : str :=
  lit "Based on the following context, please answer the question. If the context doesn't contain enough information to answer the question, please say so."
  ++ blank_line ++ lit "Context:" ++ [10%N] ++ combined_context
  ++ blank_line ++ lit "Question: " ++ question
  ++ blank_line ++ lit "Answer:".

Definition build_request (prompt : str) : chat_request :=
  {| chat_model := lit "gpt-3.5-turbo";
     messages :=
       [ {| role := lit "system";
            content := lit "You are a helpful assistant that answers questions based on provided context. Be concise and accurate." |};
         {| role := lit "user"; content := prompt |} ];
     chat_max_tokens := 500 |}.

(** [response.choices[0].message.content.strip()] *)
Definition first_content (choices : list (option str)) : res str :=
  match choices with
  | [] => Raise IndexError
  | Some text :: _ => Ret (strip text)
  | None :: _ => Raise AttributeError
  end.

(** [OpenAILLM.generate_answer(question, context)] *)
Definition generate_answer (question : str) (context : list str)
  : res str :=
  match client with
  | None => Ret (SimpleLLM.generate_answer lower question context)
  | Some create =>
      if negb (truthy context) then Ret no_context_message
      else
        let combined_context := join blank_line (slice_to context 5) in
        let prompt := build_prompt question combined_context in
        try_except
          (choices <- create (build_request prompt) ;;
           first_content choices)
          (fun e => Ret (SimpleLLM.generate_answer lower question context))
  end.

(** The hosted call failed: it raised. *)
Definition backend_failed (question : str) (context : list str) : Prop :=
  let prompt :=
    build_prompt question (join blank_line (slice_to context 5)) in
  match client with
  | Some create =>
      match create (build_request prompt) with
      | Raise _ => True
      | Ret _ => False
      end
  | None => False
  end.

End LLM.

End OpenAILLM.

End Services.

Module ServicesProps.
Import Py PyFacts Services.

Lemma lit_app_nonempty (a : string) (rest : str) :
  a <> EmptyString -> lit a ++ rest <> [].
Proof.
  destruct a as [|c a']; [congruence |]. intros _. discriminate.
Qed.

Section Generators.

Variable lower : str -> str.

(** The keyword-templated answer is never the empty string. *)
Lemma simple_generate_answer_nonempty (question : str) (context : list str) :
  SimpleLLM.generate_answer lower question context <> [].
Proof.
  unfold SimpleLLM.generate_answer.
  destruct (negb (truthy context)); [discriminate |].
  cbv zeta.
  repeat match goal with
         | |- (if ?b then _ else _) <> [] => destruct b
         end; discriminate.
Qed.

Variable base_url model : str.
Variable timeout : Z.
Variable requests_post : OllamaLLM.generate_request -> res OllamaLLM.response.

Let generate :=
  OllamaLLM.generate_answer lower base_url model timeout requests_post.

Lemma ollama_generate_answer_returns (question : str) (context : list str) :
  exists s, generate question context = Ret s /\ s <> [].
Proof.
  unfold generate, OllamaLLM.generate_answer.
  destruct (negb (truthy context)).
  - eexists. split; [reflexivity | discriminate].
  - cbv zeta. unfold OllamaLLM.try_body, bind.
    pose proof (simple_generate_answer_nonempty question context) as NE.
    assert (FB : forall e : exn,
      exists s,
        match e with
        | RequestsTimeout =>
            Ret (SimpleLLM.generate_answer lower question context)
        | RequestsConnectionError =>
            Ret (SimpleLLM.generate_answer lower question context)
        | _ => Ret (SimpleLLM.generate_answer lower question context)
        end = Ret s /\ s <> []).
    { intros e. exists (SimpleLLM.generate_answer lower question context).
      split; [now destruct e | exact NE]. }
    destruct (requests_post _) as [resp | e]; cbn [try_except];
      [| apply FB].
    destruct (OllamaLLM.status_code resp =? 200);
      [| eexists; split; [reflexivity | exact NE]].
    destruct (OllamaLLM.json_body resp) as [result | e]; [| apply FB].
    destruct (json_get result (lit "response") (JStr [])) as [value | e];
      [| apply FB].
    destruct (json_strip value) as [answer | e]; [| apply FB].
    destruct (truthy answer) eqn:T.
    + exists answer. split; [reflexivity | now apply truthy_nonempty].
    + eexists. split; [reflexivity | discriminate].
Qed.

Lemma ollama_generate_answer_falls_back (question : str) (context : list str) :
  OllamaLLM.backend_failed base_url model timeout requests_post
    question context ->
  generate question context
  = Ret (SimpleLLM.generate_answer lower question context).
Proof.
  unfold OllamaLLM.backend_failed, generate, OllamaLLM.generate_answer.
  cbv zeta.
  destruct (negb (truthy context)) eqn:C.
  - intros _. unfold SimpleLLM.generate_answer. now rewrite C.
  - unfold OllamaLLM.try_body, bind.
    destruct (requests_post _) as [resp | e]; cbn [try_except].
    + intros H. destruct (Z.eqb_spec (OllamaLLM.status_code resp) 200);
        [contradiction | reflexivity].
    + intros _. now destruct e.
Qed.

Lemma openai_generate_answer_returns
  (client : option (OpenAILLM.chat_request -> res (list (option str))))
  (question : str) (context : list str) :
  exists s, OpenAILLM.generate_answer lower client question context = Ret s.
Proof.
  unfold OpenAILLM.generate_answer.
  destruct client as [create |]; [| eexists; reflexivity].
  destruct (negb (truthy context)); [eexists; reflexivity |].
  cbv zeta. unfold bind.
  destruct (create _) as [choices |]; cbn [try_except];
    [| eexists; reflexivity].
  destruct (OpenAILLM.first_content choices); eexists; reflexivity.
Qed.

Lemma openai_generate_answer_falls_back
  (client : option (OpenAILLM.chat_request -> res (list (option str))))
  (question : str) (context : list str) :
  OpenAILLM.backend_failed client question context ->
  OpenAILLM.generate_answer lower client question context
  = Ret (SimpleLLM.generate_answer lower question context).
Proof.
  unfold OpenAILLM.backend_failed, OpenAILLM.generate_answer. cbv zeta.
  destruct client as [create |]; [| contradiction].
  destruct (negb (truthy context)) eqn:C.
  - intros _. unfold SimpleLLM.generate_answer. now rewrite C.
  - unfold bind.
    destruct (create _) as [choices |]; [contradiction | reflexivity].
Qed.

End Generators.

(** C2.  [OllamaLLM.generate_answer] always returns a non-empty string
    and never raises; when the backend call raises (time-out, connection
    error, anything else) or answers with a status other than 200, the
    string is the [SimpleLLM] answer for the same question and context,
    which is itself non-empty.  [OpenAILLM.generate_answer] always
    returns as well, and returns the [SimpleLLM] answer when the hosted
    call raises. *)
Theorem generate_answer_total_with_fallback :
  forall (lower : str -> str) (base_url model : str) (timeout : Z)
         (requests_post :
            OllamaLLM.generate_request -> res OllamaLLM.response)
         (client : option (OpenAILLM.chat_request
                           -> res (list (option str))))
         (question : str) (context : list str),
    let fallback := SimpleLLM.generate_answer lower question context in
    let ollama :=
      OllamaLLM.generate_answer lower base_url model timeout requests_post
        question context in
    let openai := OpenAILLM.generate_answer lower client question context in
    fallback <> []
    /\ (exists s, ollama = Ret s /\ s <> [])
    /\ (OllamaLLM.backend_failed base_url model timeout requests_post
          question context ->
        ollama = Ret fallback)
    /\ (exists s, openai = Ret s)
    /\ (OpenAILLM.backend_failed client question context ->
        openai = Ret fallback).
Proof.
  intros. subst fallback ollama openai. repeat split.
  - apply simple_generate_answer_nonempty.
  - apply ollama_generate_answer_returns.
  - apply ollama_generate_answer_falls_back.
  - apply openai_generate_answer_returns.
  - apply openai_generate_answer_falls_back.
Qed.

(** C2 at a concrete outage: every post times out, the question is
    "what is it" and one passage was retrieved. *)
Lemma generate_answer_total_with_fallback_witness :
  OllamaLLM.generate_answer (fun s => s) (lit "http://localhost:11434")
    (lit "qwen3:1.7b") 60 (fun _ => Raise RequestsTimeout)
    (lit "what is it") [lit "Python is a language."]
  = Ret (lit "Based on the provided context:" ++ blank_line
         ++ lit "Python is a language." ++ lit "...")
  /\ OpenAILLM.generate_answer (fun s => s)
       (Some (fun _ => Raise RequestsConnectionError))
       (lit "what is it") [lit "Python is a language."]
     = Ret (lit "Based on the provided context:" ++ blank_line
            ++ lit "Python is a language." ++ lit "...").
Proof.
  pose proof (generate_answer_total_with_fallback
                (fun s => s) (lit "http://localhost:11434")
                (lit "qwen3:1.7b") 60 (fun _ => Raise RequestsTimeout)
                (Some (fun _ => Raise RequestsConnectionError))
                (lit "what is it") [lit "Python is a language."])
    as (_ & _ & Ollama & _ & OpenAI).
  split.
  - exact (Ollama I).
  - exact (OpenAI I).
Defined.

End ServicesProps.

(* ================================================================== *)
(** ** app/qa/vector_store.py *)
(* ================================================================== *)

Module VectorStore.
Import Py.

(** Values kept in a payload / metadata dict. *)
Inductive pval : Type :=
| PInt (z : Z)
| PStr (s : str).

Definition pval_eqb (a b : pval) : bool :=
  match a, b with
  | PInt x, PInt y => x =? y
  | PStr x, PStr y => str_eqb x y
  | _, _ => false
  end.

Definition payload := list (str * pval).

(** [d[key]]: [KeyError] when the key is missing. *)
Definition getitem (d : payload) (key : str) : res pval :=
  match assoc_get key d with
  | Some v => Ret v
  | None => Raise KeyError
  end.

(** [chunk[:200] + "..." if len(chunk) > 200 else chunk] *)
Definition text_preview (chunk : str) : str :=
  if len chunk >? 200 then slice_to chunk 200 ++ lit "..." else chunk.

(** [f"user_{user_id}_doc_{document_id}_chunk_{i}"] *)
Definition chunk_key (user_id document_id i : Z) : str :=
  lit "user_" ++ str_of_int user_id ++ lit "_doc_" ++ str_of_int document_id
  ++ lit "_chunk_" ++ str_of_int i.

(** *** Keyed collections

    What the three services keep is a sequence of entries, each under an
    identifier.  [upsert] is the write of Qdrant's [upsert] and of an
    Elasticsearch [index] action: an entry under an identifier already
    present takes its place, a new one is appended.  [add_new] is the
    write of Chroma's [Collection.add] (chromadb 0.4): an identifier
    already present is skipped. *)
Section Keyed.

Variable E : Type.
Variable key : E -> str.

Definition has_key (k : str) (l : list E) : bool :=
  existsb (fun x => str_eqb (key x) k) l.

Definition replace_entry (e x : E) : E :=
  if str_eqb (key x) (key e) then e else x.

Definition upsert_one (l : list E) (e : E) : list E :=
  if has_key (key e) l then map (replace_entry e) l else l ++ [e].

Definition upsert (l : list E) (es : list E) : list E :=
  fold_left upsert_one es l.

Definition add_one (l : list E) (e : E) : list E :=
  if has_key (key e) l then l else l ++ [e].

Definition add_new (l : list E) (es : list E) : list E :=
  fold_left add_one es l.

(** The entries stored under [k]. *)
Definition entries_under (k : str) (l : list E) : list E :=
  filter (fun x => str_eqb (key x) k) l.

(** Does a batch name an identifier twice? *)
Fixpoint has_duplicate_ids (ids : list str) : bool :=
  match ids with
  | [] => false
  | k :: rest =>
      existsb (fun k' => str_eqb k' k) rest || has_duplicate_ids rest
  end.

End Keyed.

Arguments has_key {E} key k l.
Arguments replace_entry {E} key e x.
Arguments upsert_one {E} key l e.
Arguments upsert {E} key l es.
Arguments add_one {E} key l e.
Arguments add_new {E} key l es.
Arguments entries_under {E} key k l.

(** [for x in xs: out.append(f(x))], where [f] may raise. *)
Fixpoint for_each {A B : Type} (f : A -> res B) (xs : list A)
  : res (list B) :=
  match xs with
  | [] => Ret []
  | x :: rest =>
      y <- f x ;;
      ys <- for_each f rest ;;
      Ret (y :: ys)
  end.

(** [range(n)] *)
Definition range (n : nat) : list Z := map Z.of_nat (seq 0 n).

(** [l[i]]: a negative index counts from the end, [IndexError] out of
    range. *)
Definition index {A : Type} (l : list A) (i : Z) : res A :=
  match nth_error l (Z.to_nat (adjust i (len l))) with
  | Some x => if (i <? - len l) then Raise IndexError else Ret x
  | None => Raise IndexError
  end.

(** [d[key][i]] where the value under [key] may be [None]:
    [TypeError] then. *)
Definition subscript {A : Type} (l : option (list A)) (i : Z) : res A :=
  match l with
  | Some l' => index l' i
  | None => Raise TypeError
  end.

(** [bool(l)] for an optional list: [None] and [[]] are false. *)
Definition truthy_opt {A : Type} (l : option (list A)) : bool :=
  match l with
  | Some l' => truthy l'
  | None => false
  end.

Section Embedding.

(** An embedding vector, and [SentenceTransformer.encode] on one text;
    [encode(texts)] gives one vector per text. *)
Variable vec : Type.
Variable embed : str -> vec.

Definition encode (texts : list str) : list vec := map embed texts.

End Embedding.

Arguments encode {vec} embed texts.

(* ---------------------------------------------------------------- *)
(** *** class QdrantVectorStore *)

Module QdrantVectorStore.

Section Store.

Variable vec : Type.
Variable embed : str -> vec.

(** [hashlib.sha256(s.encode()).hexdigest()] *)
Variable sha256_hexdigest : str -> str.

(** A similarity score (a float in the source). *)
Variable score_t : Type.

Record point : Type := {
  point_id : str;
  point_vector : vec;
  point_payload : payload
}.

Record field_condition : Type := {
  fc_key : str;
  fc_match : pval          (* MatchValue(value=...) *)
}.

Record qfilter : Type := { must : list field_condition }.

Record search_request : Type := {
  query_vector : vec;
  query_filter : qfilter;
  limit : Z;
  with_payload : bool
}.

Record scored_point : Type := {
  sp_id : str;
  sp_score : score_t;
  sp_payload : payload
}.

(** A payload satisfies a filter when every [must] condition finds its
    value under its key. *)
Definition condition_holds (pl : payload) (c : field_condition) : bool :=
  match assoc_get (fc_key c) pl with
  | Some v => pval_eqb v (fc_match c)
  | None => false
  end.

Definition filter_holds (f : qfilter) (pl : payload) : bool :=
  forallb (condition_holds pl) (must f).

(** [_generate_uuid_from_string] *)
Definition _generate_uuid_from_string (string_id : str) : str :=
  let hex_dig := sha256_hexdigest string_id in
  slice hex_dig 0 8 ++ lit "-" ++ slice hex_dig 8 12 ++ lit "-"
  ++ slice hex_dig 12 16 ++ lit "-" ++ slice hex_dig 16 20 ++ lit "-"
  ++ slice hex_dig 20 32.

(** The points [QdrantVectorStore.add_chunks] builds (lines 99-117). *)
Definition points (chunks : list str) (document_id user_id : Z)
  : list point :=
  map (fun '(i, (chunk, embedding)) =>
         let string_id := chunk_key user_id document_id i in
         {| point_id := _generate_uuid_from_string string_id;
            point_vector := embedding;
            point_payload :=
              [(lit "content", PStr chunk);
               (lit "document_id", PInt document_id);
               (lit "user_id", PInt user_id);
               (lit "chunk_index", PInt i);
               (lit "text_preview", PStr (text_preview chunk));
               (lit "string_id", PStr string_id)] |})
      (enumerate (combine chunks (encode embed chunks))).

(** [QdrantVectorStore.add_chunks] *)
Definition add_chunks (collection : list point) (chunks : list str)
  (document_id user_id : Z) : list point :=
  if negb (truthy chunks) then collection
  else upsert point_id collection (points chunks document_id user_id).

(** The request [QdrantVectorStore.search_similar_chunks] sends. *)
Definition user_request (query : str) (user_id top_k : Z)
  : search_request :=
  let query_embedding := embed query in
  let user_filter :=
    {| must := [ {| fc_key := lit "user_id"; fc_match := PInt user_id |} ] |} in
  {| query_vector := query_embedding;
     query_filter := user_filter;
     limit := top_k;
     with_payload := true |}.

(** One formatted result of a search. *)
Record found_chunk : Type := {
  fc_content : pval;
  fc_metadata : payload;
  fc_score : score_t
}.

Definition format_result (result : scored_point) : res found_chunk :=
  content <- getitem (sp_payload result) (lit "content") ;;
  document_id <- getitem (sp_payload result) (lit "document_id") ;;
  user_id <- getitem (sp_payload result) (lit "user_id") ;;
  chunk_index <- getitem (sp_payload result) (lit "chunk_index") ;;
  text_preview <- getitem (sp_payload result) (lit "text_preview") ;;
  Ret {| fc_content := content;
         fc_metadata := [(lit "document_id", document_id);
                         (lit "user_id", user_id);
                         (lit "chunk_index", chunk_index);
                         (lit "text_preview", text_preview)];
         fc_score := sp_score result |}.

(** [QdrantVectorStore.search_similar_chunks]; [client_search] is the
    Qdrant service answering the request over its collection. *)
Definition search_similar_chunks
  (client_search : search_request -> list scored_point)
  (query : str) (user_id top_k : Z) : res (list found_chunk) :=
  let search_results :=
    client_search (user_request query user_id top_k) in
  for_each format_result search_results.

(** [client.delete(points_selector=filter)]: the points that satisfy
    the filter go. *)
Definition client_delete (collection : list point) (f : qfilter)
  : list point :=
  filter (fun p => negb (filter_holds f (point_payload p))) collection.

(** [QdrantVectorStore.delete_document_chunks] *)
Definition delete_document_chunks (collection : list point)
  (document_id user_id : Z) : list point :=
  let delete_filter :=
    {| must :=
         [ {| fc_key := lit "document_id"; fc_match := PInt document_id |};
           {| fc_key := lit "user_id"; fc_match := PInt user_id |} ] |} in
  client_delete collection delete_filter.

(** [QdrantVectorStore.delete_user_data] *)
Definition delete_user_data (collection : list point) (user_id : Z)
  : list point :=
  let user_filter :=
    {| must := [ {| fc_key := lit "user_id"; fc_match := PInt user_id |} ] |} in
  client_delete collection user_filter.

(** A reference search: the points that satisfy the filter, cut at
    [limit] (ranking needs the float similarity and is left to
    [score]). *)
Definition reference_search (score : vec -> vec -> score_t)
  (collection : list point) (request : search_request) : list scored_point :=
  let hits :=
    filter (fun p => filter_holds (query_filter request) (point_payload p))
           collection in
  firstn (Z.to_nat (limit request))
    (map (fun p =>
            {| sp_id := point_id p;
               sp_score := score (query_vector request) (point_vector p);
               sp_payload := point_payload p |})
         hits).

End Store.

Arguments point_id {vec} p.
Arguments point_vector {vec} p.
Arguments point_payload {vec} p.
Arguments query_vector {vec} s.
Arguments query_filter {vec} s.
Arguments limit {vec} s.
Arguments with_payload {vec} s.
Arguments sp_id {score_t} s.
Arguments sp_score {score_t} s.
Arguments sp_payload {score_t} s.
Arguments fc_content {score_t} f.
Arguments fc_metadata {score_t} f.
Arguments fc_score {score_t} f.
Arguments points {vec} embed sha256_hexdigest chunks document_id user_id.
Arguments add_chunks {vec} embed sha256_hexdigest collection chunks
  document_id user_id.
Arguments user_request {vec} embed query user_id top_k.
Arguments format_result {score_t} result.
Arguments search_similar_chunks {vec} embed {score_t} client_search
  query user_id top_k.
Arguments client_delete {vec} collection f.
Arguments delete_document_chunks {vec} collection document_id user_id.
Arguments delete_user_data {vec} collection user_id.
Arguments reference_search {vec score_t} score collection request.

End QdrantVectorStore.

(* ---------------------------------------------------------------- *)
(** *** class ChromaVectorStore *)

Module ChromaVectorStore.

Section Store.

Variable vec : Type.
Variable embed : str -> vec.

(** A distance (a float in the source). *)
Variable score_t : Type.

Record entry : Type := {
  ce_id : str;
  ce_embedding : vec;
  ce_document : str;
  ce_metadata : payload
}.

(** [where] documents: [{key: value}], [{key: {"$eq": value}}] and
    [{"$and": [...]}]. *)
Inductive where_clause : Type :=
| WIs (key : str) (value : pval)
| WEq (key : str) (value : pval)
| WAnd (clauses : list where_clause).

Fixpoint where_holds (w : where_clause) (metadata : payload) : bool :=
  match w with
  | WIs key value | WEq key value =>
      match assoc_get key metadata with
      | Some v => pval_eqb v value
      | None => false
      end
  | WAnd clauses => forallb (fun c => where_holds c metadata) clauses
  end.

(** [collection.add(embeddings, documents, metadatas, ids)]: a batch
    that names an identifier twice is refused; identifiers already in
    the collection are skipped. *)
Definition collection_add (collection : list entry)
  (embeddings : list vec) (documents : list str) (metadatas : list payload)
  (ids : list str) : res (list entry) :=
  if has_duplicate_ids ids then Raise DuplicateIDError
  else
    Ret (add_new ce_id collection
           (map (fun '(id, (embedding, (document, metadata))) =>
                   {| ce_id := id; ce_embedding := embedding;
                      ce_document := document; ce_metadata := metadata |})
                (combine ids
                   (combine embeddings (combine documents metadatas))))).

Definition chunk_ids (chunks : list str) (document_id user_id : Z)
  : list str :=
  map (fun i => chunk_key user_id document_id i) (range (List.length chunks)).

Definition make_metadatas (chunks : list str) (document_id user_id : Z)
  : list payload :=
  map (fun '(i, chunk) =>
         [(lit "document_id", PInt document_id);
          (lit "user_id", PInt user_id);
          (lit "chunk_index", PInt i);
          (lit "text_preview", PStr (text_preview chunk))])
      (enumerate chunks).

(** [ChromaVectorStore.add_chunks] *)
Definition add_chunks (collection : list entry)
  (chunks : list str) (document_id user_id : Z) : res (list entry) :=
  if negb (truthy chunks) then Ret collection
  else
    let embeddings := encode embed chunks in
    let chunk_ids := chunk_ids chunks document_id user_id in
    let metadatas := make_metadatas chunks document_id user_id in
    collection_add collection embeddings chunks metadatas chunk_ids.

Record query_args : Type := {
  query_embeddings : list vec;
  n_results : Z;
  cq_where : where_clause
}.

(** The dict [collection.query] answers with: one inner list per query
    embedding. *)
Record query_result : Type := {
  qr_documents : option (list (list str));
  qr_metadatas : option (list (list payload));
  qr_distances : option (list (list score_t))
}.

Record found : Type := {
  cf_content : str;
  cf_metadata : payload;
  cf_distance : option score_t
}.

(** The request [ChromaVectorStore.search_similar_chunks] sends. *)
Definition user_query (query : str) (user_id top_k : Z)
  : query_args :=
  let query_embedding := embed query in
  {| query_embeddings := [query_embedding];
     n_results := top_k;
     cq_where := WIs (lit "user_id") (PInt user_id) |}.

(** [ChromaVectorStore.search_similar_chunks]; [collection_query] is
    the Chroma collection answering the query, or refusing it. *)
Definition search_similar_chunks
  (collection_query : query_args -> res query_result)
  (query : str) (user_id top_k : Z) : res (list found) :=
  results <- collection_query (user_query query user_id top_k) ;;
  if truthy_opt (qr_documents results) then
    documents0 <- subscript (qr_documents results) 0 ;;
    if truthy documents0 then
      for_each
        (fun '(i, doc) =>
           metadatas0 <- subscript (qr_metadatas results) 0 ;;
           metadata <- index metadatas0 i ;;
           distance <-
             (if truthy_opt (qr_distances results) then
                distances0 <- subscript (qr_distances results) 0 ;;
                d <- index distances0 i ;;
                Ret (Some d)
              else Ret None) ;;
           Ret {| cf_content := doc; cf_metadata := metadata;
                  cf_distance := distance |})
        (enumerate documents0)
    else Ret []
  else Ret [].

(** [collection.get(where=...)["ids"]] and [collection.delete(ids=...)] *)
Definition collection_get_ids (collection : list entry) (w : where_clause)
  : list str :=
  map ce_id (filter (fun e => where_holds w (ce_metadata e)) collection).

Definition collection_delete (collection : list entry) (ids : list str)
  : list entry :=
  filter (fun e => negb (existsb (fun k => str_eqb k (ce_id e)) ids))
         collection.

(** [ChromaVectorStore.delete_document_chunks] *)
Definition delete_document_chunks (collection : list entry)
  (document_id user_id : Z) : list entry :=
  let ids :=
    collection_get_ids collection
      (WAnd [WEq (lit "document_id") (PInt document_id);
             WEq (lit "user_id") (PInt user_id)]) in
  if truthy ids then collection_delete collection ids else collection.

(** [ChromaVectorStore.delete_user_data] *)
Definition delete_user_data (collection : list entry) (user_id : Z)
  : list entry :=
  let ids :=
    collection_get_ids collection (WEq (lit "user_id") (PInt user_id)) in
  if truthy ids then collection_delete collection ids else collection.

(** A reference [collection.query]: a number of results that is not
    positive is refused with [TypeError] ([validate_n_results]);
    otherwise the answer holds, for each query embedding, the entries
    that satisfy [where], cut at [n_results]. *)
Definition reference_query (distance : vec -> vec -> score_t)
  (collection : list entry) (q : query_args) : res query_result :=
  if n_results q <=? 0 then Raise TypeError
  else
    let hits :=
      firstn (Z.to_nat (n_results q))
        (filter (fun e => where_holds (cq_where q) (ce_metadata e))
                collection) in
    Ret {| qr_documents := Some (map (fun _ => map ce_document hits)
                                     (query_embeddings q));
           qr_metadatas := Some (map (fun _ => map ce_metadata hits)
                                     (query_embeddings q));
           qr_distances :=
             Some (map (fun v =>
                          map (fun e => distance v (ce_embedding e)) hits)
                       (query_embeddings q)) |}.

End Store.

Arguments ce_id {vec} e.
Arguments ce_embedding {vec} e.
Arguments ce_document {vec} e.
Arguments ce_metadata {vec} e.
Arguments query_embeddings {vec} q.
Arguments n_results {vec} q.
Arguments cq_where {vec} q.
Arguments qr_documents {score_t} q.
Arguments qr_metadatas {score_t} q.
Arguments qr_distances {score_t} q.
Arguments cf_content {score_t} f.
Arguments cf_metadata {score_t} f.
Arguments cf_distance {score_t} f.
Arguments collection_add {vec} collection embeddings documents metadatas ids.
Arguments add_chunks {vec} embed collection chunks document_id user_id.
Arguments user_query {vec} embed query user_id top_k.
Arguments search_similar_chunks {vec} embed {score_t} collection_query
  query user_id top_k.
Arguments collection_get_ids {vec} collection w.
Arguments collection_delete {vec} collection ids.
Arguments delete_document_chunks {vec} collection document_id user_id.
Arguments delete_user_data {vec} collection user_id.
Arguments reference_query {vec score_t} distance collection q.

End ChromaVectorStore.

(* ---------------------------------------------------------------- *)
(** *** class ElasticsearchVectorStore *)

Module ElasticsearchVectorStore.

Section Store.

Variable vec : Type.
Variable embed : str -> vec.

Record doc : Type := {
  es_index : str;
  es_id : str;
  es_source : payload;
  es_embedding : vec
}.

(** The actions [ElasticsearchVectorStore.add_chunks] hands to [bulk]. *)
Definition docs (index_name : str) (chunks : list str)
  (document_id user_id : Z) : list doc :=
  map (fun '(i, (chunk, embedding)) =>
         {| es_index := index_name;
            es_id := chunk_key user_id document_id i;
            es_source :=
              [(lit "content", PStr chunk);
               (lit "user_id", PInt user_id);
               (lit "document_id", PInt document_id);
               (lit "chunk_index", PInt i);
               (lit "text_preview", PStr (text_preview chunk));
               (lit "created_at", PStr (lit "now"))];
            es_embedding := embedding |})
      (enumerate (combine chunks (encode embed chunks))).

(** The mapping [_create_index_if_not_exists] gives the index types
    [created_at] as [date], whose format, none being named, is
    [strict_date_optional_time||epoch_millis].  A number is read as epoch
    milliseconds.  Every string either format accepts starts with a
    digit or a sign: that much of the check is kept here, which is
    enough to see that the service refuses the word the source sends. *)
Definition date_value (v : pval) : bool :=
  match v with
  | PInt _ => true
  | PStr [] => false
  | PStr (c :: _) => (((48 <=? c) && (c <=? 57)) || (c =? 43) || (c =? 45))%N
  end.

(** The service indexes an action whose source fits the mapping. *)
Definition indexable (d : doc) : bool :=
  match assoc_get (lit "created_at") (es_source d) with
  | Some v => date_value v
  | None => true
  end.

(** [BulkIndexError(f"{n} document(s) failed to index.")], a class the
    model keeps under [OtherException]. *)
Definition bulk_index_error (n : Z) : exn :=
  OtherException (str_of_int n ++ lit " document(s) failed to index.").

(** [l] cut in runs of [n] items ([fuel] bounds the number of runs). *)
Fixpoint runs_of (fuel n : nat) (l : list doc) : list (list doc) :=
  match fuel with
  | O => []
  | S fuel' =>
      match l with
      | [] => []
      | _ :: _ => firstn n l :: runs_of fuel' n (skipn n l)
      end
  end.

(** One run after the other goes to the service, which indexes the
    actions it accepts, each under its [_id], and refuses the others;
    [bulk] raises after the first run with refused actions.  The
    outcome comes with the index as the call leaves it. *)
Fixpoint bulk_runs (stored : list doc) (runs : list (list doc))
  : res unit * list doc :=
  match runs with
  | [] => (Ret tt, stored)
  | run :: rest =>
      let stored' := upsert es_id stored (filter indexable run) in
      let errors := filter (fun d => negb (indexable d)) run in
      if truthy errors then (Raise (bulk_index_error (len errors)), stored')
      else bulk_runs stored' rest
  end.

(** [elasticsearch.helpers.bulk(client, actions)] with its defaults:
    runs of 500 actions ([chunk_size]; the bound on the bytes of a run
    is not modelled), [raise_on_error=True]. *)
Definition bulk (stored : list doc) (actions : list doc)
  : res unit * list doc :=
  bulk_runs stored (runs_of (List.length actions) 500 actions).

(** [ElasticsearchVectorStore.add_chunks] *)
Definition add_chunks (index_name : str) (stored : list doc)
  (chunks : list str) (document_id user_id : Z) : res unit * list doc :=
  if negb (truthy chunks) then (Ret tt, stored)
  else bulk stored (docs index_name chunks document_id user_id).

End Store.

Arguments es_index {vec} d.
Arguments es_id {vec} d.
Arguments es_source {vec} d.
Arguments es_embedding {vec} d.
Arguments docs {vec} embed index_name chunks document_id user_id.
Arguments indexable {vec} d.
Arguments runs_of {vec} fuel n l.
Arguments bulk_runs {vec} stored runs.
Arguments bulk {vec} stored actions.
Arguments add_chunks {vec} embed index_name stored chunks document_id user_id.

End ElasticsearchVectorStore.

End VectorStore.

(* ------------------------------------------------------------------ *)
(** *** Keyed collections: writes by identifier *)

Module KeyedProps.
Import Py VectorStore.

Lemma str_eqb_eq (a b : str) : str_eqb a b = true <-> a = b.
Proof.
  revert b. induction a as [|x a IH]; intros [|y b]; cbn;
    try (split; [discriminate | congruence]).
  - tauto.
  - rewrite andb_true_iff, N.eqb_eq, IH. split.
    + now intros [-> ->].
    + now intros [= -> ->].
Qed.

Lemma str_eqb_refl (a : str) : str_eqb a a = true.
Proof. now apply str_eqb_eq. Qed.

Lemma str_eqb_neq (a b : str) : str_eqb a b = false <-> a <> b.
Proof.
  rewrite <- str_eqb_eq. destruct (str_eqb a b); split; congruence.
Qed.

Section Keyed.

Variable E : Type.
Variable key : E -> str.

#[local] Abbreviation has_key := (has_key key).
#[local] Abbreviation upsert_one := (upsert_one key).
#[local] Abbreviation upsert := (upsert key).
#[local] Abbreviation add_one := (add_one key).
#[local] Abbreviation add_new := (add_new key).
#[local] Abbreviation replace_entry := (replace_entry key).
#[local] Abbreviation entries_under := (entries_under key).

Lemma has_key_in (k : str) (l : list E) :
  has_key k l = true <-> In k (map key l).
Proof.
  unfold VectorStore.has_key. rewrite existsb_exists, in_map_iff. split.
  - intros (x & Hx & Hk). apply str_eqb_eq in Hk. eauto.
  - intros (x & Hk & Hx). exists x. split; [exact Hx | now apply str_eqb_eq].
Qed.

Lemma key_replace_entry (e x : E) : key (replace_entry e x) = key x.
Proof.
  unfold VectorStore.replace_entry.
  destruct (str_eqb (key x) (key e)) eqn:K; [| reflexivity].
  apply str_eqb_eq in K. congruence.
Qed.

Lemma keys_map_replace (e : E) (l : list E) :
  map key (map (replace_entry e) l) = map key l.
Proof.
  rewrite map_map. apply map_ext. intros x. apply key_replace_entry.
Qed.

(** The identifiers after one write: unchanged, or one more at the end. *)
Lemma keys_upsert_one (l : list E) (e : E) :
  map key (upsert_one l e)
  = if has_key (key e) l then map key l else map key l ++ [key e].
Proof.
  unfold VectorStore.upsert_one. destruct (has_key (key e) l).
  - apply keys_map_replace.
  - now rewrite map_app.
Qed.

Lemma keys_add_one (l : list E) (e : E) :
  map key (add_one l e)
  = if has_key (key e) l then map key l else map key l ++ [key e].
Proof.
  unfold VectorStore.add_one. destruct (has_key (key e) l).
  - reflexivity.
  - now rewrite map_app.
Qed.

Lemma nodup_snoc (ks : list str) (k : str) :
  NoDup ks -> ~ In k ks -> NoDup (ks ++ [k]).
Proof.
  intros H N. apply NoDup_app; [exact H | repeat constructor; intros [] |].
  intros a Ha [<- | []]. contradiction.
Qed.

Lemma nodup_step (ks : list str) (l : list E) (e : E) :
  ks = map key l ->
  NoDup ks ->
  NoDup (if has_key (key e) l then ks else ks ++ [key e]).
Proof.
  intros -> H. destruct (has_key (key e) l) eqn:K; [exact H |].
  apply nodup_snoc; [exact H |].
  intros I. apply has_key_in in I. congruence.
Qed.

Lemma nodup_upsert (es l : list E) :
  NoDup (map key l) -> NoDup (map key (upsert l es)).
Proof.
  revert l. induction es as [|e es IH]; intros l H; [exact H |].
  apply IH. rewrite keys_upsert_one. now apply nodup_step.
Qed.

Lemma nodup_add_new (es l : list E) :
  NoDup (map key l) -> NoDup (map key (add_new l es)).
Proof.
  revert l. induction es as [|e es IH]; intros l H; [exact H |].
  apply IH. rewrite keys_add_one. now apply nodup_step.
Qed.

Lemma has_key_step (k : str) (l : list E) (e : E) (ks : list str) :
  ks = (if has_key (key e) l then map key l else map key l ++ [key e]) ->
  (In k (map key l) \/ k = key e) -> In k ks.
Proof.
  intros -> [H | ->].
  - destruct (has_key (key e) l); [exact H | apply in_or_app; now left].
  - destruct (has_key (key e) l) eqn:K.
    + now apply has_key_in.
    + apply in_or_app. right. now left.
Qed.

(** Every identifier of the batch, and every one already stored, is
    stored afterwards. *)
Lemma upsert_keeps_keys (es l : list E) (k : str) :
  In k (map key l) \/ In k (map key es) -> In k (map key (upsert l es)).
Proof.
  revert l. induction es as [|e es IH]; intros l [H | H]; cbn in *.
  - exact H.
  - contradiction.
  - apply IH. left.
    eapply has_key_step; [apply keys_upsert_one | now left].
  - destruct H as [<- | H].
    + apply IH. left.
      eapply has_key_step; [apply keys_upsert_one | now right].
    + apply IH. now right.
Qed.

Lemma add_new_keeps_keys (es l : list E) (k : str) :
  In k (map key l) \/ In k (map key es) -> In k (map key (add_new l es)).
Proof.
  revert l. induction es as [|e es IH]; intros l [H | H]; cbn in *.
  - exact H.
  - contradiction.
  - apply IH. left.
    eapply has_key_step; [apply keys_add_one | now left].
  - destruct H as [<- | H].
    + apply IH. left.
      eapply has_key_step; [apply keys_add_one | now right].
    + apply IH. now right.
Qed.

(** Adding a batch whose identifiers are all stored changes nothing. *)
Lemma add_new_present (es l : list E) :
  (forall e, In e es -> In (key e) (map key l)) -> add_new l es = l.
Proof.
  induction es as [|e es IH]; intros H; [reflexivity |].
  cbn. unfold VectorStore.add_one at 2.
  assert (K : has_key (key e) l = true)
    by (apply has_key_in, H; now left).
  rewrite K. apply IH. intros x Hx. apply H. now right.
Qed.

(** [Collection.add] twice with one batch is [Collection.add] once. *)
Lemma add_new_twice (es l : list E) :
  add_new (add_new l es) es = add_new l es.
Proof.
  apply add_new_present. intros e He.
  apply add_new_keeps_keys. right. now apply in_map.
Qed.

(** The last entry of a batch under an identifier. *)
Fixpoint last_under (es : list E) (k : str) : option E :=
  match es with
  | [] => None
  | e :: rest =>
      match last_under rest k with
      | Some e' => Some e'
      | None => if str_eqb (key e) k then Some e else None
      end
  end.

Definition settle (es : list E) (x : E) : E :=
  match last_under es (key x) with
  | Some e => e
  | None => x
  end.

Lemma last_under_key (es : list E) (k : str) (e : E) :
  last_under es k = Some e -> key e = k /\ In e es.
Proof.
  induction es as [|e0 es IH]; cbn; [discriminate |].
  destruct (last_under es k) as [e' |].
  - intros [= <-]. destruct (IH eq_refl). auto.
  - destruct (str_eqb (key e0) k) eqn:K; [| discriminate].
    intros [= <-]. apply str_eqb_eq in K. auto.
Qed.

Lemma last_under_none (es : list E) (k : str) :
  last_under es k = None -> ~ In k (map key es).
Proof.
  induction es as [|e0 es IH]; cbn; [tauto |].
  destruct (last_under es k); [discriminate |].
  destruct (str_eqb (key e0) k) eqn:K; [discriminate |].
  intros _ [H | H].
  - apply str_eqb_neq in K. contradiction.
  - now apply IH.
Qed.

Lemma in_upsert_one_other (l : list E) (e x : E) :
  In x (upsert_one l e) -> key x <> key e -> In x l.
Proof.
  unfold VectorStore.upsert_one. destruct (has_key (key e) l).
  - rewrite in_map_iff. intros (y & <- & Hy) N.
    unfold VectorStore.replace_entry in *.
    destruct (str_eqb (key y) (key e)); [congruence | exact Hy].
  - intros H N. apply in_app_or in H as [H | [<- | []]]; congruence.
Qed.

Lemma in_upsert_one_same (l : list E) (e x : E) :
  In x (upsert_one l e) -> key x = key e -> x = e.
Proof.
  unfold VectorStore.upsert_one. destruct (has_key (key e) l) eqn:K.
  - rewrite in_map_iff. intros (y & <- & Hy) Q.
    unfold VectorStore.replace_entry in *.
    destruct (str_eqb (key y) (key e)) eqn:Y; [reflexivity |].
    apply str_eqb_neq in Y. contradiction.
  - intros H Q. apply in_app_or in H as [H | [<- | []]]; [| reflexivity].
    assert (has_key (key e) l = true); [| congruence].
    apply has_key_in. rewrite <- Q. now apply in_map.
Qed.

Lemma in_upsert_untouched (es l : list E) (x : E) :
  In x (upsert l es) -> last_under es (key x) = None -> In x l.
Proof.
  revert l. induction es as [|e es IH]; intros l H N; [exact H |].
  cbn in N. destruct (last_under es (key x)) eqn:L; [discriminate |].
  destruct (str_eqb (key e) (key x)) eqn:K; [discriminate |].
  apply str_eqb_neq in K.
  apply (in_upsert_one_other l e x); [| congruence].
  now apply IH.
Qed.

(** After a batch every stored entry under an identifier of the batch
    is the batch's last entry under it. *)
Lemma in_upsert_settled (es l : list E) (x e : E) :
  In x (upsert l es) -> last_under es (key x) = Some e -> x = e.
Proof.
  revert l. induction es as [|e0 es IH]; intros l H L; [discriminate |].
  cbn in L. destruct (last_under es (key x)) as [e' |] eqn:L'.
  - injection L as <-. now apply (IH (upsert_one l e0)).
  - destruct (str_eqb (key e0) (key x)) eqn:K; [| discriminate].
    injection L as <-. apply str_eqb_eq in K.
    apply (in_upsert_one_same l e0 x); [| congruence].
    now apply (in_upsert_untouched es).
Qed.

Lemma settle_cons (e : E) (es : list E) (x : E) :
  settle es (replace_entry e x) = settle (e :: es) x.
Proof.
  unfold settle. cbn. rewrite key_replace_entry.
  destruct (last_under es (key x)); [reflexivity |].
  unfold VectorStore.replace_entry.
  destruct (str_eqb (key x) (key e)) eqn:K.
  - apply str_eqb_eq in K. rewrite K, str_eqb_refl. reflexivity.
  - destruct (str_eqb (key e) (key x)) eqn:K'; [| reflexivity].
    apply str_eqb_eq in K'. apply str_eqb_neq in K. congruence.
Qed.

(** A batch whose identifiers are all stored rewrites entries in
    place. *)
Lemma upsert_present (es l : list E) :
  (forall e, In e es -> In (key e) (map key l)) ->
  upsert l es = map (settle es) l.
Proof.
  revert l. induction es as [|e es IH]; intros l H.
  - cbn. unfold settle. cbn. now rewrite map_id.
  - cbn. unfold VectorStore.upsert_one at 2.
    assert (K : has_key (key e) l = true)
      by (apply has_key_in, H; now left).
    rewrite K.
    change (fold_left upsert_one es (map (replace_entry e) l))
      with (upsert (map (replace_entry e) l) es).
    rewrite IH.
    + rewrite map_map. apply map_ext. intros x. apply settle_cons.
    + intros x Hx. rewrite keys_map_replace. apply H. now right.
Qed.

(** [upsert] twice with one batch is [upsert] once. *)
Lemma upsert_twice (es l : list E) :
  upsert (upsert l es) es = upsert l es.
Proof.
  rewrite upsert_present.
  - rewrite <- (map_id (upsert l es)) at 2.
    apply map_ext_in. intros x Hx. unfold settle.
    destruct (last_under es (key x)) as [e |] eqn:L; [| reflexivity].
    symmetry. now apply (in_upsert_settled es l).
  - intros e He. apply upsert_keeps_keys. right. now apply in_map.
Qed.

(** With distinct identifiers, a stored identifier holds one entry. *)
Lemma one_entry_under (l : list E) (k : str) :
  NoDup (map key l) -> In k (map key l) ->
  List.length (entries_under k l) = 1%nat.
Proof.
  unfold VectorStore.entries_under.
  induction l as [|x l IH]; cbn; [tauto |].
  intros N H. inversion N as [| ? ? Nx Nl]; subst.
  destruct (str_eqb (key x) k) eqn:K.
  - apply str_eqb_eq in K. subst k. cbn. f_equal.
    clear -Nx. induction l as [|y l IH]; [reflexivity |].
    cbn in *. destruct (str_eqb (key y) (key x)) eqn:Y.
    + apply str_eqb_eq in Y. exfalso. apply Nx. now left.
    + apply IH. tauto.
  - apply str_eqb_neq in K. destruct H as [H | H]; [contradiction |].
    now apply IH.
Qed.

End Keyed.

End KeyedProps.

(* ------------------------------------------------------------------ *)
(** *** The chunk keys are distinct *)

Module ChunkKeyProps.
Import Py VectorStore KeyedProps.

(** Short names for the three classes. *)
Module Q := QdrantVectorStore.
Module C := ChromaVectorStore.
Module ES := ElasticsearchVectorStore.

Lemma lit_inj (a b : string) : lit a = lit b -> a = b.
Proof.
  unfold lit. intros H.
  rewrite <- (string_of_list_ascii_of_string a),
          <- (string_of_list_ascii_of_string b).
  f_equal.
  revert H. generalize (list_ascii_of_string a) (list_ascii_of_string b).
  induction l as [|x l IH]; intros [|y l']; cbn; try discriminate.
  - reflexivity.
  - intros [= Hxy Hl]. f_equal; [| now apply IH].
    rewrite <- (ascii_N_embedding x), <- (ascii_N_embedding y).
    now rewrite Hxy.
Qed.

Lemma to_int_proper (z : Z) :
  Z.to_int z <> Decimal.Pos Decimal.Nil
  /\ Z.to_int z <> Decimal.Neg Decimal.Nil.
Proof.
  destruct z as [|p|p]; cbn; split; try discriminate;
    intros [= H]; now apply (DecimalPos.Unsigned.to_uint_nonnil p).
Qed.

(** [str(i)] tells integers apart. *)
Lemma str_of_int_inj (a b : Z) : str_of_int a = str_of_int b -> a = b.
Proof.
  unfold str_of_int. intros H. apply lit_inj in H.
  apply DecimalZ.to_int_inj.
  apply (f_equal DecimalString.NilZero.int_of_string) in H.
  destruct (to_int_proper a), (to_int_proper b).
  rewrite !DecimalString.NilZero.isi in H by assumption.
  now injection H.
Qed.

Lemma chunk_key_inj (user_id document_id i j : Z) :
  chunk_key user_id document_id i = chunk_key user_id document_id j -> i = j.
Proof.
  unfold chunk_key. intros H.
  repeat apply app_inv_head in H.
  now apply str_of_int_inj.
Qed.

Lemma has_duplicate_ids_nodup (ids : list str) :
  NoDup ids -> has_duplicate_ids ids = false.
Proof.
  induction 1 as [| k rest Hk _ IH]; [reflexivity |].
  cbn. rewrite IH, orb_false_r.
  destruct (existsb (fun k' => str_eqb k' k) rest) eqn:X; [| reflexivity].
  apply existsb_exists in X as (k' & Hin & Hk').
  apply str_eqb_eq in Hk'. subst. contradiction.
Qed.

Lemma range_nodup (n : nat) : NoDup (range n).
Proof.
  unfold range. apply Finite.Injective_map_NoDup.
  - intros a b. apply Nat2Z.inj.
  - apply seq_NoDup.
Qed.

Lemma in_range (n : nat) (i : Z) :
  In i (range n) <-> 0 <= i < Z.of_nat n.
Proof.
  unfold range. rewrite in_map_iff. split.
  - intros (k & <- & Hk). apply in_seq in Hk. lia.
  - intros H. exists (Z.to_nat i). split; [lia |]. apply in_seq. lia.
Qed.

Lemma enumerate_from_fst {A : Type} (l : list A) (i : Z) :
  map fst (enumerate_from i l)
  = map (fun n => i + Z.of_nat n) (seq 0 (List.length l)).
Proof.
  revert i. induction l as [|x l IH]; intros i; [reflexivity |].
  cbn [enumerate_from List.length seq map fst]. f_equal.
  - lia.
  - rewrite IH, <- seq_shift, map_map.
    apply map_ext. intros n. lia.
Qed.

(** [enumerate] numbers a list by [range(len(l))]. *)
Lemma enumerate_fst {A : Type} (l : list A) :
  map fst (enumerate l) = range (List.length l).
Proof.
  unfold enumerate, range. rewrite enumerate_from_fst.
  apply map_ext. intros n. lia.
Qed.

Section Ids.

Variable vec : Type.
Variable embed : str -> vec.
Variable sha256_hexdigest : str -> str.

Lemma combine_encode_length (chunks : list str) :
  List.length (combine chunks (encode embed chunks)) = List.length chunks.
Proof.
  unfold encode. rewrite length_combine, length_map. lia.
Qed.

(** The identifiers of the points, documents and entries built from a
    list of chunks: one per index of the list. *)
Lemma qdrant_point_ids (chunks : list str) (document_id user_id : Z) :
  map Q.point_id
      (Q.points embed sha256_hexdigest chunks document_id user_id)
  = map (fun i => Q._generate_uuid_from_string sha256_hexdigest
                    (chunk_key user_id document_id i))
        (range (List.length chunks)).
Proof.
  unfold Q.points. rewrite map_map.
  rewrite <- (combine_encode_length chunks), <- enumerate_fst, map_map.
  apply map_ext. now intros [i [chunk embedding]].
Qed.

Lemma es_doc_ids (index_name : str) (chunks : list str)
  (document_id user_id : Z) :
  map ES.es_id (ES.docs embed index_name chunks document_id user_id)
  = map (fun i => chunk_key user_id document_id i)
        (range (List.length chunks)).
Proof.
  unfold ES.docs. rewrite map_map.
  rewrite <- (combine_encode_length chunks), <- enumerate_fst, map_map.
  apply map_ext. now intros [i [chunk embedding]].
Qed.

Lemma chroma_chunk_ids_nodup (chunks : list str) (document_id user_id : Z) :
  NoDup (C.chunk_ids chunks document_id user_id).
Proof.
  unfold C.chunk_ids. apply Finite.Injective_map_NoDup.
  - intros i j. apply chunk_key_inj.
  - apply range_nodup.
Qed.

End Ids.

End ChunkKeyProps.

(* ------------------------------------------------------------------ *)
(** *** Adding the same chunks twice *)

Module AddChunksProps.
Import Py PyFacts VectorStore KeyedProps ChunkKeyProps.

(** Short names for the three classes. *)
Module Q := QdrantVectorStore.
Module C := ChromaVectorStore.
Module ES := ElasticsearchVectorStore.

Lemma enumerate_length {A : Type} (l : list A) :
  List.length (enumerate l) = List.length l.
Proof.
  rewrite <- (length_map fst), enumerate_fst.
  unfold range. now rewrite length_map, length_seq.
Qed.

Lemma map_fst_combine_le {A B : Type} (a : list A) (b : list B) :
  (List.length a <= List.length b)%nat -> map fst (combine a b) = a.
Proof.
  revert b. induction a as [|x a IH]; intros [|y b] H; cbn in *;
    try reflexivity; try lia.
  f_equal. apply IH. lia.
Qed.

Lemma len_range (chunks : list str) (i : Z) :
  0 <= i < len chunks -> In i (range (List.length chunks)).
Proof. intros H. now apply in_range. Qed.

Lemma empty_no_index (chunks : list str) (i : Z) :
  negb (truthy chunks) = true -> 0 <= i < len chunks -> False.
Proof.
  destruct chunks; [cbn; lia | discriminate].
Qed.

Section Stores.

Variable vec : Type.
Variable embed : str -> vec.
Variable sha256_hexdigest : str -> str.

Lemma chroma_entry_ids (ids : list str) (embeddings : list vec)
  (documents : list str) (metadatas : list payload) :
  List.length ids = List.length embeddings ->
  List.length ids = List.length documents ->
  List.length ids = List.length metadatas ->
  map C.ce_id
      (map (fun '(id, (embedding, (document, metadata))) =>
              {| C.ce_id := id; C.ce_embedding := embedding;
                 C.ce_document := document; C.ce_metadata := metadata |})
           (combine ids (combine embeddings (combine documents metadatas))))
  = ids.
Proof.
  intros H1 H2 H3. rewrite map_map.
  rewrite <- (map_fst_combine_le ids
                (combine embeddings (combine documents metadatas))) at 2.
  - apply map_ext. now intros [id [embedding [document metadata]]].
  - rewrite !length_combine. lia.
Qed.

(** Qdrant: the second [add_chunks] leaves the collection as the first
    one made it, with one point under each chunk's identifier. *)
Lemma qdrant_add_chunks_twice (collection : list (Q.point vec))
  (chunks : list str) (document_id user_id : Z) :
  let once :=
    Q.add_chunks embed sha256_hexdigest collection chunks
      document_id user_id in
  Q.add_chunks embed sha256_hexdigest once chunks document_id user_id
  = once
  /\ (NoDup (map Q.point_id collection) ->
      NoDup (map Q.point_id once)
      /\ forall i, 0 <= i < len chunks ->
           List.length
             (entries_under Q.point_id
                (Q._generate_uuid_from_string sha256_hexdigest
                   (chunk_key user_id document_id i)) once) = 1%nat).
Proof.
  cbv zeta. unfold Q.add_chunks.
  destruct (negb (truthy chunks)) eqn:T.
  - split; [reflexivity |]. intros N. split; [exact N |].
    intros i Hi. destruct (empty_no_index chunks i T Hi).
  - split; [apply upsert_twice |]. intros N.
    split; [now apply nodup_upsert |].
    intros i Hi. apply one_entry_under.
    + now apply nodup_upsert.
    + apply upsert_keeps_keys. right. rewrite qdrant_point_ids.
      apply (in_map (fun j => Q._generate_uuid_from_string sha256_hexdigest
                                (chunk_key user_id document_id j))).
      now apply len_range.
Qed.

(** Qdrant: after [add_chunks] every point stored under an identifier
    of the batch is a point of the batch; what was stored under it
    before has been replaced. *)
Lemma qdrant_add_chunks_overwrites (collection : list (Q.point vec))
  (chunks : list str) (document_id user_id : Z) (p : Q.point vec) :
  let batch := Q.points embed sha256_hexdigest chunks document_id user_id in
  In p (Q.add_chunks embed sha256_hexdigest collection chunks
          document_id user_id) ->
  In (Q.point_id p) (map Q.point_id batch) ->
  In p batch.
Proof.
  cbv zeta. unfold Q.add_chunks.
  destruct (negb (truthy chunks)) eqn:T.
  - destruct chunks; [| discriminate]. intros _ [].
  - intros Hp Hid.
    destruct (last_under _ Q.point_id
                (Q.points embed sha256_hexdigest chunks document_id user_id)
                (Q.point_id p)) as [e |] eqn:L.
    + rewrite (in_upsert_settled _ _ _ _ p e Hp L).
      now apply (last_under_key _ _ _ _ _ L).
    + destruct (last_under_none _ _ _ _ L Hid).
Qed.

(** Chroma: both calls return, the second one finds every identifier
    stored and changes nothing. *)
Lemma chroma_add_chunks_twice (collection : list (C.entry vec))
  (chunks : list str) (document_id user_id : Z) :
  exists once,
    C.add_chunks embed collection chunks document_id user_id
    = Ret once
    /\ C.add_chunks embed once chunks document_id user_id = Ret once
    /\ (NoDup (map C.ce_id collection) ->
        NoDup (map C.ce_id once)
        /\ forall i, 0 <= i < len chunks ->
             List.length
               (entries_under C.ce_id
                  (chunk_key user_id document_id i) once) = 1%nat)
    /\ forall i, 0 <= i < len chunks ->
         In (chunk_key user_id document_id i) (map C.ce_id once).
Proof.
  unfold C.add_chunks.
  destruct (negb (truthy chunks)) eqn:T.
  - exists collection. repeat split; try assumption;
      intros i Hi; destruct (empty_no_index chunks i T Hi).
  - cbv zeta. unfold C.collection_add.
    rewrite (has_duplicate_ids_nodup _
               (chroma_chunk_ids_nodup chunks document_id user_id)).
    eexists. split; [reflexivity |].
    assert (IDS : forall es,
      es = map (fun '(id, (embedding, (document, metadata))) =>
                  {| C.ce_id := id; C.ce_embedding := embedding;
                     C.ce_document := document; C.ce_metadata := metadata |})
             (combine (C.chunk_ids chunks document_id user_id)
                (combine (encode embed chunks)
                   (combine chunks
                      (C.make_metadatas chunks document_id user_id)))) ->
      map C.ce_id es = C.chunk_ids chunks document_id user_id).
    { intros es ->. apply chroma_entry_ids;
        unfold C.chunk_ids, C.make_metadatas, encode, range;
        rewrite ?length_map, ?length_seq, ?enumerate_length; reflexivity. }
    assert (Stored : forall i, 0 <= i < len chunks ->
      In (chunk_key user_id document_id i)
         (map C.ce_id
            (add_new C.ce_id collection
               (map (fun '(id, (embedding, (document, metadata))) =>
                  {| C.ce_id := id; C.ce_embedding := embedding;
                     C.ce_document := document; C.ce_metadata := metadata |})
             (combine (C.chunk_ids chunks document_id user_id)
                (combine (encode embed chunks)
                   (combine chunks
                      (C.make_metadatas chunks document_id user_id)))))))).
    { intros i Hi. apply add_new_keeps_keys. right. rewrite (IDS _ eq_refl).
      apply (in_map (fun j => chunk_key user_id document_id j)).
      now apply len_range. }
    split; [f_equal; apply add_new_twice |].
    split; [| exact Stored].
    intros N. split; [now apply nodup_add_new |].
    intros i Hi. apply one_entry_under.
    + now apply nodup_add_new.
    + now apply Stored.
Qed.

(** Chroma: a call whose identifiers are all stored changes nothing,
    whatever its chunks say: the stored entries are kept, not
    overwritten. *)
Lemma chroma_add_chunks_keeps (collection : list (C.entry vec))
  (chunks : list str) (document_id user_id : Z) :
  (forall i, 0 <= i < len chunks ->
             In (chunk_key user_id document_id i) (map C.ce_id collection)) ->
  C.add_chunks embed collection chunks document_id user_id = Ret collection.
Proof.
  intros Stored. unfold C.add_chunks.
  destruct (negb (truthy chunks)); [reflexivity |].
  cbv zeta. unfold C.collection_add.
  rewrite (has_duplicate_ids_nodup _
             (chroma_chunk_ids_nodup chunks document_id user_id)).
  f_equal. apply add_new_present. intros e He.
  apply (in_map C.ce_id) in He.
  rewrite chroma_entry_ids in He.
  - unfold C.chunk_ids in He. apply in_map_iff in He as (i & <- & Hi).
    apply Stored. now apply in_range.
  - unfold C.chunk_ids, encode, range.
    now rewrite !length_map, length_seq.
  - unfold C.chunk_ids, range. now rewrite !length_map, length_seq.
  - unfold C.chunk_ids, C.make_metadatas, range.
    now rewrite !length_map, length_seq, enumerate_length.
Qed.

(** Elasticsearch refuses every action [add_chunks] builds: its
    [created_at] is the word "now", which is no date. *)
Lemma es_docs_refused (index_name : str) (chunks : list str)
  (document_id user_id : Z) (d : ES.doc vec) :
  In d (ES.docs embed index_name chunks document_id user_id) ->
  ES.indexable d = false.
Proof.
  unfold ES.docs. rewrite in_map_iff.
  intros ([i [chunk embedding]] & <- & _). reflexivity.
Qed.

Lemma filter_none {A : Type} (p : A -> bool) (l : list A) :
  (forall x, In x l -> p x = false) -> filter p l = [].
Proof.
  induction l as [|x l IH]; intros H; [reflexivity |].
  cbn. rewrite (H x) by now left. apply IH. intros y Hy. apply H. now right.
Qed.

Lemma filter_all {A : Type} (p : A -> bool) (l : list A) :
  (forall x, In x l -> p x = true) -> filter p l = l.
Proof.
  induction l as [|x l IH]; intros H; [reflexivity |].
  cbn. rewrite (H x) by now left. f_equal. apply IH.
  intros y Hy. apply H. now right.
Qed.

(** [bulk] of actions that are all refused raises after the first run
    and stores nothing. *)
Lemma bulk_all_refused (stored actions : list (ES.doc vec)) :
  actions <> [] ->
  (forall d, In d actions -> ES.indexable d = false) ->
  ES.bulk stored actions
  = (Raise (ES.bulk_index_error (len (firstn 500 actions))), stored).
Proof.
  intros Hne Hall. unfold ES.bulk.
  destruct actions as [|a actions]; [contradiction |].
  cbn [List.length ES.runs_of ES.bulk_runs].
  set (run := firstn 500 (a :: actions)).
  assert (Hrun : forall d, In d run -> ES.indexable d = false).
  { intros d Hd. apply Hall. unfold run in Hd.
    rewrite <- (firstn_skipn 500 (a :: actions)). apply in_or_app. now left. }
  rewrite (filter_none _ run Hrun).
  rewrite (filter_all (fun d => negb (ES.indexable d)) run)
    by (intros d Hd; now rewrite (Hrun d Hd)).
  reflexivity.
Qed.

(** Elasticsearch: a call with chunks raises and leaves the index as it
    was; a call without chunks returns. *)
Lemma es_add_chunks_raises (index_name : str) (stored : list (ES.doc vec))
  (chunks : list str) (document_id user_id : Z) :
  let run :=
    ES.add_chunks embed index_name stored chunks document_id user_id in
  snd run = stored
  /\ (chunks = [] -> fst run = Ret tt)
  /\ (chunks <> [] ->
      exists n, 0 < n <= len chunks
                /\ fst run = Raise (ES.bulk_index_error n)).
Proof.
  cbv zeta. unfold ES.add_chunks.
  destruct chunks as [|c chunks]; cbn [truthy negb].
  - repeat split. intros H. now destruct H.
  - rewrite bulk_all_refused.
    + repeat split; [discriminate |]. intros _.
      eexists. split; [| reflexivity].
      unfold len. rewrite length_firstn.
      assert (L : List.length
                    (ES.docs embed index_name (c :: chunks) document_id
                       user_id)
                  = List.length (c :: chunks)).
      { unfold ES.docs.
        now rewrite length_map, enumerate_length, combine_encode_length. }
      rewrite L. cbn [List.length]. lia.
    + unfold ES.docs. cbn. discriminate.
    + apply es_docs_refused.
Qed.

End Stores.




End AddChunksProps.

(* ------------------------------------------------------------------ *)
(** *** Searches are scoped to the caller *)

Module SearchProps.
Import Py PyFacts VectorStore KeyedProps.

(** Short names for the three classes. *)
Module Q := QdrantVectorStore.
Module C := ChromaVectorStore.
Module ES := ElasticsearchVectorStore.

(** What the services promise of a filtered request: a hit satisfies
    the filter that was sent with the request. *)
Definition qdrant_honours_filter {vec score_t : Type}
  (client_search : Q.search_request vec -> list (Q.scored_point score_t))
  : Prop :=
  forall request hit,
    In hit (client_search request) ->
    Q.filter_holds (Q.query_filter request) (Q.sp_payload hit) = true.

Definition chroma_honours_where {vec score_t : Type}
  (collection_query : C.query_args vec -> res (C.query_result score_t))
  : Prop :=
  forall q results metadatas row metadata,
    collection_query q = Ret results ->
    C.qr_metadatas results = Some metadatas ->
    In row metadatas -> In metadata row ->
    C.where_holds (C.cq_where q) metadata = true.

(** The row of an answer that belongs to the first query embedding:
    [results[key][0]], empty when there is none. *)
Definition first_row {A : Type} (rows : option (list (list A))) : list A :=
  match rows with
  | Some (row :: _) => row
  | _ => []
  end.

Lemma pval_eqb_eq (a b : pval) : pval_eqb a b = true -> a = b.
Proof.
  destruct a, b; cbn; try discriminate.
  - intros H. apply Z.eqb_eq in H. now subst.
  - intros H. apply str_eqb_eq in H. now subst.
Qed.

Lemma for_each_in {A B : Type} (f : A -> res B) (xs : list A) :
  forall ys y,
    for_each f xs = Ret ys -> In y ys -> exists x, In x xs /\ f x = Ret y.
Proof.
  induction xs as [|x xs IH]; cbn; intros ys y.
  - intros [= <-] [].
  - destruct (f x) as [y0 |] eqn:F; cbn; [| discriminate].
    destruct (for_each f xs) as [ys0 |]; cbn; [| discriminate].
    intros [= <-] [<- | H].
    + exists x. auto.
    + destruct (IH ys0 y eq_refl H) as (x' & Hx' & Fx'). eauto.
Qed.

Lemma for_each_length {A B : Type} (f : A -> res B) (xs : list A) :
  forall ys, for_each f xs = Ret ys -> List.length ys = List.length xs.
Proof.
  induction xs as [|x xs IH]; cbn; intros ys.
  - now intros [= <-].
  - destruct (f x); cbn; [| discriminate].
    destruct (for_each f xs) as [ys0 |]; cbn; [| discriminate].
    intros [= <-]. cbn. f_equal. now apply IH.
Qed.

(** The results of a loop that returns come from its items, position by
    position. *)
Lemma for_each_nth {A B : Type} (f : A -> res B) (xs : list A) :
  forall ys n y,
    for_each f xs = Ret ys -> nth_error ys n = Some y ->
    exists x, nth_error xs n = Some x /\ f x = Ret y.
Proof.
  induction xs as [|x xs IH]; cbn; intros ys n y.
  - intros [= <-]. now destruct n.
  - destruct (f x) as [y0 |] eqn:F; cbn; [| discriminate].
    destruct (for_each f xs) as [ys0 |]; cbn; [| discriminate].
    intros [= <-]. destruct n as [|n]; cbn.
    + intros [= <-]. eauto.
    + intros H. exact (IH ys0 n y eq_refl H).
Qed.

Lemma for_each_map {A B C : Type} (f : A -> res B) (g : B -> C)
  (h : A -> C) (xs : list A) :
  (forall x y, f x = Ret y -> g y = h x) ->
  forall ys, for_each f xs = Ret ys -> map g ys = map h xs.
Proof.
  intros H. induction xs as [|x xs IH]; cbn; intros ys.
  - now intros [= <-].
  - destruct (f x) as [y0 |] eqn:F; cbn; [| discriminate].
    destruct (for_each f xs) as [ys0 |]; cbn; [| discriminate].
    intros [= <-]. cbn. f_equal; [now apply H | now apply IH].
Qed.

Lemma enumerate_from_nth_error {A : Type} (l : list A) :
  forall (k : Z) (n : nat) (i : Z) (x : A),
    nth_error (enumerate_from k l) n = Some (i, x) ->
    i = k + Z.of_nat n /\ nth_error l n = Some x.
Proof.
  induction l as [|y l IH]; intros k n i x; cbn [enumerate_from].
  - now destruct n.
  - destruct n as [|n]; cbn [nth_error].
    + intros [= <- <-]. split; [lia | reflexivity].
    + intros H. destruct (IH _ _ _ _ H) as [-> E]. split; [lia | exact E].
Qed.

Lemma enumerate_from_snd {A : Type} (l : list A) (k : Z) :
  map snd (enumerate_from k l) = l.
Proof.
  revert k. induction l as [|y l IH]; intros k; [reflexivity |].
  cbn. now rewrite IH.
Qed.

(** [l[n]] for a position [n] counted from the start. *)
Lemma index_of_nat {A : Type} (l : list A) (n : nat) (x : A) :
  index l (Z.of_nat n) = Ret x -> nth_error l n = Some x.
Proof.
  unfold index, adjust, len.
  destruct (Z.ltb_spec (Z.of_nat n) 0) as [H | _]; [lia |].
  destruct (Z.min_spec (Z.of_nat n) (Z.of_nat (List.length l)))
    as [[Hlt ->] | [Hge ->]]; rewrite Nat2Z.id.
  - destruct (nth_error l n); [| discriminate].
    destruct (Z.of_nat n <? - Z.of_nat (List.length l)); [discriminate |].
    now intros [= <-].
  - rewrite (proj2 (nth_error_None l (List.length l))) by lia. discriminate.
Qed.

Lemma subscript_first_row {A : Type} (rows : option (list (list A)))
  (row : list A) :
  subscript rows 0 = Ret row -> first_row rows = row.
Proof.
  destruct rows as [[|r rows] |]; cbn; try discriminate.
  intros H. apply (index_of_nat (r :: rows) 0) in H. now injection H.
Qed.

Lemma different_user (a b : Z) (v : option pval) :
  a <> b -> v = Some (PInt a) -> v <> Some (PInt b).
Proof. intros N -> [= H]. contradiction. Qed.

Section Searches.

Variable vec score_t : Type.
Variable embed : str -> vec.

Lemma qdrant_format_user (hit : Q.scored_point score_t)
  (found : Q.found_chunk score_t) (user_id : Z) :
  Q.filter_holds
    {| Q.must :=
         [ {| Q.fc_key := lit "user_id"; Q.fc_match := PInt user_id |} ] |}
    (Q.sp_payload hit) = true ->
  Q.format_result hit = Ret found ->
  assoc_get (lit "user_id") (Q.fc_metadata found) = Some (PInt user_id).
Proof.
  unfold Q.filter_holds, Q.condition_holds, Q.format_result, getitem.
  cbn [Q.must forallb Q.fc_key Q.fc_match].
  set (pl := Q.sp_payload hit).
  intros H. rewrite andb_true_r in H. unfold bind.
  destruct (@assoc_get pval (lit "content") pl); [| discriminate].
  destruct (@assoc_get pval (lit "document_id") pl); [| discriminate].
  destruct (@assoc_get pval (lit "user_id") pl) as [v |]; [| discriminate].
  destruct (@assoc_get pval (lit "chunk_index") pl); [| discriminate].
  destruct (@assoc_get pval (lit "text_preview") pl); [| discriminate].
  intros [= <-]. apply pval_eqb_eq in H. subst v. reflexivity.
Qed.

(** Qdrant: every chunk that comes back carries the caller's id. *)
Lemma qdrant_search_scoped
  (client_search : Q.search_request vec -> list (Q.scored_point score_t))
  (query : str) (user_id top_k : Z) (found : list (Q.found_chunk score_t)) :
  qdrant_honours_filter client_search ->
  Q.search_similar_chunks embed client_search
    query user_id top_k = Ret found ->
  Forall (fun c => assoc_get (lit "user_id") (Q.fc_metadata c)
                   = Some (PInt user_id)) found.
Proof.
  intros Honest Run. apply Forall_forall. intros c Hc.
  unfold Q.search_similar_chunks in Run. cbv zeta in Run.
  destruct (for_each_in _ _ _ _ Run Hc) as (hit & Hin & Hf).
  apply (qdrant_format_user hit c user_id); [| exact Hf].
  exact (Honest _ _ Hin).
Qed.

(** Qdrant: the chunks that come back are the hits of the service for
    the user's request, position by position. *)
Lemma qdrant_search_passes_through
  (client_search : Q.search_request vec -> list (Q.scored_point score_t))
  (query : str) (user_id top_k : Z) (found : list (Q.found_chunk score_t)) :
  Q.search_similar_chunks embed client_search
    query user_id top_k = Ret found ->
  List.length found
  = List.length (client_search (Q.user_request embed query user_id top_k))
  /\ forall n c,
       nth_error found n = Some c ->
       exists hit,
         nth_error
           (client_search (Q.user_request embed query user_id top_k)) n
         = Some hit
         /\ Q.format_result hit = Ret c.
Proof.
  unfold Q.search_similar_chunks. cbv zeta. intros Run. split.
  - exact (for_each_length _ _ _ Run).
  - intros n c Hn. exact (for_each_nth _ _ _ _ _ Run Hn).
Qed.

(** One formatted row of a Chroma answer: its content is the document,
    its metadata the one at the document's position. *)
Lemma chroma_row (results : C.query_result score_t) (i : Z) (doc : str)
  (c : C.found score_t) :
  (metadatas0 <- subscript (C.qr_metadatas results) 0 ;;
   metadata <- index metadatas0 i ;;
   distance <-
     (if truthy_opt (C.qr_distances results) then
        distances0 <- subscript (C.qr_distances results) 0 ;;
        d <- index distances0 i ;;
        Ret (Some d)
      else Ret None) ;;
   Ret {| C.cf_content := doc; C.cf_metadata := metadata;
          C.cf_distance := distance |}) = Ret c ->
  C.cf_content c = doc
  /\ index (first_row (C.qr_metadatas results)) i = Ret (C.cf_metadata c).
Proof.
  destruct (subscript (C.qr_metadatas results) 0) as [metadatas0 |] eqn:M;
    cbn [bind]; [| discriminate].
  rewrite (subscript_first_row _ _ M).
  destruct (index metadatas0 i) as [metadata |]; cbn [bind]; [| discriminate].
  match goal with
  | |- (x <- ?m ;; _) = _ -> _ => destruct m as [distance |]; cbn [bind]
  end; [| discriminate].
  intros [= <-]. split; reflexivity.
Qed.

(** Chroma: the chunks that come back are the documents, with their
    metadata, of the service's answer to the user's query, all of them
    and position by position. *)
Lemma chroma_search_passes_through
  (collection_query : C.query_args vec -> res (C.query_result score_t))
  (query : str) (user_id top_k : Z) (results : C.query_result score_t)
  (found : list (C.found score_t)) :
  collection_query (C.user_query embed query user_id top_k) = Ret results ->
  C.search_similar_chunks embed collection_query
    query user_id top_k = Ret found ->
  map C.cf_content found = first_row (C.qr_documents results)
  /\ forall n c,
       nth_error found n = Some c ->
       nth_error (first_row (C.qr_metadatas results)) n
       = Some (C.cf_metadata c).
Proof.
  intros Answer. unfold C.search_similar_chunks. rewrite Answer.
  cbn [bind].
  destruct (C.qr_documents results) as [[|documents0 rest] |];
    cbn [truthy_opt truthy first_row];
    try (intros [= <-]; split; [reflexivity | intros [|n] c; discriminate]).
  assert (I : subscript (Some (documents0 :: rest)) 0 = Ret documents0).
  { unfold subscript, index, adjust, len. cbn [List.length].
    destruct (Z.ltb_spec 0 0) as [H | _]; [lia |].
    rewrite Z.min_l by lia. cbn [Z.to_nat nth_error].
    destruct (Z.ltb_spec 0 (- Z.of_nat (S (List.length rest)))) as [H | _];
      [lia | reflexivity]. }
  rewrite I. cbn [bind].
  destruct (truthy documents0) eqn:T.
  - intros Run. split.
    + rewrite (fun H => for_each_map _ C.cf_content snd _ H _ Run).
      * apply enumerate_from_snd.
      * intros [i doc] c Hc. apply (chroma_row results i doc c Hc).
    + intros n c Hn.
      destruct (for_each_nth _ _ _ _ _ Run Hn) as ([i doc] & Hx & Hf).
      apply enumerate_from_nth_error in Hx as [-> _].
      apply chroma_row in Hf as [_ Hf]. now apply index_of_nat.
  - destruct documents0; [| discriminate].
    intros [= <-]. split; [reflexivity | intros [|n] c; discriminate].
Qed.

(** Chroma: every chunk that comes back carries the caller's id. *)
Lemma chroma_search_scoped
  (collection_query : C.query_args vec -> res (C.query_result score_t))
  (query : str) (user_id top_k : Z) (found : list (C.found score_t)) :
  chroma_honours_where collection_query ->
  C.search_similar_chunks embed collection_query
    query user_id top_k = Ret found ->
  Forall (fun c => assoc_get (lit "user_id") (C.cf_metadata c)
                   = Some (PInt user_id)) found.
Proof.
  intros Honest Run.
  destruct (collection_query (C.user_query embed query user_id top_k))
    as [results |] eqn:Answer.
  - destruct (chroma_search_passes_through collection_query query user_id
                top_k results found Answer Run) as [_ Rows].
    apply Forall_forall. intros c Hc.
    apply In_nth_error in Hc as [n Hn]. specialize (Rows n c Hn).
    destruct (C.qr_metadatas results) as [[|row rows] |] eqn:M;
      cbn [first_row] in Rows; try (now destruct n).
    assert (W : C.where_holds
                  (C.cq_where (C.user_query embed query user_id top_k))
                  (C.cf_metadata c) = true).
    { apply (Honest _ results (row :: rows) row _ Answer M);
        [now left | eapply nth_error_In; exact Rows]. }
    cbn [C.cq_where C.user_query C.where_holds] in W. revert W.
    destruct (@assoc_get pval (lit "user_id") (C.cf_metadata c)) as [v |];
      [| discriminate].
    intros W. apply pval_eqb_eq in W. now subst.
  - unfold C.search_similar_chunks in Run. rewrite Answer in Run.
    discriminate Run.
Qed.

End Searches.

(** The [user_id] a result carries in its metadata. *)
Definition stored_user (metadata : payload) : option pval :=
  assoc_get (lit "user_id") metadata.

(** C1.  A search issued with user [a] returns only chunks whose stored
    [user_id] is [a], hence none of any other user [b], for every query
    and every [top_k], on Qdrant and on Chroma.  The restriction is in
    the request handed to the service -- the Qdrant filter
    [must = [user_id == a]], the Chroma [where = {user_id: a}] -- and
    that request is the only one the result depends on: a service that
    answers it alike gives the same search.  Nothing is filtered after
    the call: the Qdrant results are the service's hits for that
    request, and the Chroma results the documents and metadata of its
    answer to that query, all of them and position by position; a
    refusal of the Chroma query is raised to the caller. *)
Theorem search_similar_chunks_user_scoped :
  forall (vec score_t : Type) (embed : str -> vec)
         (client_search : QdrantVectorStore.search_request vec
                          -> list (QdrantVectorStore.scored_point score_t))
         (collection_query : ChromaVectorStore.query_args vec
                             -> res (ChromaVectorStore.query_result score_t))
         (query : str) (a b top_k : Z),
    qdrant_honours_filter client_search ->
    chroma_honours_where collection_query ->
    a <> b ->
    let request := QdrantVectorStore.user_request embed query a top_k in
    let sent := ChromaVectorStore.user_query embed query a top_k in
    (forall found,
        QdrantVectorStore.search_similar_chunks embed client_search
          query a top_k = Ret found ->
        Forall (fun c =>
                  stored_user (QdrantVectorStore.fc_metadata c)
                  = Some (PInt a)
                  /\ stored_user (QdrantVectorStore.fc_metadata c)
                     <> Some (PInt b)) found
        /\ List.length found = List.length (client_search request)
        /\ forall n c,
             nth_error found n = Some c ->
             exists hit,
               nth_error (client_search request) n = Some hit
               /\ QdrantVectorStore.format_result hit = Ret c)
    /\ (forall found,
        ChromaVectorStore.search_similar_chunks embed collection_query
          query a top_k = Ret found ->
        Forall (fun c =>
                  stored_user (ChromaVectorStore.cf_metadata c)
                  = Some (PInt a)
                  /\ stored_user (ChromaVectorStore.cf_metadata c)
                     <> Some (PInt b)) found
        /\ exists results,
             collection_query sent = Ret results
             /\ map ChromaVectorStore.cf_content found
                = first_row (ChromaVectorStore.qr_documents results)
             /\ forall n c,
                  nth_error found n = Some c ->
                  nth_error
                    (first_row (ChromaVectorStore.qr_metadatas results)) n
                  = Some (ChromaVectorStore.cf_metadata c))
    /\ QdrantVectorStore.must (QdrantVectorStore.query_filter request)
       = [ {| QdrantVectorStore.fc_key := lit "user_id";
              QdrantVectorStore.fc_match := PInt a |} ]
    /\ ChromaVectorStore.cq_where sent
       = ChromaVectorStore.WIs (lit "user_id") (PInt a)
    /\ (forall other_search,
          other_search request = client_search request ->
          QdrantVectorStore.search_similar_chunks embed other_search
            query a top_k
          = QdrantVectorStore.search_similar_chunks embed client_search
              query a top_k)
    /\ (forall other_query,
          other_query sent = collection_query sent ->
          ChromaVectorStore.search_similar_chunks embed other_query
            query a top_k
          = ChromaVectorStore.search_similar_chunks embed collection_query
              query a top_k)
    /\ (forall e,
          collection_query sent = Raise e ->
          ChromaVectorStore.search_similar_chunks embed collection_query
            query a top_k = Raise e).
Proof.
  intros vec score_t embed client_search collection_query query a b top_k
         HQ HC Hab.
  cbv zeta.
  split; [| split; [| split; [reflexivity | split; [reflexivity |]]]].
  - intros found Run. split.
    + eapply Forall_impl;
        [| exact (qdrant_search_scoped vec score_t embed client_search
                    query a top_k found HQ Run)].
      intros c Hc. split; [exact Hc | now apply (different_user a b)].
    + exact (qdrant_search_passes_through vec score_t embed client_search
               query a top_k found Run).
  - intros found Run. split.
    + eapply Forall_impl;
        [| exact (chroma_search_scoped vec score_t embed collection_query
                    query a top_k found HC Run)].
      intros c Hc. split; [exact Hc | now apply (different_user a b)].
    + destruct (collection_query (C.user_query embed query a top_k))
        as [results |] eqn:Answer.
      * exists results. split; [reflexivity |].
        exact (chroma_search_passes_through vec score_t embed
                 collection_query query a top_k results found Answer Run).
      * unfold C.search_similar_chunks in Run. rewrite Answer in Run.
        discriminate Run.
  - split; [| split].
    + intros other_search Same. unfold Q.search_similar_chunks. cbv zeta.
      now rewrite Same.
    + intros other_query Same. unfold C.search_similar_chunks.
      now rewrite Same.
    + intros e Refused. unfold C.search_similar_chunks.
      now rewrite Refused.
Qed.

Lemma in_firstn {A : Type} (n : nat) (l : list A) (x : A) :
  In x (firstn n l) -> In x l.
Proof.
  revert l. induction n as [|n IH]; intros [|y l]; cbn; try tauto.
  intros [H | H]; [now left | right; now apply IH].
Qed.

(** The reference services keep the promise. *)
Lemma reference_search_honours {vec score_t : Type}
  (score : vec -> vec -> score_t) (collection : list (Q.point vec)) :
  qdrant_honours_filter (Q.reference_search score collection).
Proof.
  intros request hit H. unfold Q.reference_search in H.
  apply in_firstn in H. apply in_map_iff in H as (p & <- & Hp).
  apply filter_In in Hp as [_ Hp]. exact Hp.
Qed.

Lemma reference_query_honours {vec score_t : Type}
  (distance : vec -> vec -> score_t) (collection : list (C.entry vec)) :
  chroma_honours_where (C.reference_query distance collection).
Proof.
  intros q results metadatas row metadata Answer M Hrow Hm.
  unfold C.reference_query in Answer.
  destruct (C.n_results q <=? 0); [discriminate |].
  injection Answer as <-. cbn in M. injection M as <-.
  apply in_map_iff in Hrow as (v & <- & _).
  apply in_map_iff in Hm as (e & <- & He).
  apply in_firstn in He. apply filter_In in He as [_ He]. exact He.
Qed.

(** A Qdrant collection holding one chunk of user 1 and one of user 2
    (vectors and scores are integers here, the digest is the identity). *)
Definition two_user_collection : list (QdrantVectorStore.point Z) :=
  QdrantVectorStore.add_chunks (fun s => len s) (fun s => s)
    (QdrantVectorStore.add_chunks (fun s => len s) (fun s => s) []
       [lit "alpha"] 10 1)
    [lit "beta"] 20 2.

(** The same two chunks in a Chroma collection, as [add_chunks] stores
    them. *)
Definition two_user_entries : list (ChromaVectorStore.entry Z) :=
  match ChromaVectorStore.add_chunks (fun s => len s) []
          [lit "alpha"] 10 1 with
  | Ret first =>
      match ChromaVectorStore.add_chunks (fun s => len s) first
              [lit "beta"] 20 2 with
      | Ret second => second
      | Raise _ => first
      end
  | Raise _ => []
  end.

(** C1 on these collections: on Qdrant and on Chroma the search of user
    1 returns the chunk "alpha", and only chunks of user 1, although
    user 2's chunk "beta" is stored next to it. *)
Lemma search_similar_chunks_user_scoped_witness :
  map ChromaVectorStore.ce_document two_user_entries
  = [lit "alpha"; lit "beta"]
  /\ (exists found,
         QdrantVectorStore.search_similar_chunks (fun s => len s)
           (QdrantVectorStore.reference_search (fun a b => a - b)
              two_user_collection)
           (lit "a") 1 5
         = Ret found
         /\ map (@QdrantVectorStore.fc_content Z) found
            = [PStr (lit "alpha")]
         /\ Forall (fun c =>
                      stored_user (QdrantVectorStore.fc_metadata c)
                      = Some (PInt 1)
                      /\ stored_user (QdrantVectorStore.fc_metadata c)
                         <> Some (PInt 2)) found)
  /\ (exists found,
         ChromaVectorStore.search_similar_chunks (fun s => len s)
           (ChromaVectorStore.reference_query (fun a b => a - b)
              two_user_entries)
           (lit "a") 1 5
         = Ret found
         /\ map (@ChromaVectorStore.cf_content Z) found = [lit "alpha"]
         /\ Forall (fun c =>
                      stored_user (ChromaVectorStore.cf_metadata c)
                      = Some (PInt 1)
                      /\ stored_user (ChromaVectorStore.cf_metadata c)
                         <> Some (PInt 2)) found).
Proof.
  assert (N : 1 <> 2) by discriminate.
  destruct (search_similar_chunks_user_scoped Z Z
              (fun s => len s)
              (Q.reference_search (fun a b => a - b) two_user_collection)
              (C.reference_query (fun a b => a - b) two_user_entries)
              (lit "a") 1 2 5
              (reference_search_honours _ _)
              (reference_query_honours _ _) N)
    as (Qdrant & Chroma & _).
  split; [vm_compute; reflexivity |]. split.
  - eexists. split; [vm_compute; reflexivity |].
    split; [reflexivity |].
    apply Qdrant. vm_compute. reflexivity.
  - eexists. split; [vm_compute; reflexivity |].
    split; [reflexivity |].
    apply Chroma. vm_compute. reflexivity.
Defined.

End SearchProps.

(* ================================================================== *)
(** ** Celery jobs: the world they run in *)
(* ================================================================== *)

Module Jobs.
Import Py VectorStore.

(** Rows of [app/database/models.py].  A [DateTime] is the number of
    milliseconds since the epoch, in UTC. *)
Record User : Type := {
  u_id : Z;
  u_document_count : Z;
  u_query_count_today : Z;
  u_last_query_date : option Z
}.

Record Document : Type := {
  d_id : Z;
  d_filename : str;
  d_content_hash : str;
  d_chunk_count : Z;
  d_file_size : Z;
  d_user_id : Z
}.

Record QueryLog : Type := {
  q_id : Z;
  q_user_id : Z;
  q_question : str;
  q_answer : str;
  q_response_time : Z;
  q_chunks_used : Z
}.

Record database : Type := {
  users : list User;
  documents : list Document;
  query_logs : list QueryLog
}.

(** [datetime.date()]: the day number. *)
Definition date_of (t : Z) : Z := t / 86400000.

(** The fields of [settings] the jobs read. *)
Record Settings : Type := {
  max_documents_per_user : Z;
  max_chunks_per_document : Z;
  max_queries_per_hour : Z;
  rate_limit_enabled : bool
}.

(** One [current_task.update_state(state=..., meta={status, progress})]. *)
Record state_update : Type := {
  su_state : str;
  su_status : str;
  su_progress : Z
}.

(** The meta the result backend holds for a task: the last one stored
    under the task's key, if any. *)
Fixpoint current_meta (stored : list state_update) : option state_update :=
  match stored with
  | [] => None
  | [u] => Some u
  | _ :: rest => current_meta rest
  end.

(** [celery.states.EXCEPTION_STATES]: the result of a meta stored in one
    of these states is read back as an exception. *)
Definition exception_state (state : str) : bool :=
  str_eqb state (lit "RETRY") || str_eqb state (lit "FAILURE")
  || str_eqb state (lit "REVOKED").

(** What reading the stored meta raises when its state is an exception
    state and its result is a [{status, progress}] dict, which names no
    exception type ([Backend.exception_to_python]). *)
Definition meta_read_error : exn :=
  ValueError (lit "Exception information must include the exception type").

(** The stored metas after which a further one is stored: none, or a
    last one that is neither in an exception state nor a success. *)
Definition writable (stored : list state_update) : bool :=
  match current_meta stored with
  | None => true
  | Some current =>
      negb (exception_state (su_state current))
      && negb (str_eqb (su_state current) (lit "SUCCESS"))
  end.

(** The primary key the database gives a new row. *)
Definition fresh_id (ids : list Z) : Z := 1 + fold_right Z.max 0 ids.

(** [db.query(User).filter(User.id == user_id).first()] *)
Definition find_user (d : database) (user_id : Z) : option User :=
  find (fun u => u_id u =? user_id) (users d).

(** [db.query(Document).filter(Document.user_id == user_id).count()] *)
Definition count_documents (d : database) (user_id : Z) : Z :=
  len (filter (fun doc => d_user_id doc =? user_id) (documents d)).

(** Writing back a [User] object the session holds. *)
Definition store_user (user : User) (d : database) : database :=
  {| users := map (fun u => if u_id u =? u_id user then user else u) (users d);
     documents := documents d;
     query_logs := query_logs d |}.

Definition insert_document (doc : Document) (d : database) : database :=
  {| users := users d;
     documents := documents d ++ [doc];
     query_logs := query_logs d |}.

Definition remove_document (document_id : Z) (d : database) : database :=
  {| users := users d;
     documents := filter (fun doc => negb (d_id doc =? document_id))
                         (documents d);
     query_logs := query_logs d |}.

Definition insert_query_log (q : QueryLog) (d : database) : database :=
  {| users := users d;
     documents := documents d;
     query_logs := query_logs d ++ [q] |}.

Section World.

(** The vector store behind [vector_store], whichever class it is. *)
Variable store : Type.

(** What a job can see and change: the committed database, the vector
    store, the metas stored for the task in the result backend (oldest
    first; they outlive an execution, and a retried execution of the
    task finds those of the executions before it), and the clock (a
    reading per call, in milliseconds). *)
Record world : Type := {
  db : database;
  vs : store;
  updates : list state_update;
  clock : nat -> Z;
  ticks : nat
}.

(** A job step: it reads and changes the world and returns or raises. *)
Definition job (A : Type) : Type := world -> res A * world.

Definition ret {A : Type} (a : A) : job A := fun w => (Ret a, w).

Definition raise {A : Type} (e : exn) : job A := fun w => (Raise e, w).

Definition job_bind {A B : Type} (m : job A) (k : A -> job B) : job B :=
  fun w =>
    match m w with
    | (Ret a, w') => k a w'
    | (Raise e, w') => (Raise e, w')
    end.

(** A pure call that may raise. *)
Definition lift {A : Type} (r : res A) : job A := fun w => (r, w).

(** [try: body except Exception as e: handler(e)] *)
Definition job_try {A : Type} (body : job A) (handler : exn -> job A)
  : job A :=
  fun w =>
    match body w with
    | (Ret a, w') => (Ret a, w')
    | (Raise e, w') => handler e w'
    end.

(** [current_task.update_state(state=..., meta={status, progress})] on
    the key-value result backend the application configures (Redis):
    [_store_result] first reads the meta stored for the task
    ([_get_task_meta_for]).  Reading a meta in an exception state turns
    its result into an exception, which raises [ValueError] for a
    [{status, progress}] dict; a task whose stored state is SUCCESS keeps
    its meta; otherwise the new meta is stored.  The worker stores its
    own RETRY or FAILURE meta through the same [_store_result], so after
    the handler of a job has stored its FAILURE meta that write raises
    too and the stored meta stays the handler's. *)
Definition update_state (state status : str) (progress : Z) : job unit :=
  fun w =>
    let store_meta :=
      (Ret tt,
       {| db := db w; vs := vs w;
          updates := updates w
                     ++ [ {| su_state := state; su_status := status;
                             su_progress := progress |} ];
          clock := clock w; ticks := ticks w |}) in
    match current_meta (updates w) with
    | None => store_meta
    | Some current =>
        if exception_state (su_state current) then (Raise meta_read_error, w)
        else if str_eqb (su_state current) (lit "SUCCESS") then (Ret tt, w)
        else store_meta
    end.

(** [datetime.utcnow()] and [time.time()]: the next clock reading. *)
Definition read_clock : job Z :=
  fun w =>
    (Ret (clock w (ticks w)),
     {| db := db w; vs := vs w; updates := updates w;
        clock := clock w; ticks := S (ticks w) |}).

Definition get_db : job database := fun w => (Ret (db w), w).

(** [db.commit()] of the changes [f] the session holds. *)
Definition commit (f : database -> database) : job unit :=
  fun w =>
    (Ret tt,
     {| db := f (db w); vs := vs w; updates := updates w;
        clock := clock w; ticks := ticks w |}).

(** A call on the vector store that changes it, or raises and leaves it
    as it was. *)
Definition on_store (f : store -> res store) : job unit :=
  fun w =>
    match f (vs w) with
    | Ret s =>
        (Ret tt,
         {| db := db w; vs := s; updates := updates w;
            clock := clock w; ticks := ticks w |})
    | Raise e => (Raise e, w)
    end.

Definition get_store : job store := fun w => (Ret (vs w), w).

End World.

Arguments ret {store A} a.
Arguments raise {store A} e.
Arguments job_bind {store A B} m k.
Arguments lift {store A} r.
Arguments job_try {store A} body handler.
Arguments update_state {store} state status progress.
Arguments read_clock {store}.
Arguments get_db {store}.
Arguments commit {store} f.
Arguments on_store {store} f.
Arguments get_store {store}.
Arguments db {store} w.
Arguments vs {store} w.
Arguments updates {store} w.
Arguments clock {store} w.
Arguments ticks {store} w.

(** *** Celery's task wrapper

    [@celery_app.task(autoretry_for=..., retry_kwargs={max_retries,
    countdown})]: a run that raises an exception of a listed class is
    scheduled again after [countdown] seconds while the request has been
    retried fewer than [max_retries] times; otherwise the exception
    fails the task.  A task declared without [autoretry_for] lists no
    class. *)
Record task_options : Type := {
  autoretry_for : exn -> bool;
  max_retries : Z;
  countdown : Z
}.

Inductive task_outcome (A : Type) : Type :=
| Succeeded (result : A)
| RetryScheduled (e : exn) (after_seconds : Z)
| Failed (e : exn).
Arguments Succeeded {A} result.
Arguments RetryScheduled {A} e after_seconds.
Arguments Failed {A} e.

Definition run_task {A : Type} (options : task_options)
  (retries : Z) (run : res A) : task_outcome A :=
  match run with
  | Ret a => Succeeded a
  | Raise e =>
      if autoretry_for options e && (retries <? max_retries options)
      then RetryScheduled e (countdown options)
      else Failed e
  end.

(** [autoretry_for=(Exception,)]: every exception of the model is an
    [Exception]. *)
Definition any_exception (e : exn) : bool := true.

(** The class of an exception, which is what a caller can test with
    [isinstance] / [except]. *)
Inductive exn_class : Type :=
| ClsValueError | ClsUnicodeDecodeError | ClsTimeout | ClsConnectionError
| ClsJSONDecodeError | ClsAttributeError | ClsKeyError | ClsIndexError
| ClsTypeError | ClsDuplicateIDError | ClsException.

Definition class_of (e : exn) : exn_class :=
  match e with
  | ValueError _ => ClsValueError
  | UnicodeDecodeError => ClsUnicodeDecodeError
  | RequestsTimeout => ClsTimeout
  | RequestsConnectionError => ClsConnectionError
  | JSONDecodeError => ClsJSONDecodeError
  | AttributeError => ClsAttributeError
  | KeyError => ClsKeyError
  | IndexError => ClsIndexError
  | TypeError => ClsTypeError
  | DuplicateIDError => ClsDuplicateIDError
  | OtherException _ => ClsException
  end.

(** Proof steps for runs of jobs: open the steps of the job, then read
    the fields of the worlds they build. *)
Ltac job_steps :=
  unfold job_try, job_bind, lift, get_db, get_store, ret,
    raise, read_clock, commit.

Ltac world_fields := cbn [db vs updates clock ticks fst snd].

End Jobs.

(* ------------------------------------------------------------------ *)
(** *** Storing a task's state *)

Module JobsProps.
Import Py Jobs.

Lemma current_meta_app (stored : list state_update) (u : state_update) :
  current_meta (stored ++ [u]) = Some u.
Proof.
  induction stored as [|a stored IH]; [reflexivity |].
  cbn [app current_meta]. rewrite IH.
  destruct (stored ++ [u]) eqn:E; [| reflexivity].
  now destruct stored.
Qed.

(** After a meta has been stored, whether the next is stored depends on
    the state of that one alone. *)
Lemma writable_app (stored : list state_update) (u : state_update) :
  writable (stored ++ [u])
  = negb (exception_state (su_state u))
    && negb (str_eqb (su_state u) (lit "SUCCESS")).
Proof. unfold writable. now rewrite current_meta_app. Qed.

(** The meta the handler of a failed execution stores. *)
Definition failure_update (str_of_exn : exn -> str) (e : exn)
  : state_update :=
  {| su_state := lit "FAILURE";
     su_status := lit "Error: " ++ str_of_exn e;
     su_progress := 0 |}.

Lemma find_user_id (d : database) (user_id : Z) (user : User) :
  find_user d user_id = Some user -> u_id user = user_id.
Proof.
  unfold find_user. intros H. apply find_some in H as [_ H].
  now apply Z.eqb_eq.
Qed.

Lemma find_stored_user (us : list User) (user user' : User) (k : Z) :
  u_id user' = k ->
  find (fun u => u_id u =? k) us = Some user ->
  find (fun u => u_id u =? k)
       (map (fun u => if u_id u =? k then user' else u) us)
  = Some user'.
Proof.
  intros Hid.
  induction us as [|u us IH]; cbn; [discriminate |].
  destruct (u_id u =? k) eqn:E.
  - intros _. now rewrite Hid, Z.eqb_refl.
  - rewrite E. exact IH.
Qed.

Lemma find_user_store_user (d : database) (user user' : User) (user_id : Z) :
  find_user d user_id = Some user ->
  u_id user' = user_id ->
  find_user (store_user user' d) user_id = Some user'.
Proof.
  intros Hu Hid. unfold find_user, store_user in *. cbn [users].
  rewrite Hid. now apply (find_stored_user _ user).
Qed.

Lemma store_user_ids (user' : User) (d : database) :
  map u_id (users (store_user user' d)) = map u_id (users d).
Proof.
  unfold store_user. cbn [users]. rewrite map_map. apply map_ext.
  intros u. destruct (Z.eqb_spec (u_id u) (u_id user')); congruence.
Qed.

Lemma store_user_others (user' : User) (d : database) (u : User) :
  In u (users d) -> u_id u <> u_id user' ->
  In u (users (store_user user' d)).
Proof.
  intros Hin N. unfold store_user. cbn [users]. apply in_map_iff.
  exists u. split; [| exact Hin].
  destruct (Z.eqb_spec (u_id u) (u_id user')); [contradiction | reflexivity].
Qed.

(** A new primary key is above every one in use. *)
Lemma fresh_id_above (ids : list Z) (i : Z) : In i ids -> i < fresh_id ids.
Proof.
  unfold fresh_id. induction ids as [|j ids IH]; cbn [fold_right In];
    [tauto |].
  intros [-> | H]; [lia |]. specialize (IH H). lia.
Qed.

Lemma count_documents_insert (d : database) (doc : Document) (user_id : Z) :
  d_user_id doc = user_id ->
  count_documents (insert_document doc d) user_id
  = count_documents d user_id + 1.
Proof.
  intros H. unfold count_documents, insert_document, len.
  cbn [documents]. rewrite filter_app, length_app. cbn [filter].
  rewrite H, Z.eqb_refl. cbn. lia.
Qed.

Section World.

Variable store : Type.

(** While the stored state allows it, [update_state] appends its meta. *)
Lemma update_state_stores (w : world store) (state status : str)
  (progress : Z) :
  writable (updates w) = true ->
  update_state state status progress w
  = (Ret tt,
     {| db := db w; vs := vs w;
        updates := updates w
                   ++ [ {| su_state := state; su_status := status;
                           su_progress := progress |} ];
        clock := clock w; ticks := ticks w |}).
Proof.
  unfold writable, update_state. cbv zeta.
  destruct (current_meta (updates w)) as [current |]; [| reflexivity].
  destruct (exception_state (su_state current)); [discriminate |].
  destruct (str_eqb (su_state current) (lit "SUCCESS"));
    [discriminate | reflexivity].
Qed.

(** Once a meta in an exception state is stored, [update_state] raises
    and stores nothing. *)
Lemma update_state_raises (w : world store) (current : state_update)
  (state status : str) (progress : Z) :
  current_meta (updates w) = Some current ->
  exception_state (su_state current) = true ->
  update_state state status progress w = (Raise meta_read_error, w).
Proof.
  intros Hc He. unfold update_state. cbv zeta. now rewrite Hc, He.
Qed.

(** [update_state] changes the stored metas at most. *)
Lemma update_state_frame (w : world store) (state status : str)
  (progress : Z) :
  exists r us,
    update_state state status progress w
    = (r, {| db := db w; vs := vs w; updates := us;
             clock := clock w; ticks := ticks w |}).
Proof.
  unfold update_state. cbv zeta. destruct w as [d s us c t]. world_fields.
  destruct (current_meta us) as [current |]; [| eauto].
  destruct (exception_state (su_state current)); [eauto |].
  destruct (str_eqb (su_state current) (lit "SUCCESS")); eauto.
Qed.

End World.

(** Proof step: whatever the next [update_state] of the run does, it
    leaves the rest of the world alone. *)
Ltac update_frame :=
  match goal with
  | |- context [update_state ?s ?st ?p ?w] =>
      let r := fresh "r" in
      let us := fresh "us" in
      let E := fresh "E" in
      destruct (update_state_frame _ w s st p) as (r & us & E);
      rewrite E; clear E; world_fields
  end.

(** Proof step: the next [update_state] of the run stores its meta. *)
Ltac stores_meta :=
  rewrite update_state_stores
    by (world_fields; first [assumption | rewrite writable_app; reflexivity]);
  world_fields.

End JobsProps.

Declare Scope job_scope.
Delimit Scope job_scope with job.
Notation "x <- m ;; k" := (Jobs.job_bind m (fun x => k))
  (at level 61, m at next level, right associativity) : job_scope.
Notation "m ;;; k" := (Jobs.job_bind m (fun _ => k))
  (at level 61, right associativity) : job_scope.

(* ================================================================== *)
(** ** app/tasks/document_tasks.py and app/tasks/qa_tasks.py *)
(* ================================================================== *)

Module Tasks.
Import Py VectorStore Jobs.

(** A result dict of a job. *)
Definition result := list (str * pval).

Section Tasks.

Variable store : Type.
Variable settings : Settings.

(** Collaborators of the jobs: [base64.b64decode]; the three library
    calls of [process_document]; the configured vector store; the
    answer generator chosen at start-up ([qa_service.llm]); [str(e)]. *)
Variable b64decode : str -> res Codecs.bytes.
Variable sha256_hexdigest : Codecs.bytes -> str.
Variable extract_text_from_pdf : Codecs.bytes -> res str.
Variable suffix_lower : str -> str.
Variable add_chunks : store -> list str -> Z -> Z -> res store.
Variable delete_document_chunks : store -> Z -> Z -> res store.
Variable search_similar_chunks : store -> str -> Z -> Z -> res (list str).
Variable generate_answer : str -> list str -> res str.
Variable str_of_exn : exn -> str.

Local Open Scope job_scope.

(** [split_text_into_chunks(text_content)] with its defaults, which
    always returns (see [split_text_into_chunks_finishes]); the bound
    on the loop is the length of the text. *)
Definition split_with_defaults (text_content : str) : list str :=
  match DocumentProcessor.split_text_into_chunks
          (S (List.length text_content)) text_content 1000 200 with
  | Some chunks => chunks
  | None => []
  end.

(** [except Exception as e: update_state(FAILURE, ...); raise e] *)
Definition report_failure {A : Type} (e : exn) : job store A :=
  update_state (lit "FAILURE") (lit "Error: " ++ str_of_exn e) 0 ;;;
  raise e.

(** The first document of the user with this content hash. *)
Definition find_duplicate (d : database) (content_hash : str) (user_id : Z)
  : option Document :=
  find (fun doc => str_eqb (d_content_hash doc) content_hash
                   && (d_user_id doc =? user_id))
       (documents d).

(** [process_document_async(user_id, filename, file_content_b64)] *)
Definition process_document_async (user_id : Z) (filename : str)
  (file_content_b64 : str) : job store result :=
  job_try
    (update_state (lit "PROCESSING") (lit "Starting document processing") 0 ;;;
     file_content <- lift (b64decode file_content_b64) ;;
     d <- get_db ;;
     match find_user d user_id with
     | None => raise (ValueError (lit "User not found"))
     | Some user =>
         if u_document_count user >=? max_documents_per_user settings then
           raise (ValueError
                    (lit "Maximum document limit ("
                     ++ str_of_int (max_documents_per_user settings)
                     ++ lit ") reached"))
         else
           update_state (lit "PROCESSING")
             (lit "Processing document content") 25 ;;;
           processed <-
             lift (TextExtraction.process_document sha256_hexdigest
                     extract_text_from_pdf suffix_lower
                     filename file_content) ;;
           let text_content := fst processed in
           let content_hash := snd processed in
           match find_duplicate d content_hash user_id with
           | Some existing_doc =>
               ret [(lit "status", PStr (lit "duplicate"));
                    (lit "message",
                     PStr (lit
                       "Document with identical content already exists"));
                    (lit "document_id", PInt (d_id existing_doc))]
           | None =>
               update_state (lit "PROCESSING")
                 (lit "Splitting text into chunks") 50 ;;;
               let chunks := split_with_defaults text_content in
               if len chunks >? max_chunks_per_document settings then
                 raise (ValueError
                          (lit "Document too large. Maximum "
                           ++ str_of_int (max_chunks_per_document settings)
                           ++ lit " chunks allowed"))
               else
                 let document :=
                   {| d_id := fresh_id (map d_id (documents d));
                      d_filename := filename;
                      d_content_hash := content_hash;
                      d_chunk_count := len chunks;
                      d_file_size := len file_content;
                      d_user_id := user_id |} in
                 commit (insert_document document) ;;;
                 update_state (lit "PROCESSING")
                   (lit "Adding chunks to vector store") 75 ;;;
                 on_store
                   (fun s => add_chunks s chunks (d_id document) user_id) ;;;
                 d' <- get_db ;;
                 commit
                   (store_user
                      {| u_id := u_id user;
                         u_document_count := count_documents d' user_id;
                         u_query_count_today := u_query_count_today user;
                         u_last_query_date := u_last_query_date user |}) ;;;
                 update_state (lit "SUCCESS")
                   (lit "Document processing completed") 100 ;;;
                 ret [(lit "status", PStr (lit "success"));
                      (lit "document_id", PInt (d_id document));
                      (lit "filename", PStr filename);
                      (lit "chunk_count", PInt (len chunks));
                      (lit "content_hash", PStr content_hash);
                      (lit "message",
                       PStr (lit "Document processed successfully with "
                             ++ str_of_int (len chunks) ++ lit " chunks"))]
           end
     end)
    report_failure.

(** Its decorator: [autoretry_for=(Exception,)],
    [retry_kwargs={"max_retries": 3, "countdown": 60}]. *)
Definition process_document_options : task_options :=
  {| autoretry_for := any_exception; max_retries := 3; countdown := 60 |}.

(** [delete_document_async(document_id, user_id)].  The session is
    created with [autoflush=False], so the count that refreshes
    [user.document_count] is taken while the deletion is still
    pending. *)
Definition delete_document_async (document_id user_id : Z)
  : job store result :=
  job_try
    (d <- get_db ;;
     match find (fun doc => (d_id doc =? document_id)
                            && (d_user_id doc =? user_id))
                (documents d) with
     | None =>
         ret [(lit "status", PStr (lit "error"));
              (lit "message", PStr (lit "Document not found"))]
     | Some document =>
         on_store (fun s => delete_document_chunks s document_id user_id) ;;;
         commit (fun d0 =>
                   let d1 := remove_document (d_id document) d0 in
                   match find_user d user_id with
                   | Some user =>
                       store_user
                         {| u_id := u_id user;
                            u_document_count := count_documents d user_id;
                            u_query_count_today := u_query_count_today user;
                            u_last_query_date := u_last_query_date user |}
                         d1
                   | None => d1
                   end) ;;;
         ret [(lit "status", PStr (lit "success"));
              (lit "message", PStr (lit "Document deleted successfully"));
              (lit "document_id", PInt document_id)]
     end)
    (fun e =>
       ret [(lit "status", PStr (lit "error"));
            (lit "message", PStr (str_of_exn e))]).

(** Its decorator names no [autoretry_for]. *)
Definition delete_document_options : task_options :=
  {| autoretry_for := fun _ => false; max_retries := 3; countdown := 180 |}.

(** Lines 58-66 of [qa_tasks.py]: the rate-limit check, which hands
    back the [user] object as the rest of the job will see it. *)
Definition check_rate_limit (user : User) : job store User :=
  if rate_limit_enabled settings then
    now <- read_clock ;;
    let today := date_of now in
    if match u_last_query_date user with
       | Some last => date_of last =? today
       | None => false
       end
    then
      if u_query_count_today user >=? max_queries_per_hour settings then
        raise (ValueError (lit "Rate limit exceeded. Try again later."))
      else ret user
    else
      now' <- read_clock ;;
      ret {| u_id := u_id user;
             u_document_count := u_document_count user;
             u_query_count_today := 0;
             u_last_query_date := Some now' |}
  else ret user.

(** Lines 68-136: the job once the user has passed the check. *)
Definition answer_for (user : User) (start_time : Z) (user_id : Z)
  (question : str) (context : option (list str)) : job store result :=
  found <-
    (if negb (truthy_opt context) then
       update_state (lit "PROCESSING") (lit "Retrieving relevant chunks") 25 ;;;
       s <- get_store ;;
       similar_chunks <- lift (search_similar_chunks s question user_id 5) ;;
       ret (similar_chunks, len similar_chunks)
     else
       let given := match context with Some c => c | None => [] end in
       ret (given, len given)) ;;
  let context' := fst found in
  let chunks_used := snd found in
  if negb (truthy context') then
    ret [(lit "status", PStr (lit "no_context"));
         (lit "message",
          PStr (lit
            "No relevant documents found. Please upload documents first."));
         (lit "answer",
          PStr (lit "I don't have any relevant information to answer your question. Please upload some documents first."))]
  else
    update_state (lit "PROCESSING") (lit "Generating answer") 50 ;;;
    answer <- lift (generate_answer question context') ;;
    end_time <- read_clock ;;
    let response_time := end_time - start_time in
    update_state (lit "PROCESSING") (lit "Saving query log") 90 ;;;
    d <- get_db ;;
    let query_log :=
      {| q_id := fresh_id (map q_id (query_logs d));
         q_user_id := user_id;
         q_question := question;
         q_answer := answer;
         q_response_time := response_time;
         q_chunks_used := chunks_used |} in
    now <- read_clock ;;
    commit (fun d0 =>
              store_user
                {| u_id := u_id user;
                   u_document_count := u_document_count user;
                   u_query_count_today := u_query_count_today user + 1;
                   u_last_query_date := Some now |}
                (insert_query_log query_log d0)) ;;;
    update_state (lit "SUCCESS") (lit "Answer generated successfully") 100 ;;;
    ret [(lit "status", PStr (lit "success"));
         (lit "question", PStr question);
         (lit "answer", PStr answer);
         (lit "response_time_ms", PInt response_time);
         (lit "chunks_used", PInt chunks_used);
         (lit "query_id", PInt (q_id query_log))].

(** [answer_question_async(user_id, question, context)] *)
Definition answer_question_async (user_id : Z) (question : str)
  (context : option (list str)) : job store result :=
  job_try
    (start_time <- read_clock ;;
     update_state (lit "PROCESSING")
       (lit "Searching for relevant information") 0 ;;;
     d <- get_db ;;
     match find_user d user_id with
     | None => raise (ValueError (lit "User not found"))
     | Some user =>
         user' <- check_rate_limit user ;;
         answer_for user' start_time user_id question context
     end)
    report_failure.

(** Its decorator: [autoretry_for=(Exception,)],
    [retry_kwargs={"max_retries": 2, "countdown": 30}]. *)
Definition answer_question_options : task_options :=
  {| autoretry_for := any_exception; max_retries := 2; countdown := 30 |}.

End Tasks.

End Tasks.

(* ------------------------------------------------------------------ *)
(** *** Document jobs: duplicates and absent documents *)

Module DocumentTaskProps.
Import Py VectorStore Jobs JobsProps Tasks KeyedProps.

(** The chunker is called with its defaults, under which it returns:
    [split_with_defaults] is that result. *)
Lemma split_with_defaults_returns (text_content : str) :
  DocumentProcessor.split_text_into_chunks
    (S (List.length text_content)) text_content 1000 200
  = Some (split_with_defaults text_content).
Proof.
  unfold split_with_defaults.
  destruct (ChunkerProps.split_text_into_chunks_finishes text_content 1000 200)
    as [chunks H]; [lia | lia |].
  now rewrite H.
Qed.

Lemma find_some_first {A : Type} (p : A -> bool) (l : list A) (x : A) :
  In x l -> p x = true -> exists y, find p l = Some y.
Proof.
  induction l as [|a l IH]; cbn; [tauto |].
  intros [<- | H] Hp.
  - rewrite Hp. eauto.
  - destruct (p a); eauto.
Qed.

Lemma find_none_forall {A : Type} (p : A -> bool) (l : list A) :
  (forall x, In x l -> p x = false) -> find p l = None.
Proof.
  induction l as [|a l IH]; cbn; intros H; [reflexivity |].
  rewrite (H a) by now left. apply IH. intros x Hx. apply H. now right.
Qed.

Section Tasks.

Variable store : Type.
Variable settings : Settings.
Variable b64decode : str -> res Codecs.bytes.
Variable sha256_hexdigest : Codecs.bytes -> str.
Variable extract_text_from_pdf : Codecs.bytes -> res str.
Variable suffix_lower : str -> str.
Variable add_chunks : store -> list str -> Z -> Z -> res store.
Variable delete_document_chunks : store -> Z -> Z -> res store.
Variable str_of_exn : exn -> str.

Local Abbreviation run_job :=
  (process_document_async store settings b64decode sha256_hexdigest
     extract_text_from_pdf suffix_lower add_chunks str_of_exn).

(** The result dict of the duplicate short-circuit. *)
Definition duplicate_result (existing_id : Z) : result :=
  [(lit "status", PStr (lit "duplicate"));
   (lit "message", PStr (lit "Document with identical content already exists"));
   (lit "document_id", PInt existing_id)].

(** The result dict for an absent document. *)
Definition not_found_result : result :=
  [(lit "status", PStr (lit "error"));
   (lit "message", PStr (lit "Document not found"))].

(** The error of line 66, for a user at the document limit. *)
Definition document_limit_error : exn :=
  ValueError (lit "Maximum document limit ("
              ++ str_of_int (max_documents_per_user settings)
              ++ lit ") reached").

(** The meta every execution stores first. *)
Definition starting_update : state_update :=
  {| su_state := lit "PROCESSING";
     su_status := lit "Starting document processing";
     su_progress := 0 |}.

Lemma process_document_async_duplicate
  (w : world store) (user_id : Z) (filename file_content_b64 : str)
  (file_content : Codecs.bytes) (user : User) (text_content content_hash : str)
  (doc : Document) :
  writable (updates w) = true ->
  b64decode file_content_b64 = Ret file_content ->
  find_user (db w) user_id = Some user ->
  u_document_count user < max_documents_per_user settings ->
  TextExtraction.process_document sha256_hexdigest extract_text_from_pdf
    suffix_lower filename file_content = Ret (text_content, content_hash) ->
  In doc (documents (db w)) ->
  d_content_hash doc = content_hash ->
  d_user_id doc = user_id ->
  let run := run_job user_id filename file_content_b64 w in
  exists existing,
    In existing (documents (db w))
    /\ d_content_hash existing = content_hash
    /\ d_user_id existing = user_id
    /\ fst run = Ret (duplicate_result (d_id existing))
    /\ db (snd run) = db w
    /\ vs (snd run) = vs w.
Proof.
  intros Hw Hb Hu Hcap Hp Hin Hh Hd.
  destruct (find_some_first
              (fun x => str_eqb (d_content_hash x) content_hash
                        && (d_user_id x =? user_id))
              (documents (db w)) doc Hin) as [existing Hf].
  { rewrite Hh, Hd, str_eqb_refl, Z.eqb_refl. reflexivity. }
  exists existing.
  pose proof (find_some _ _ Hf) as [Ein Ep].
  apply andb_prop in Ep as [E1 E2].
  apply str_eqb_eq in E1. apply Z.eqb_eq in E2.
  cbv zeta.
  unfold process_document_async. job_steps. stores_meta.
  rewrite Hb, Hu.
  destruct (Z.geb_spec (u_document_count user)
              (max_documents_per_user settings)) as [G | _]; [lia |].
  stores_meta. rewrite Hp.
  cbn [fst snd]. unfold find_duplicate. rewrite Hf.
  world_fields. auto 10.
Qed.

(** A user at the document limit is turned away before the content is
    hashed: the execution raises, and its handler stores a FAILURE
    meta. *)
Lemma process_document_async_at_limit
  (w : world store) (user_id : Z) (filename file_content_b64 : str)
  (file_content : Codecs.bytes) (user : User) :
  writable (updates w) = true ->
  b64decode file_content_b64 = Ret file_content ->
  find_user (db w) user_id = Some user ->
  max_documents_per_user settings <= u_document_count user ->
  run_job user_id filename file_content_b64 w
  = (Raise document_limit_error,
     {| db := db w; vs := vs w;
        updates := (updates w ++ [starting_update])
                   ++ [failure_update str_of_exn document_limit_error];
        clock := clock w; ticks := ticks w |}).
Proof.
  intros Hw Hb Hu Hcap.
  unfold process_document_async, report_failure. job_steps.
  stores_meta. rewrite Hb, Hu.
  destruct (Z.geb_spec (u_document_count user)
              (max_documents_per_user settings)) as [_ | G]; [| lia].
  stores_meta. reflexivity.
Qed.

(** An execution that finds a meta in an exception state stored for its
    task raises at its first [update_state], and again in its handler:
    it neither reads nor changes anything else. *)
Lemma process_document_async_after_failure
  (w : world store) (user_id : Z) (filename file_content_b64 : str)
  (current : state_update) :
  current_meta (updates w) = Some current ->
  exception_state (su_state current) = true ->
  run_job user_id filename file_content_b64 w = (Raise meta_read_error, w).
Proof.
  intros Hc He.
  unfold process_document_async, report_failure. job_steps.
  now rewrite !(update_state_raises store w current) by assumption.
Qed.

Lemma report_failure_db {A : Type} (w : world store) (e : exn) :
  db (snd (report_failure store str_of_exn (A := A) e w)) = db w.
Proof.
  unfold report_failure. job_steps. update_frame.
  destruct r as [[] | e']; reflexivity.
Qed.

(** Whatever else happens to the execution -- its state cannot be
    stored, the upload does not decode, the user is unknown or at the
    document limit, the file cannot be processed -- an execution whose
    content hash, if it gets to compute one, is already on record for the
    user writes nothing to the database. *)
Lemma process_document_async_duplicate_writes_nothing
  (w : world store) (user_id : Z) (filename file_content_b64 : str) :
  (forall file_content text_content content_hash,
      b64decode file_content_b64 = Ret file_content ->
      TextExtraction.process_document sha256_hexdigest extract_text_from_pdf
        suffix_lower filename file_content
      = Ret (text_content, content_hash) ->
      exists doc,
        In doc (documents (db w))
        /\ d_content_hash doc = content_hash /\ d_user_id doc = user_id) ->
  db (snd (run_job user_id filename file_content_b64 w)) = db w.
Proof.
  intros Dup.
  unfold process_document_async. unfold job_try.
  match goal with
  | |- db (snd (match ?body w with _ => _ end)) = _ =>
      assert (H : (exists a, body w = (Ret a, snd (body w)))
                  \/ (exists e, body w = (Raise e, snd (body w))))
        by (destruct (body w) as [[a | e] w']; eauto);
      assert (Hdb : db (snd (body w)) = db w);
      [clear H | destruct H as [[a ->] | [e ->]];
                 [exact Hdb | now rewrite report_failure_db]]
  end.
  job_steps. update_frame.
  destruct r as [[] | e]; [| reflexivity].
  destruct (b64decode file_content_b64) as [file_content |] eqn:Hb;
    [| reflexivity].
  world_fields.
  destruct (find_user (db w) user_id) as [user |]; [| reflexivity].
  destruct (u_document_count user >=? max_documents_per_user settings);
    [reflexivity |].
  update_frame.
  destruct r as [[] | e]; [| reflexivity].
  destruct (TextExtraction.process_document sha256_hexdigest
              extract_text_from_pdf suffix_lower filename file_content)
    as [[text_content content_hash] |] eqn:Hp; [| reflexivity].
  destruct (Dup file_content text_content content_hash eq_refl Hp)
    as (doc & Hin & Hh & Hd).
  destruct (find_some_first
              (fun x => str_eqb (d_content_hash x) content_hash
                        && (d_user_id x =? user_id))
              (documents (db w)) doc Hin) as [existing Hf].
  { rewrite Hh, Hd, str_eqb_refl, Z.eqb_refl. reflexivity. }
  cbn [fst snd]. unfold find_duplicate. rewrite Hf. reflexivity.
Qed.

Lemma delete_document_async_absent
  (w : world store) (document_id user_id : Z) :
  (forall doc, In doc (documents (db w)) ->
               ~ (d_id doc = document_id /\ d_user_id doc = user_id)) ->
  delete_document_async store delete_document_chunks str_of_exn
    document_id user_id w
  = (Ret not_found_result, w).
Proof.
  intros H.
  unfold delete_document_async. job_steps.
  rewrite find_none_forall; [reflexivity |].
  intros doc Hdoc. specialize (H doc Hdoc).
  destruct (Z.eqb_spec (d_id doc) document_id),
           (Z.eqb_spec (d_user_id doc) user_id); cbn; tauto.
Qed.

End Tasks.


(** C8.  When no document has the given id and user, the deletion job
    returns -- it does not raise -- the result
    [{"status": "error", "message": "Document not found"}]; Celery
    records the run as succeeded, with nothing to retry; and the world
    (database, vector store, published updates) is exactly as before. *)
Theorem delete_document_async_not_found :
  forall (store : Type)
         (delete_document_chunks : store -> Z -> Z -> res store)
         (str_of_exn : exn -> str)
         (w : world store) (document_id user_id retries : Z),
    (forall doc, In doc (documents (db w)) ->
                 ~ (d_id doc = document_id /\ d_user_id doc = user_id)) ->
    let run :=
      delete_document_async store delete_document_chunks str_of_exn
        document_id user_id w in
    fst run = Ret not_found_result
    /\ run_task delete_document_options retries (fst run)
       = Succeeded not_found_result
    /\ snd run = w.
Proof.
  intros store delete_document_chunks str_of_exn w document_id user_id
    retries H.
  cbv zeta.
  rewrite (delete_document_async_absent store delete_document_chunks
             str_of_exn w document_id user_id H).
  repeat split.
Qed.

(** A small world: user 1 owns document 7, whose content hash is
    "h1"; the store is a unit, every upload decodes to the bytes "hi",
    every digest is "h1" and every file name ends in ".txt". *)
Definition example_settings : Settings :=
  {| max_documents_per_user := 100;
     max_chunks_per_document := 1000;
     max_queries_per_hour := 100;
     rate_limit_enabled := true |}.

Definition example_database : database :=
  {| users := [ {| u_id := 1; u_document_count := 1;
                   u_query_count_today := 100;
                   u_last_query_date := Some 86400000 |} ];
     documents := [ {| d_id := 7; d_filename := lit "demo.txt";
                       d_content_hash := lit "h1"; d_chunk_count := 1;
                       d_file_size := 2; d_user_id := 1 |} ];
     query_logs := [] |}.

Definition example_world : world unit :=
  {| db := example_database; vs := tt; updates := [];
     clock := fun _ => 86400000 + 5000; ticks := 0 |}.

(** The same deployment with a limit of one document per user, which
    user 1 has reached. *)
Definition one_document_settings : Settings :=
  {| max_documents_per_user := 1;
     max_chunks_per_document := 1000;
     max_queries_per_hour := 100;
     rate_limit_enabled := true |}.

(** The upload of the examples: the bytes "hi" under the name
    "demo.txt", by the given user. *)
Definition example_upload (settings : Settings) (user_id : Z)
  : job unit result :=
  process_document_async unit settings
    (fun _ => Ret [x68; x69]) (fun _ => lit "h1")
    (fun _ => Raise (ValueError (lit "not a PDF"))) (fun _ => lit ".txt")
    (fun s _ _ _ => Ret s) (fun _ => lit "error")
    user_id (lit "demo.txt") (lit "aGk=").



(** C8 in that world: user 1 asks to delete document 8, which does not
    exist. *)
Lemma delete_document_async_not_found_witness :
  let run :=
    delete_document_async unit (fun s _ _ => Ret s) (fun _ => lit "error")
      8 1 example_world in
  fst run = Ret not_found_result
  /\ run_task delete_document_options 0 (fst run) = Succeeded not_found_result
  /\ snd run = example_world.
Proof.
  refine (delete_document_async_not_found unit (fun s _ _ => Ret s)
            (fun _ => lit "error") example_world 8 1 0 _).
  intros doc [<- | []] [H _]. discriminate H.
Defined.

End DocumentTaskProps.

(* ------------------------------------------------------------------ *)
(** *** The question-answering job: the daily limit *)

Module QaTaskProps.
Import Py VectorStore Jobs JobsProps Tasks KeyedProps.

Definition rate_limit_error : exn :=
  ValueError (lit "Rate limit exceeded. Try again later.").

Definition user_not_found_error : exn :=
  ValueError (lit "User not found").

(** The update every run publishes first. *)
Definition searching_update : state_update :=
  {| su_state := lit "PROCESSING";
     su_status := lit "Searching for relevant information";
     su_progress := 0 |}.

(** The [user] object after the reset of lines 65-66. *)
Definition reset_user (user : User) (now : Z) : User :=
  {| u_id := u_id user;
     u_document_count := u_document_count user;
     u_query_count_today := 0;
     u_last_query_date := Some now |}.

(** The stored last-query date is missing or of another day than
    [today]. *)
Definition stale (user : User) (today : Z) : Prop :=
  match u_last_query_date user with
  | Some last => date_of last <> today
  | None => True
  end.

(** [user.last_query_date and user.last_query_date.date() == today] *)
Definition same_day (user : User) (today : Z) : bool :=
  match u_last_query_date user with
  | Some last => date_of last =? today
  | None => false
  end.

(** The check of lines 58-66 lets the user through. *)
Definition within_limit (settings : Settings) (user : User) (today : Z)
  : Prop :=
  rate_limit_enabled settings = false
  \/ same_day user today = false
  \/ u_query_count_today user < max_queries_per_hour settings.

(** The counter the rest of the job starts from: zero after the reset
    of a new day, the stored one otherwise. *)
Definition counter_after_check (settings : Settings) (user : User)
  (today : Z) : Z :=
  if rate_limit_enabled settings && negb (same_day user today) then 0
  else u_query_count_today user.

(** The context the answer is generated from: the one passed in, or
    the five chunks retrieved for the question. *)
Definition resolved {store : Type}
  (search_similar_chunks : store -> str -> Z -> Z -> res (list str))
  (s : store) (question : str) (user_id : Z) (context : option (list str))
  : res (list str) :=
  if truthy_opt context
  then Ret (match context with Some c => c | None => [] end)
  else search_similar_chunks s question user_id 5.

Lemma stale_same_day (user : User) (today : Z) :
  stale user today -> same_day user today = false.
Proof.
  unfold stale, same_day.
  destruct (u_last_query_date user) as [last |]; [| reflexivity].
  intros H. now apply Z.eqb_neq.
Qed.

Section Tasks.

Variable store : Type.
Variable settings : Settings.
Variable search_similar_chunks : store -> str -> Z -> Z -> res (list str).
Variable generate_answer : str -> list str -> res str.
Variable str_of_exn : exn -> str.

Let run_job :=
  answer_question_async store settings search_similar_chunks generate_answer
    str_of_exn.

(** The world when the rate-limit check starts: the start time has been
    read and the first update published. *)
Definition at_check (w : world store) : world store :=
  {| db := db w; vs := vs w;
     updates := updates w ++ [searching_update];
     clock := clock w; ticks := S (ticks w) |}.

(** The day the check compares with: the date of its clock reading. *)
Definition check_day (w : world store) : Z :=
  date_of (clock w (S (ticks w))).

Lemma check_rate_limit_limited (w : world store) (user : User) (last : Z) :
  rate_limit_enabled settings = true ->
  u_last_query_date user = Some last ->
  date_of last = check_day w ->
  max_queries_per_hour settings <= u_query_count_today user ->
  check_rate_limit store settings user (at_check w)
  = (Raise rate_limit_error,
     {| db := db w; vs := vs w;
        updates := updates w ++ [searching_update];
        clock := clock w; ticks := S (S (ticks w)) |}).
Proof.
  intros He Hl Hd Hc.
  unfold check_rate_limit, at_check. job_steps.
  rewrite He. world_fields. rewrite Hl.
  unfold check_day in Hd. rewrite Hd, Z.eqb_refl.
  destruct (Z.geb_spec (u_query_count_today user)
              (max_queries_per_hour settings)); [reflexivity | lia].
Qed.

(** A user within the limit passes the check; the check reads the
    clock and changes nothing else. *)
Lemma check_rate_limit_passes (w : world store) (user : User) :
  within_limit settings user (check_day w) ->
  exists user' n,
    check_rate_limit store settings user (at_check w)
    = (Ret user',
       {| db := db w; vs := vs w;
          updates := updates w ++ [searching_update];
          clock := clock w; ticks := n |})
    /\ u_id user' = u_id user
    /\ u_document_count user' = u_document_count user
    /\ u_query_count_today user'
       = counter_after_check settings user (check_day w).
Proof.
  unfold within_limit, counter_after_check, same_day, check_day.
  unfold check_rate_limit, at_check. job_steps.
  destruct (rate_limit_enabled settings); world_fields.
  - cbn [andb].
    destruct (u_last_query_date user) as [last |]; world_fields.
    + destruct (date_of last =? date_of (clock w (S (ticks w))));
        world_fields.
      * intros [H | [H | H]]; try discriminate.
        destruct (Z.geb_spec (u_query_count_today user)
                    (max_queries_per_hour settings)); [lia |].
        do 2 eexists. repeat split.
      * intros _. do 2 eexists. repeat split.
    + intros _. do 2 eexists. repeat split.
  - intros _. do 2 eexists. repeat split.
Qed.

Lemma run_job_start (w : world store) (user_id : Z) (question : str)
  (context : option (list str)) (user : User) :
  writable (updates w) = true ->
  find_user (db w) user_id = Some user ->
  run_job user_id question context w
  = job_try
      (job_bind (check_rate_limit store settings user)
         (fun user' =>
            answer_for store search_similar_chunks generate_answer
              user' (clock w (ticks w)) user_id question context))
      (report_failure store str_of_exn)
      (at_check w).
Proof.
  intros Hw Hu. unfold run_job, answer_question_async, job_try.
  unfold job_bind at 1 2 3. unfold read_clock, get_db.
  world_fields. stores_meta. rewrite Hu. reflexivity.
Qed.

Lemma run_job_limited (w : world store) (user_id : Z) (question : str)
  (context : option (list str)) (user : User) (last : Z) :
  writable (updates w) = true ->
  find_user (db w) user_id = Some user ->
  rate_limit_enabled settings = true ->
  u_last_query_date user = Some last ->
  date_of last = check_day w ->
  max_queries_per_hour settings <= u_query_count_today user ->
  run_job user_id question context w
  = (Raise rate_limit_error,
     {| db := db w; vs := vs w;
        updates := (updates w ++ [searching_update])
                   ++ [failure_update str_of_exn rate_limit_error];
        clock := clock w; ticks := S (S (ticks w)) |}).
Proof.
  intros Hw Hu He Hl Hd Hc.
  rewrite (run_job_start w user_id question context user Hw Hu).
  unfold job_try, job_bind at 1.
  rewrite (check_rate_limit_limited w user last He Hl Hd Hc).
  unfold report_failure. job_steps. stores_meta. reflexivity.
Qed.

(** An execution that finds a meta in an exception state stored for its
    task reads the clock and raises at its first [update_state], and
    again in its handler: it gets neither to the user nor to the
    rate-limit check, and changes nothing else. *)
Lemma run_job_after_failure (w : world store) (user_id : Z) (question : str)
  (context : option (list str)) (current : state_update) :
  current_meta (updates w) = Some current ->
  exception_state (su_state current) = true ->
  run_job user_id question context w
  = (Raise meta_read_error,
     {| db := db w; vs := vs w; updates := updates w;
        clock := clock w; ticks := S (ticks w) |}).
Proof.
  intros Hc He.
  unfold run_job, answer_question_async, report_failure. job_steps.
  world_fields.
  now rewrite !(update_state_raises store _ current) by assumption.
Qed.

(** The run of a user who passes the check. *)
Lemma run_job_within_limit (w : world store) (user_id : Z) (question : str)
  (context : option (list str)) (user : User) :
  writable (updates w) = true ->
  find_user (db w) user_id = Some user ->
  within_limit settings user (check_day w) ->
  exists user' n,
    run_job user_id question context w
    = job_try
        (answer_for store search_similar_chunks generate_answer
           user' (clock w (ticks w)) user_id question context)
        (report_failure store str_of_exn)
        {| db := db w; vs := vs w;
           updates := updates w ++ [searching_update];
           clock := clock w; ticks := n |}
    /\ u_id user' = user_id
    /\ u_query_count_today user'
       = counter_after_check settings user (check_day w).
Proof.
  intros Hw Hu Hl.
  destruct (check_rate_limit_passes w user Hl) as (user' & n & C & I & _ & Q).
  exists user', n. split; [| split; [| exact Q]].
  - rewrite (run_job_start w user_id question context user Hw Hu).
    unfold job_try, job_bind at 1. now rewrite C.
  - rewrite I. now apply (find_user_id (db w)).
Qed.

(** The result dict of a question without context. *)
Definition no_context_result : result :=
  [(lit "status", PStr (lit "no_context"));
   (lit "message",
    PStr (lit "No relevant documents found. Please upload documents first."));
   (lit "answer",
    PStr (lit "I don't have any relevant information to answer your question. Please upload some documents first."))].

(** A user within the limit whose question comes with no context and
    retrieves none gets the no-context result; nothing is written to
    the database, not even a counter reset by the check. *)
Lemma run_job_no_context (w : world store) (user_id : Z) (question : str)
  (context : option (list str)) (user : User) :
  writable (updates w) = true ->
  find_user (db w) user_id = Some user ->
  within_limit settings user (check_day w) ->
  resolved search_similar_chunks (vs w) question user_id context = Ret [] ->
  let run := run_job user_id question context w in
  fst run = Ret no_context_result
  /\ db (snd run) = db w
  /\ vs (snd run) = vs w.
Proof.
  intros Hw Hu Hl Hr. cbv zeta.
  destruct (run_job_within_limit w user_id question context user Hw Hu Hl)
    as (user' & n & -> & _).
  unfold resolved in Hr.
  unfold job_try, answer_for. job_steps.
  destruct (truthy_opt context); cbn [negb]; world_fields.
  - injection Hr as Hr.
    rewrite Hr. cbn [truthy negb fst snd]. repeat split.
  - stores_meta. rewrite Hr. cbn [truthy negb fst snd]. repeat split.
Qed.

(** A user within the limit whose question has context and gets an
    answer: the result is a success carrying the answer, one log row is
    added under a new id, and the stored counter is the counter after
    the check plus one. *)
Lemma run_job_answered (w : world store) (user_id : Z) (question : str)
  (context : option (list str)) (user : User)
  (c : str) (cs : list str) (answer : str) :
  writable (updates w) = true ->
  find_user (db w) user_id = Some user ->
  within_limit settings user (check_day w) ->
  resolved search_similar_chunks (vs w) question user_id context
  = Ret (c :: cs) ->
  generate_answer question (c :: cs) = Ret answer ->
  let run := run_job user_id question context w in
  let after := db (snd run) in
  exists r log user',
    fst run = Ret r
    /\ assoc_get (lit "status") r = Some (PStr (lit "success"))
    /\ assoc_get (lit "answer") r = Some (PStr answer)
    /\ assoc_get (lit "chunks_used") r = Some (PInt (len (c :: cs)))
    /\ assoc_get (lit "query_id") r = Some (PInt (q_id log))
    /\ query_logs after = query_logs (db w) ++ [log]
    /\ q_user_id log = user_id /\ q_question log = question
    /\ q_answer log = answer /\ q_chunks_used log = len (c :: cs)
    /\ (forall l, In l (query_logs (db w)) -> q_id l <> q_id log)
    /\ find_user after user_id = Some user'
    /\ u_query_count_today user'
       = counter_after_check settings user (check_day w) + 1
    /\ documents after = documents (db w)
    /\ vs (snd run) = vs w.
Proof.
  intros Hw Hu Hl Hr Hg. cbv zeta.
  destruct (run_job_within_limit w user_id question context user Hw Hu Hl)
    as (user' & n & -> & Hid & Hq).
  unfold resolved in Hr.
  assert (Fresh : forall l, In l (query_logs (db w)) ->
                    q_id l <> fresh_id (map q_id (query_logs (db w)))).
  { intros l Hin.
    pose proof (fresh_id_above (map q_id (query_logs (db w))) (q_id l)
                  (in_map q_id _ _ Hin)). lia. }
  assert (Found : forall u0 : User,
    u_id u0 = user_id ->
    forall q,
    find_user (store_user u0 (insert_query_log q (db w))) user_id
    = Some u0).
  { intros u0 H0 q.
    now apply (find_user_store_user (insert_query_log q (db w)) user). }
  unfold job_try, answer_for. job_steps.
  destruct (truthy_opt context); cbn [negb]; world_fields.
  - injection Hr as Hr.
    rewrite Hr. cbn [truthy negb fst snd]. stores_meta.
    rewrite Hg. world_fields. stores_meta. stores_meta.
    do 3 eexists. split; [reflexivity |].
    repeat (split; [reflexivity |]).
    split; [exact Fresh |].
    split; [apply Found; exact Hid |].
    split; [cbn [u_query_count_today]; now rewrite Hq |].
    split; reflexivity.
  - stores_meta. rewrite Hr. cbn [truthy negb fst snd]. stores_meta.
    rewrite Hg. world_fields. stores_meta. stores_meta.
    do 3 eexists. split; [reflexivity |].
    repeat (split; [reflexivity |]).
    split; [exact Fresh |].
    split; [apply Found; exact Hid |].
    split; [cbn [u_query_count_today]; now rewrite Hq |].
    split; reflexivity.
Qed.

End Tasks.



(** The example world a day later: the stored last-query date of user 1
    is of the day before. *)
Definition next_day_world : world unit :=
  {| db := DocumentTaskProps.example_database; vs := tt; updates := [];
     clock := fun _ => 2 * 86400000 + 5000; ticks := 0 |}.


End QaTaskProps.

(* ================================================================== *)
(** ** app/utils/task_monitor.py: cancelling a task *)
(* ================================================================== *)

Module TaskMonitor.
Import Py Services.

(** [value != user_id] for a parsed JSON value and an [int] ([True] and
    [False] compare as 1 and 0). *)
Definition json_ne_int (value : json) (n : Z) : bool :=
  match value with
  | JInt z => negb (z =? n)
  | JBool b => negb ((if b then 1 else 0) =? n)
  | _ => true
  end.

(** What a call of [cancel_task] did: the value it returned and the
    task ids it asked Celery to revoke. *)
Record cancel_outcome : Type := {
  returned : bool;
  revoke_calls : list str
}.

Section Monitor.

(** [redis_client.get], [json.loads] and
    [celery_app.control.revoke(task_id, terminate=True)]. *)
Variable redis_get : str -> res (option str).
Variable json_loads : str -> res json.
Variable control_revoke : str -> bool -> res unit.

(** [if user_id:] on an [Optional[int]]. *)
Definition user_id_given (user_id : option Z) : bool :=
  match user_id with
  | Some n => negb (n =? 0)
  | None => false
  end.

(** Lines 138-144: does the ownership check end the call with
    [return False]? *)
Definition ownership_mismatch (task_id : str) (user_id : option Z)
  : res bool :=
  if user_id_given user_id then
    let task_meta_key := lit "task_meta:" ++ task_id in
    meta_data <- redis_get task_meta_key ;;
    match meta_data with
    | Some s =>
        if truthy s then
          meta <- json_loads s ;;
          owner <- json_get meta (lit "user_id") JNull ;;
          Ret (json_ne_int owner
                 (match user_id with Some n => n | None => 0 end))
        else Ret false
    | None => Ret false
    end
  else Ret false.

(** [TaskMonitor.cancel_task(task_id, user_id)]: any exception inside
    the [try] makes the call return [False]. *)
Definition cancel_task (task_id : str) (user_id : option Z) : cancel_outcome :=
  match ownership_mismatch task_id user_id with
  | Raise _ => {| returned := false; revoke_calls := [] |}
  | Ret true => {| returned := false; revoke_calls := [] |}
  | Ret false =>
      match control_revoke task_id true with
      | Ret _ => {| returned := true; revoke_calls := [task_id] |}
      | Raise _ => {| returned := false; revoke_calls := [task_id] |}
      end
  end.

End Monitor.

End TaskMonitor.

Module TaskMonitorProps.
Import Py Services TaskMonitor.

(** Where the stored metadata names another owner, the task is left
    alone. *)
Lemma cancel_task_other_owner
  (redis_get : str -> res (option str)) (json_loads : str -> res json)
  (control_revoke : str -> bool -> res unit)
  (task_id : str) (caller : Z) (stored : str) (meta : json) (owner : json) :
  caller <> 0 ->
  redis_get (lit "task_meta:" ++ task_id) = Ret (Some stored) ->
  stored <> [] ->
  json_loads stored = Ret meta ->
  json_get meta (lit "user_id") JNull = Ret owner ->
  json_ne_int owner caller = true ->
  cancel_task redis_get json_loads control_revoke task_id (Some caller)
  = {| returned := false; revoke_calls := [] |}.
Proof.
  intros Hc Hr Hs Hj Hg Hn.
  unfold cancel_task, ownership_mismatch, user_id_given.
  destruct (Z.eqb_spec caller 0); [contradiction |].
  cbn [negb]. rewrite Hr. cbn [bind].
  destruct stored; [contradiction |]. cbn [truthy].
  rewrite Hj. cbn [bind]. rewrite Hg. cbn [bind]. now rewrite Hn.
Qed.

(** C9 (code defect).  The claim says that a caller who supplies a user
    id gets the task revoked only when the caller owns it, and [False]
    when ownership cannot be established.  The source checks the owner
    only when metadata is found: with no [task_meta:<id>] entry in
    Redis (never tracked, or expired after 24 hours) the task is revoked
    for any caller and the call returns [True]; and a caller id of 0
    skips the check even though the metadata names user 5. *)
Theorem cancel_task_revokes_without_ownership :
  forall (json_loads : str -> res json) (task_id : str) (caller : Z),
    cancel_task (fun _ => Ret None) json_loads (fun _ _ => Ret tt)
      task_id (Some caller)
    = {| returned := true; revoke_calls := [task_id] |}
    /\ cancel_task (fun _ => Ret (Some (lit "metadata of user 5")))
         (fun _ => Ret (JDict [(lit "user_id", JInt 5)]))
         (fun _ _ => Ret tt) task_id (Some 0)
       = {| returned := true; revoke_calls := [task_id] |}.
Proof.
  intros json_loads task_id caller. split.
  - unfold cancel_task, ownership_mismatch.
    destruct (user_id_given (Some caller)); reflexivity.
  - reflexivity.
Qed.

End TaskMonitorProps.

(* ================================================================== *)
(** ** Further properties of the same sources *)
(* ================================================================== *)

(* ------------------------------------------------------------------ *)
(** *** The chunker: when it returns, and what its chunks are *)

Module ChunkerBounds.
Import Py PyFacts DocumentProcessor ChunkerProps.

(** A run that finished within [fuel] passes finishes the same way
    under any larger bound. *)
Lemma chunk_loop_more_fuel (text : str) (cs ov : Z) :
  forall fuel start chunks out,
    chunk_loop fuel text cs ov start chunks = Some out ->
    forall fuel', (fuel <= fuel')%nat ->
      chunk_loop fuel' text cs ov start chunks = Some out.
Proof.
  induction fuel as [|fuel IH]; intros start chunks out H fuel' Hle.
  - cbn [chunk_loop] in H.
    destruct fuel'; cbn [chunk_loop]; destruct (start <? len text);
      try discriminate; exact H.
  - destruct fuel' as [|fuel']; [lia |]. cbn [chunk_loop] in *.
    destruct (start <? len text); [| exact H].
    destruct (loop_body text cs ov start chunks) as [start' chunks'].
    destruct (start' >=? len text); [exact H |].
    apply IH; [exact H | lia].
Qed.

(** A text of 260 characters, in sentences. *)
Definition sample_text : str :=
  lit "Python is a programming language. It is used for web services and for data analysis. A vector store keeps one embedding per chunk of text. Questions are answered from the chunks that are closest to the question. Every chunk belongs to one document of one user.".

(** X1.  When the overlap is not negative and leaves the window at
    least the 100 characters in which a sentence end is looked for
    ([overlap + 100 <= chunk_size]), [split_text_into_chunks] returns:
    every text has a list of chunks that the loop reaches within as
    many passes as the text has characters. *)
Theorem split_text_into_chunks_returns_with_small_overlap :
  forall (text : str) (chunk_size overlap : Z),
    0 <= overlap -> overlap + 100 <= chunk_size ->
    exists chunks,
      forall fuel, (List.length text < fuel)%nat ->
        split_text_into_chunks fuel text chunk_size overlap = Some chunks.
Proof.
  intros text cs ov Hov Hgap.
  destruct (split_text_into_chunks_finishes text cs ov Hov Hgap) as [out H].
  exists out. intros fuel Hf. unfold split_text_into_chunks in *.
  destruct (len text <=? cs); [exact H |].
  apply (chunk_loop_more_fuel text cs ov _ _ _ _ H). lia.
Qed.

Lemma split_text_into_chunks_returns_with_small_overlap_witness :
  exists chunks,
    forall fuel, (List.length sample_text < fuel)%nat ->
      split_text_into_chunks fuel sample_text 120 20 = Some chunks.
Proof.
  apply (split_text_into_chunks_returns_with_small_overlap
           sample_text 120 20); lia.
Defined.

Lemma lstrip_length (s : str) : (List.length (lstrip s) <= List.length s)%nat.
Proof.
  induction s as [|c t IH]; cbn; [lia |].
  destruct (isspace c); cbn; lia.
Qed.

Lemma strip_length (s : str) : len (strip s) <= len s.
Proof.
  unfold strip, rstrip, len. rewrite length_rev.
  pose proof (lstrip_length (List.rev (lstrip s))) as H1.
  rewrite length_rev in H1.
  pose proof (lstrip_length s). lia.
Qed.

Lemma slice_length {A : Type} (s : list A) (lo hi : Z) :
  len (slice s lo hi) <= Z.max 0 (adjust hi (len s) - adjust lo (len s)).
Proof.
  unfold slice, len. rewrite length_firstn. lia.
Qed.

(** Where the window of one pass ends: past [start] and at most
    [chunk_size] further on. *)
Definition window_end (text : str) (cs start : Z) : Z :=
  fst (loop_body text cs 0 start []).

Lemma window_end_range (text : str) (cs start : Z) :
  0 <= start -> 0 <= cs ->
  start <= window_end text cs start <= start + cs.
Proof.
  intros Hs Hcs. unfold window_end, loop_body. cbv zeta. cbn [fst].
  rewrite Z.sub_0_r.
  destruct (start + cs <? len text) eqn:E; [| lia].
  set (lo := Z.max start (start + cs - 100)).
  destruct (Z.max (rfind text dot lo (start + cs))
                  (rfind text newline lo (start + cs)) >? start) eqn:B;
    [| lia].
  apply Z.gtb_lt in B. apply Z.ltb_lt in E.
  assert (R : forall c, rfind text c lo (start + cs) < start + cs).
  { intros c.
    destruct (rfind_range text c lo (start + cs)) as [H | [[_ H1] _]];
      [lia |].
    rewrite (adjust_nonneg (start + cs)) in H1 by lia. lia. }
  pose proof (R dot). pose proof (R newline). lia.
Qed.

Lemma loop_body_chunk_length (text : str) (cs ov start : Z)
  (chunks : list str) :
  0 <= start -> 0 <= cs ->
  Forall (fun c => len c <= cs) chunks ->
  Forall (fun c => len c <= cs) (snd (loop_body text cs ov start chunks)).
Proof.
  intros Hs Hcs H.
  pose proof (window_end_range text cs start Hs Hcs) as W.
  unfold window_end, loop_body in *. cbv zeta in *. cbn [fst snd] in *.
  rewrite Z.sub_0_r in W.
  match goal with |- context [truthy ?c] => destruct (truthy c) end;
    [| exact H].
  apply Forall_app. split; [exact H |]. constructor; [| constructor].
  eapply Z.le_trans; [apply strip_length |].
  eapply Z.le_trans; [apply slice_length |].
  pose proof (len_nonneg text).
  rewrite !adjust_nonneg by lia. lia.
Qed.

Lemma chunk_loop_chunk_length (text : str) (cs ov : Z) :
  0 <= ov -> ov + 100 <= cs ->
  forall fuel start chunks out,
    0 <= start ->
    Forall (fun c => len c <= cs) chunks ->
    chunk_loop fuel text cs ov start chunks = Some out ->
    Forall (fun c => len c <= cs) out.
Proof.
  intros Hov Hgap.
  induction fuel as [|fuel IH]; intros start chunks out Hs Hc;
    cbn [chunk_loop].
  - destruct (start <? len text); [discriminate |].
    intros [= <-]. exact Hc.
  - destruct (start <? len text); [| intros [= <-]; exact Hc].
    pose proof (loop_body_chunk_length text cs ov start chunks Hs
                  ltac:(lia) Hc) as Hb.
    pose proof (next_start_progress text cs ov start Hov Hgap Hs) as P.
    rewrite <- (loop_body_fst text cs ov start chunks) in P.
    destruct (loop_body text cs ov start chunks) as [start' chunks'].
    cbn [fst snd] in *.
    destruct (start' >=? len text).
    + intros [= <-]. exact Hb.
    + apply IH; [lia | exact Hb].
Qed.

(** X2.  Under the same bounds on [overlap], no chunk that
    [split_text_into_chunks] returns is longer than [chunk_size]. *)
Theorem split_text_into_chunks_chunk_length :
  forall (fuel : nat) (text : str) (chunk_size overlap : Z)
         (chunks : list str),
    0 <= overlap -> overlap + 100 <= chunk_size ->
    split_text_into_chunks fuel text chunk_size overlap = Some chunks ->
    Forall (fun c => len c <= chunk_size) chunks.
Proof.
  intros fuel text cs ov out Hov Hgap. unfold split_text_into_chunks.
  destruct (Z.leb_spec (len text) cs).
  - intros [= <-]. constructor; [assumption | constructor].
  - apply chunk_loop_chunk_length; try assumption; [lia | constructor].
Qed.

Lemma split_text_into_chunks_chunk_length_witness :
  Forall (fun c => len c <= 120)
         (match split_text_into_chunks 300 sample_text 120 20 with
          | Some chunks => chunks
          | None => []
          end).
Proof.
  apply (split_text_into_chunks_chunk_length 300 sample_text 120 20);
    [lia | lia | vm_compute; reflexivity].
Defined.

(** [c] occurs in [text] as a contiguous run. *)
Definition substring (c text : str) : Prop :=
  exists before after, text = before ++ c ++ after.

Lemma substring_trans (a b c : str) :
  substring a b -> substring b c -> substring a c.
Proof.
  intros (p & q & ->) (p' & q' & ->).
  exists (p' ++ p), (q ++ q'). now rewrite <- !app_assoc.
Qed.

Lemma lstrip_suffix (s : str) : exists before, s = before ++ lstrip s.
Proof.
  induction s as [|c t [before IH]]; cbn.
  - now exists [].
  - destruct (isspace c).
    + exists (c :: before). cbn. now rewrite <- IH.
    + now exists [].
Qed.

Lemma rstrip_prefix (s : str) : exists after, s = rstrip s ++ after.
Proof.
  unfold rstrip. destruct (lstrip_suffix (List.rev s)) as [before H].
  exists (List.rev before).
  rewrite <- rev_app_distr, <- H. now rewrite rev_involutive.
Qed.

Lemma strip_substring (s : str) : substring (strip s) s.
Proof.
  unfold strip.
  destruct (lstrip_suffix s) as [before H].
  destruct (rstrip_prefix (lstrip s)) as [after H'].
  exists before, after. now rewrite <- H'.
Qed.

Lemma slice_substring (s : str) (lo hi : Z) : substring (slice s lo hi) s.
Proof.
  unfold slice. cbv zeta.
  set (a := Z.to_nat (adjust lo (len s))).
  set (n := Z.to_nat (adjust hi (len s) - adjust lo (len s))).
  exists (firstn a s), (skipn n (skipn a s)).
  now rewrite firstn_skipn, firstn_skipn.
Qed.

Lemma loop_body_substrings (text : str) (cs ov start : Z)
  (chunks : list str) :
  Forall (fun c => substring c text) chunks ->
  Forall (fun c => substring c text)
         (snd (loop_body text cs ov start chunks)).
Proof.
  intros H. unfold loop_body. cbv zeta. cbn [snd].
  match goal with |- context [truthy ?c] => destruct (truthy c) end;
    [| exact H].
  apply Forall_app. split; [exact H |]. constructor; [| constructor].
  eapply substring_trans; [apply strip_substring | apply slice_substring].
Qed.

Lemma chunk_loop_substrings (text : str) (cs ov : Z) :
  forall fuel start chunks out,
    Forall (fun c => substring c text) chunks ->
    chunk_loop fuel text cs ov start chunks = Some out ->
    Forall (fun c => substring c text) out.
Proof.
  induction fuel as [|fuel IH]; intros start chunks out Hc;
    cbn [chunk_loop].
  - destruct (start <? len text); [discriminate |].
    intros [= <-]. exact Hc.
  - destruct (start <? len text); [| intros [= <-]; exact Hc].
    pose proof (loop_body_substrings text cs ov start chunks Hc) as Hb.
    destruct (loop_body text cs ov start chunks) as [start' chunks'].
    cbn [snd] in Hb.
    destruct (start' >=? len text).
    + intros [= <-]. exact Hb.
    + now apply IH.
Qed.

(** X3.  Whatever [chunk_size] and [overlap] are, every chunk that
    [split_text_into_chunks] returns is a run of consecutive characters
    of the text: nothing is invented or reordered. *)
Theorem split_text_into_chunks_substrings :
  forall (fuel : nat) (text : str) (chunk_size overlap : Z)
         (chunks : list str),
    split_text_into_chunks fuel text chunk_size overlap = Some chunks ->
    Forall (fun c => substring c text) chunks.
Proof.
  intros fuel text cs ov out. unfold split_text_into_chunks.
  destruct (len text <=? cs).
  - intros [= <-]. constructor; [| constructor].
    exists [], []. now rewrite app_nil_r.
  - apply chunk_loop_substrings. constructor.
Qed.

Lemma split_text_into_chunks_substrings_witness :
  Forall (fun c => substring c sample_text)
         (match split_text_into_chunks 300 sample_text 120 20 with
          | Some chunks => chunks
          | None => []
          end).
Proof.
  apply (split_text_into_chunks_substrings 300 sample_text 120 20).
  vm_compute. reflexivity.
Defined.

End ChunkerBounds.

(* ------------------------------------------------------------------ *)
(** *** [process_document] on text files *)

Module ProcessDocumentProps.
Import Py Codecs TextExtraction TextExtractionProps.

(** What [extract_text_from_txt] reads: the UTF-8 reading of the bytes
    when they have one, their Latin-1 reading otherwise. *)
Definition text_of (file_content : bytes) : str :=
  match utf8_points (map Byte.to_N file_content) with
  | Some s => s
  | None => map Byte.to_N file_content
  end.

Lemma extract_text_from_txt_reading (file_content : bytes) :
  extract_text_from_txt file_content = Ret (text_of file_content).
Proof.
  unfold extract_text_from_txt, text_of. unfold decode at 1.
  destruct (utf8_points (map Byte.to_N file_content)).
  - reflexivity.
  - cbn [try_encodings]. now rewrite decode_latin_1.
Qed.

Section ProcessDocument.

Variable sha256_hexdigest : bytes -> str.
Variable extract_text_from_pdf : bytes -> res str.
Variable suffix_lower : str -> str.

#[local] Abbreviation process_document :=
  (process_document sha256_hexdigest extract_text_from_pdf suffix_lower).

(** X4.  For a file name whose lower-cased suffix is ".txt",
    [process_document] returns, whatever the bytes: the text is the
    UTF-8 reading of the bytes or else their latin-1 reading, and the
    hash is the SHA-256 digest of the bytes as uploaded. *)
Theorem process_document_txt_returns :
  forall (filename : str) (file_content : bytes),
    suffix_lower filename = lit ".txt" ->
    process_document filename file_content
    = Ret (text_of file_content, sha256_hexdigest file_content).
Proof.
  intros filename file_content H.
  unfold TextExtraction.process_document, calculate_hash. cbv zeta.
  rewrite H.
  replace (str_eqb (lit ".txt") (lit ".pdf")) with false by reflexivity.
  replace (str_eqb (lit ".txt") (lit ".txt")) with true by reflexivity.
  now rewrite extract_text_from_txt_reading.
Qed.

End ProcessDocument.

Lemma process_document_txt_returns_witness :
  process_document (fun _ => lit "h1")
    (fun _ => Raise (ValueError (lit "not a PDF"))) (fun _ => lit ".txt")
    (lit "notes.txt") [x68; x69]
  = Ret (lit "hi", lit "h1").
Proof.
  apply (process_document_txt_returns (fun _ => lit "h1")
           (fun _ => Raise (ValueError (lit "not a PDF")))
           (fun _ => lit ".txt") (lit "notes.txt") [x68; x69]).
  reflexivity.
Defined.

Lemma option_map_cons_length (c : N) (o : option str) (s : str) (n : nat) :
  option_map (cons c) o = Some s ->
  (forall s', o = Some s' -> (List.length s' <= n)%nat) ->
  (List.length s <= S n)%nat.
Proof.
  destruct o as [s' |]; cbn; [| discriminate].
  intros [= <-] H. specialize (H s' eq_refl). cbn. lia.
Qed.

(** A UTF-8 reading has at most one code point per byte. *)
Lemma utf8_points_length :
  forall (n : nat) (bs : list N) (s : str),
    (List.length bs <= n)%nat ->
    utf8_points bs = Some s ->
    (List.length s <= List.length bs)%nat.
Proof.
  induction n as [|n IH]; intros bs s Hn.
  - destruct bs; [| cbn in Hn; lia]. now intros [= <-].
  - destruct bs as [|b0 r0]; [now intros [= <-] |].
    cbn [utf8_points].
    destruct (b0 <=? 127)%N.
    { intros H. cbn [List.length].
      apply (option_map_cons_length _ _ _ _ H).
      intros s' Hs'. apply (IH r0 s'); [cbn in Hn; lia | exact Hs']. }
    destruct r0 as [|b1 r1]; [discriminate |].
    destruct (within 194 223 b0).
    { destruct (cont b1); [| discriminate].
      intros H. cbn [List.length].
      apply Nat.le_le_succ_r.
      apply (option_map_cons_length _ _ _ _ H).
      intros s' Hs'. apply (IH r1 s'); [cbn in Hn; lia | exact Hs']. }
    destruct r1 as [|b2 r2]; [discriminate |].
    destruct (within 224 239 b0).
    { match goal with |- (if ?c then _ else _) = _ -> _ => destruct c end;
        [| discriminate].
      intros H. cbn [List.length].
      do 2 apply Nat.le_le_succ_r.
      apply (option_map_cons_length _ _ _ _ H).
      intros s' Hs'. apply (IH r2 s'); [cbn in Hn; lia | exact Hs']. }
    destruct r2 as [|b3 r3]; [discriminate |].
    match goal with |- (if ?c then _ else _) = _ -> _ => destruct c end;
      [| discriminate].
    intros H. cbn [List.length].
    do 3 apply Nat.le_le_succ_r.
    apply (option_map_cons_length _ _ _ _ H).
    intros s' Hs'. apply (IH r3 s'); [cbn in Hn; lia | exact Hs'].
Qed.

(** X5.  [extract_text_from_txt] returns a text of at most as many
    characters as the file has bytes. *)
Theorem extract_text_from_txt_length :
  forall file_content : bytes,
    exists text,
      extract_text_from_txt file_content = Ret text
      /\ len text <= len file_content.
Proof.
  intros file_content. exists (text_of file_content).
  split; [apply extract_text_from_txt_reading |].
  unfold text_of, len.
  destruct (utf8_points (map Byte.to_N file_content)) as [s |] eqn:U.
  - apply (utf8_points_length _ _ _ (Nat.le_refl _)) in U.
    rewrite length_map in U. lia.
  - rewrite length_map. lia.
Qed.

End ProcessDocumentProps.

(* ------------------------------------------------------------------ *)
(** *** Chunk keys name one chunk *)

Module ChunkKeyInjective.
Import Py PyFacts VectorStore KeyedProps ChunkKeyProps.

Definition underscore : N := 95.   (* '_' *)

Lemma uint_no_underscore (d : Decimal.uint) :
  Forall (fun c => c <> underscore)
         (lit (DecimalString.NilEmpty.string_of_uint d)).
Proof.
  induction d; cbn; constructor; try assumption; discriminate.
Qed.

Lemma str_of_int_no_underscore (z : Z) :
  Forall (fun c => c <> underscore) (str_of_int z).
Proof.
  unfold str_of_int.
  assert (U : forall d,
    Forall (fun c => c <> underscore)
           (lit (DecimalString.NilZero.string_of_uint d))).
  { intros d. destruct d; try apply uint_no_underscore.
    cbn. constructor; [discriminate | constructor]. }
  destruct (Z.to_int z) as [d | d]; cbn [DecimalString.NilZero.string_of_int].
  - apply U.
  - change (lit (String "-" (DecimalString.NilZero.string_of_uint d)))
      with (45%N :: lit (DecimalString.NilZero.string_of_uint d)).
    constructor; [discriminate | apply U].
Qed.

(** Two strings free of [c], each followed by [c], are told apart by
    what precedes the first [c]. *)
Lemma split_at_first (c : N) (x y r r' : str) :
  Forall (fun a => a <> c) x -> Forall (fun a => a <> c) y ->
  x ++ c :: r = y ++ c :: r' -> x = y /\ r = r'.
Proof.
  revert y. induction x as [|a x IH]; intros [|b y] Hx Hy; cbn.
  - intros [= ->]. auto.
  - intros [= <- _]. inversion Hy; subst. congruence.
  - intros [= -> _]. inversion Hx; subst. congruence.
  - intros [= -> H]. inversion Hx; inversion Hy; subst.
    destruct (IH y) as [-> ->]; auto.
Qed.

(** The three numbers of a chunk key can be read back from it. *)
(** X6.  The chunk key
    [user_{user_id}_doc_{document_id}_chunk_{i}] determines the user,
    the document and the index: two different triples never share a
    key. *)
Theorem chunk_key_injective :
  forall user_id document_id i user_id' document_id' i' : Z,
    chunk_key user_id document_id i = chunk_key user_id' document_id' i' ->
    user_id = user_id' /\ document_id = document_id' /\ i = i'.
Proof.
  intros user_id document_id i user_id' document_id' i'.
  unfold chunk_key. intros H.
  apply app_inv_head in H.
  change (lit "_doc_") with (underscore :: lit "doc_") in H.
  change (lit "_chunk_") with (underscore :: lit "chunk_") in H.
  cbn [app] in H.
  apply split_at_first in H as [Hu H];
    try apply str_of_int_no_underscore.
  apply app_inv_head in H.
  apply split_at_first in H as [Hd H];
    try apply str_of_int_no_underscore.
  apply app_inv_head in H.
  apply str_of_int_inj in Hu, Hd, H. auto.
Qed.

Lemma chunk_key_injective_witness : 1 = 1 /\ 10 = 10 /\ 0 = 0.
Proof.
  apply (chunk_key_injective 1 10 0 1 10 0). reflexivity.
Defined.

End ChunkKeyInjective.

(* ------------------------------------------------------------------ *)
(** *** The vector stores: previews, writes and deletions *)

Module StoreProps.
Import Py PyFacts VectorStore KeyedProps ChunkKeyProps SearchProps.

Module Q := QdrantVectorStore.
Module C := ChromaVectorStore.

(** The payload is that of a chunk of document [d] of user [u]; of a
    chunk of user [u]. *)
Definition of_document (d u : Z) (pl : payload) : Prop :=
  assoc_get (lit "document_id") pl = Some (PInt d)
  /\ assoc_get (lit "user_id") pl = Some (PInt u).

Definition of_user (u : Z) (pl : payload) : Prop :=
  assoc_get (lit "user_id") pl = Some (PInt u).

Lemma pval_eqb_refl (v : pval) : pval_eqb v v = true.
Proof. destruct v; cbn; [apply Z.eqb_refl | apply str_eqb_refl]. Qed.

Lemma matches_value (v : option pval) (x : pval) :
  match v with Some v' => pval_eqb v' x | None => false end = true
  <-> v = Some x.
Proof.
  destruct v as [v' |]; split; try discriminate.
  - intros H. now rewrite (pval_eqb_eq _ _ H).
  - intros [= ->]. apply pval_eqb_refl.
Qed.

(* ---------------------------------------------------------------- *)
(** *** Previews *)

Lemma firstn_firstn_same {A : Type} (n : nat) (l : list A) :
  firstn n (firstn n l) = firstn n l.
Proof. rewrite firstn_firstn. now rewrite Nat.min_id. Qed.

Lemma slice_to_firstn {A : Type} (s : list A) (n : Z) :
  0 <= n -> slice_to s n = firstn (Z.to_nat n) s.
Proof.
  intros H. unfold slice_to, slice. cbv zeta.
  rewrite (adjust_nonneg 0) by lia. rewrite (adjust_nonneg n) by lia.
  pose proof (len_nonneg s).
  rewrite (Z.min_l 0) by lia. cbn [Z.to_nat skipn]. rewrite Z.sub_0_r.
  destruct (Z.le_ge_cases n (len s)).
  - now rewrite Z.min_l by lia.
  - rewrite Z.min_r by lia. unfold len in *. rewrite Nat2Z.id.
    rewrite !firstn_all2; [reflexivity | lia | lia].
Qed.

(** X7.  The preview stored with a chunk has at most 203 characters,
    starts with the first 200 characters of the chunk, and is the chunk
    itself when the chunk has at most 200 characters. *)
Theorem text_preview_bounded :
  forall chunk : str,
    len (text_preview chunk) <= 203
    /\ firstn 200 (text_preview chunk) = firstn 200 chunk
    /\ (len chunk <= 200 -> text_preview chunk = chunk).
Proof.
  intros chunk. unfold text_preview.
  destruct (Z.gtb_spec (len chunk) 200) as [G | G].
  - rewrite slice_to_firstn by lia.
    change (Z.to_nat 200) with 200%nat.
    assert (L : List.length (firstn 200 chunk) = 200%nat).
    { rewrite length_firstn. unfold len in G. lia. }
    split; [| split].
    + unfold len. rewrite length_app, L. cbn. lia.
    + rewrite firstn_app, L, Nat.sub_diag, firstn_O, app_nil_r.
      apply firstn_firstn_same.
    + lia.
  - split; [lia | split; [reflexivity | reflexivity]].
Qed.

(* ---------------------------------------------------------------- *)
(** *** Qdrant: what the two deletions remove *)

Section Qdrant.

Variable vec : Type.

Lemma delete_filter_holds (d u : Z) (pl : payload) :
  Q.filter_holds
    {| Q.must :=
         [ {| Q.fc_key := lit "document_id"; Q.fc_match := PInt d |};
           {| Q.fc_key := lit "user_id"; Q.fc_match := PInt u |} ] |} pl
  = true
  <-> of_document d u pl.
Proof.
  unfold Q.filter_holds, Q.condition_holds, of_document.
  cbn [Q.must forallb Q.fc_key Q.fc_match].
  rewrite andb_true_r, andb_true_iff, !matches_value. reflexivity.
Qed.

Lemma user_filter_holds (u : Z) (pl : payload) :
  Q.filter_holds
    {| Q.must :=
         [ {| Q.fc_key := lit "user_id"; Q.fc_match := PInt u |} ] |} pl
  = true
  <-> of_user u pl.
Proof.
  unfold Q.filter_holds, Q.condition_holds, of_user.
  cbn [Q.must forallb Q.fc_key Q.fc_match].
  rewrite andb_true_r, !matches_value. reflexivity.
Qed.

Lemma negb_true_not (b : bool) (P : Prop) :
  (b = true <-> P) -> (negb b = true <-> ~ P).
Proof. destruct b; cbn; intuition congruence. Qed.

(** X8.  Qdrant: [delete_document_chunks] leaves exactly the points
    that are not of the given document of the given user, and
    [delete_user_data] exactly the points that are not of the given
    user; points of other users stay. *)
Theorem qdrant_deletes_remove_exactly :
  forall (collection : list (Q.point vec)) (document_id user_id : Z)
         (p : Q.point vec),
    (In p (Q.delete_document_chunks collection document_id user_id)
     <-> In p collection
         /\ ~ of_document document_id user_id (Q.point_payload p))
    /\ (In p (Q.delete_user_data collection user_id)
        <-> In p collection /\ ~ of_user user_id (Q.point_payload p)).
Proof.
  intros collection d u p.
  unfold Q.delete_document_chunks, Q.delete_user_data, Q.client_delete.
  cbv zeta. rewrite !filter_In.
  rewrite (negb_true_not _ _ (delete_filter_holds d u _)).
  rewrite (negb_true_not _ _ (user_filter_holds u _)).
  tauto.
Qed.

(** What is asked of a Qdrant service that answers searches over a
    collection: a hit satisfies the filter of the request and carries
    the payload of a stored point. *)
Definition qdrant_serves {score_t : Type} (collection : list (Q.point vec))
  (client_search : Q.search_request vec -> list (Q.scored_point score_t))
  : Prop :=
  forall request hit,
    In hit (client_search request) ->
    Q.filter_holds (Q.query_filter request) (Q.sp_payload hit) = true
    /\ exists p, In p collection /\ Q.point_payload p = Q.sp_payload hit.

Lemma reference_search_serves {score_t : Type}
  (score : vec -> vec -> score_t) (collection : list (Q.point vec)) :
  qdrant_serves collection (Q.reference_search score collection).
Proof.
  intros request hit H. unfold Q.reference_search in H.
  apply in_firstn in H. apply in_map_iff in H as (p & <- & Hp).
  apply filter_In in Hp as [Hin Hp]. cbn [Q.sp_payload]. eauto.
Qed.

Lemma format_result_document {score_t : Type}
  (hit : Q.scored_point score_t) (found : Q.found_chunk score_t) :
  Q.format_result hit = Ret found ->
  assoc_get (lit "document_id") (Q.fc_metadata found)
  = assoc_get (lit "document_id") (Q.sp_payload hit).
Proof.
  unfold Q.format_result, getitem, bind.
  set (pl := Q.sp_payload hit).
  destruct (@assoc_get pval (lit "content") pl); [| discriminate].
  destruct (@assoc_get pval (lit "document_id") pl); [| discriminate].
  destruct (@assoc_get pval (lit "user_id") pl) as [v |]; [| discriminate].
  destruct (@assoc_get pval (lit "chunk_index") pl); [| discriminate].
  destruct (@assoc_get pval (lit "text_preview") pl); [| discriminate].
  intros [= <-]. reflexivity.
Qed.

(** X9.  Qdrant: once [delete_user_data] has run for a user, a search
    of that user over the collection that is left returns no chunk. *)
Theorem qdrant_search_after_delete_user_data :
  forall (score_t : Type) (embed : str -> vec)
         (collection : list (Q.point vec))
         (client_search : Q.search_request vec
                          -> list (Q.scored_point score_t))
         (query : str) (user_id top_k : Z),
    qdrant_serves (Q.delete_user_data collection user_id) client_search ->
    Q.search_similar_chunks embed client_search query user_id top_k
    = Ret [].
Proof.
  intros score_t embed collection client_search query u top_k Serves.
  unfold Q.search_similar_chunks. cbv zeta.
  destruct (client_search (Q.user_request embed query u top_k))
    as [| hit hits] eqn:E; [reflexivity |].
  exfalso.
  destruct (Serves (Q.user_request embed query u top_k) hit)
    as (F & p & Hp & Hpl); [rewrite E; now left |].
  apply user_filter_holds in F.
  unfold Q.delete_user_data, Q.client_delete in Hp. cbv zeta in Hp.
  apply filter_In in Hp as [_ Hp].
  apply (negb_true_not _ _ (user_filter_holds u _)) in Hp.
  apply Hp. now rewrite Hpl.
Qed.

(** X10.  Qdrant: once [delete_document_chunks] has run for a
    document of a user, no chunk that a search of that user returns
    carries that document's id. *)
Theorem qdrant_search_after_delete_document_chunks :
  forall (score_t : Type) (embed : str -> vec)
         (collection : list (Q.point vec))
         (client_search : Q.search_request vec
                          -> list (Q.scored_point score_t))
         (query : str) (document_id user_id top_k : Z)
         (found : list (Q.found_chunk score_t)),
    qdrant_serves (Q.delete_document_chunks collection document_id user_id)
      client_search ->
    Q.search_similar_chunks embed client_search query user_id top_k
    = Ret found ->
    Forall (fun c => assoc_get (lit "document_id") (Q.fc_metadata c)
                     <> Some (PInt document_id)) found.
Proof.
  intros score_t embed collection client_search query d u top_k found
         Serves Run.
  apply Forall_forall. intros c Hc.
  unfold Q.search_similar_chunks in Run. cbv zeta in Run.
  destruct (for_each_in _ _ _ _ Run Hc) as (hit & Hin & Hf).
  destruct (Serves _ _ Hin) as (F & p & Hp & Hpl).
  apply user_filter_holds in F.
  rewrite (format_result_document hit c Hf).
  unfold Q.delete_document_chunks, Q.client_delete in Hp. cbv zeta in Hp.
  apply filter_In in Hp as [_ Hp].
  apply (negb_true_not _ _ (delete_filter_holds d u _)) in Hp.
  rewrite Hpl in Hp. intros D. apply Hp. split; assumption.
Qed.

End Qdrant.

(* ---------------------------------------------------------------- *)
(** *** Writes and deletions on keyed collections *)

Section Keyed.

Variable E : Type.
Variable key : E -> str.

Lemma nodup_key_eq (l : list E) (a b : E) :
  NoDup (map key l) -> In a l -> In b l -> key a = key b -> a = b.
Proof.
  induction l as [|x l IH]; cbn; [tauto |].
  intros N. inversion N as [| ? ? Nx Nl]; subst.
  intros [-> | Ha] [-> | Hb] K.
  - reflexivity.
  - exfalso. apply Nx. rewrite K. now apply in_map.
  - exfalso. apply Nx. rewrite <- K. now apply in_map.
  - now apply IH.
Qed.

(** [Collection.add] only appends, and only under identifiers that
    were not stored. *)
Lemma add_new_appends (es l : list E) :
  exists added,
    add_new key l es = l ++ added
    /\ Forall (fun e => In e es /\ ~ In (key e) (map key l)) added.
Proof.
  revert l. induction es as [|e es IH]; intros l.
  - exists []. split; [now rewrite app_nil_r | constructor].
  - cbn [add_new fold_left].
    destruct (IH (add_one key l e)) as (added & Eq & F).
    unfold add_new in Eq. rewrite Eq. unfold add_one in *.
    destruct (has_key key (key e) l) eqn:K.
    + exists added. split; [reflexivity |].
      eapply Forall_impl; [| exact F]. cbn. tauto.
    + exists (e :: added). split; [now rewrite <- app_assoc |].
      constructor.
      * split; [now left |]. intros I. apply has_key_in in I. congruence.
      * eapply Forall_impl; [| exact F]. cbn. intros a [Ha Na].
        split; [tauto |]. intros I. apply Na.
        rewrite map_app. apply in_or_app. now left.
Qed.

(** Entries that a filter drops, written over entries that it drops,
    leave what the filter keeps as it was. *)
Lemma filter_upsert_dropped (keep : E -> bool) (es l : list E) :
  (forall e, In e es -> keep e = false) ->
  (forall x, In x l -> In (key x) (map key es) -> keep x = false) ->
  filter keep (upsert key l es) = filter keep l.
Proof.
  revert l. induction es as [|e es IH]; intros l Hes Hl; [reflexivity |].
  cbn [upsert fold_left].
  change (fold_left (upsert_one key) es (upsert_one key l e))
    with (upsert key (upsert_one key l e) es).
  assert (Ke : keep e = false) by (apply Hes; now left).
  rewrite IH.
  - unfold upsert_one. destruct (has_key key (key e) l).
    + clear IH. induction l as [|x l IHl]; [reflexivity |].
      cbn [map filter].
      assert (T : filter keep (map (replace_entry key e) l) = filter keep l)
        by (apply IHl; intros y Hy; apply Hl; now right).
      rewrite T.
      change (replace_entry key e x)
        with (if str_eqb (key x) (key e) then e else x).
      destruct (str_eqb (key x) (key e)) eqn:K; [| reflexivity].
      apply str_eqb_eq in K.
      rewrite Ke, (Hl x); [reflexivity | now left | cbn; left; congruence].
    + rewrite filter_app. cbn [filter]. rewrite Ke. apply app_nil_r.
  - intros a Ha. apply Hes. now right.
  - intros x Hx Kx.
    destruct (str_eqb (key x) (key e)) eqn:K.
    + apply str_eqb_eq in K.
      rewrite (in_upsert_one_same E key l e x Hx K). exact Ke.
    + apply str_eqb_neq in K.
      apply Hl; [now apply (in_upsert_one_other E key l e) |].
      cbn. now right.
Qed.

End Keyed.

Arguments nodup_key_eq {E} key l a b.
Arguments add_new_appends {E} key es l.
Arguments filter_upsert_dropped {E} key keep es l.

(* ---------------------------------------------------------------- *)
(** *** Chroma: [add_chunks] appends, the deletions remove by metadata *)

Section Chroma.

Variable vec : Type.
Variable embed : str -> vec.

Lemma in_make_metadatas (chunks : list str) (document_id user_id : Z)
  (metadata : payload) :
  In metadata (C.make_metadatas chunks document_id user_id) ->
  of_document document_id user_id metadata.
Proof.
  unfold C.make_metadatas. rewrite in_map_iff.
  intros ([i chunk] & <- & _). split; reflexivity.
Qed.

(** X11.  Chroma: [add_chunks] always returns; the collection it
    leaves is the old one followed by new entries, each tagged with the
    document and the user and stored under an identifier that was not
    in use. *)
Theorem chroma_add_chunks_appends :
  forall (collection : list (C.entry vec)) (chunks : list str)
         (document_id user_id : Z),
    exists added,
      C.add_chunks embed collection chunks document_id user_id
      = Ret (collection ++ added)
      /\ Forall (fun e =>
                   of_document document_id user_id (C.ce_metadata e)
                   /\ ~ In (C.ce_id e) (map C.ce_id collection)) added.
Proof.
  intros collection chunks d u. unfold C.add_chunks.
  destruct (negb (truthy chunks)).
  { exists []. split; [now rewrite app_nil_r | constructor]. }
  cbv zeta. unfold C.collection_add.
  rewrite (has_duplicate_ids_nodup _ (chroma_chunk_ids_nodup chunks d u)).
  match goal with
  | |- context [add_new C.ce_id collection ?es] =>
      destruct (add_new_appends C.ce_id es collection) as (added & -> & F)
  end.
  exists added. split; [reflexivity |].
  eapply Forall_impl; [| exact F]. cbn. intros e [He N].
  split; [| exact N].
  apply in_map_iff in He as ([id [v [document metadata]]] & <- & Hin).
  cbn [C.ce_metadata].
  apply in_combine_r, in_combine_r, in_combine_r in Hin.
  now apply (in_make_metadatas chunks).
Qed.

End Chroma.

Section ChromaDeletes.

Variable vec : Type.

Lemma where_document_holds (d u : Z) (metadata : payload) :
  C.where_holds
    (C.WAnd [C.WEq (lit "document_id") (PInt d);
             C.WEq (lit "user_id") (PInt u)]) metadata = true
  <-> of_document d u metadata.
Proof.
  unfold of_document. cbn [C.where_holds forallb].
  rewrite andb_true_r, andb_true_iff, !matches_value. reflexivity.
Qed.

Lemma where_user_holds (u : Z) (metadata : payload) :
  C.where_holds (C.WEq (lit "user_id") (PInt u)) metadata = true
  <-> of_user u metadata.
Proof. unfold of_user. cbn [C.where_holds]. apply matches_value. Qed.

(** [get(where)] followed by [delete(ids)], on a collection whose
    identifiers are distinct, removes the entries that satisfy [where]
    and no other. *)
Lemma chroma_get_then_delete (collection : list (C.entry vec))
  (w : C.where_clause) (e : C.entry vec) :
  NoDup (map C.ce_id collection) ->
  let ids := C.collection_get_ids collection w in
  In e (if truthy ids then C.collection_delete collection ids
        else collection)
  <-> In e collection /\ C.where_holds w (C.ce_metadata e) = false.
Proof.
  intros N ids.
  assert (I : forall k, In k ids <->
                exists x, In x collection
                          /\ C.where_holds w (C.ce_metadata x) = true
                          /\ C.ce_id x = k).
  { intros k. unfold ids, C.collection_get_ids. rewrite in_map_iff.
    split; intros (x & H1 & H2).
    - apply filter_In in H2. exists x. tauto.
    - destruct H2. exists x. rewrite filter_In. tauto. }
  destruct (truthy ids) eqn:T.
  - unfold C.collection_delete. rewrite filter_In. split.
    + intros [He D]. split; [exact He |].
      destruct (C.where_holds w (C.ce_metadata e)) eqn:W; [| reflexivity].
      apply negb_true_iff in D.
      assert (X : existsb (fun k => str_eqb k (C.ce_id e)) ids = true);
        [| congruence].
      apply existsb_exists. exists (C.ce_id e).
      split; [| apply str_eqb_refl]. apply I. now exists e.
    + intros [He W]. split; [exact He |].
      apply negb_true_iff.
      destruct (existsb (fun k => str_eqb k (C.ce_id e)) ids) eqn:X;
        [| reflexivity].
      apply existsb_exists in X as (k & Hk & K). apply str_eqb_eq in K.
      apply I in Hk as (x & Hx & Wx & Kx).
      assert (x = e)
        by (apply (nodup_key_eq C.ce_id collection); congruence).
      congruence.
  - split.
    + intros He. split; [exact He |].
      destruct (C.where_holds w (C.ce_metadata e)) eqn:W; [| reflexivity].
      assert (In (C.ce_id e) ids) by (apply I; now exists e).
      destruct ids; [contradiction | discriminate].
    + tauto.
Qed.

Lemma false_not_true (b : bool) (P : Prop) :
  (b = true <-> P) -> (b = false <-> ~ P).
Proof. destruct b; intuition congruence. Qed.

(** X12.  Chroma, with distinct stored identifiers:
    [delete_document_chunks] leaves exactly the entries that are not of
    the given document of the given user, and [delete_user_data] exactly
    the entries that are not of the given user. *)
Theorem chroma_deletes_remove_exactly :
  forall (collection : list (C.entry vec)) (document_id user_id : Z)
         (e : C.entry vec),
    NoDup (map C.ce_id collection) ->
    (In e (C.delete_document_chunks collection document_id user_id)
     <-> In e collection
         /\ ~ of_document document_id user_id (C.ce_metadata e))
    /\ (In e (C.delete_user_data collection user_id)
        <-> In e collection /\ ~ of_user user_id (C.ce_metadata e)).
Proof.
  intros collection d u e N.
  unfold C.delete_document_chunks, C.delete_user_data. cbv zeta.
  rewrite !chroma_get_then_delete by exact N.
  rewrite (false_not_true _ _ (where_document_holds d u _)).
  rewrite (false_not_true _ _ (where_user_holds u _)).
  tauto.
Qed.

End ChromaDeletes.

(* ---------------------------------------------------------------- *)
(** *** Qdrant: deleting a document after adding it *)

Section QdrantAddDelete.

Variable vec : Type.
Variable embed : str -> vec.
Variable sha256_hexdigest : str -> str.

Lemma in_qdrant_points (chunks : list str) (document_id user_id : Z)
  (p : Q.point vec) :
  In p (Q.points embed sha256_hexdigest chunks document_id user_id) ->
  of_document document_id user_id (Q.point_payload p).
Proof.
  unfold Q.points. rewrite in_map_iff.
  intros ([i [chunk v]] & <- & _). split; reflexivity.
Qed.

(** X13.  Qdrant: deleting a document's chunks right after adding
    them leaves what deleting them from the earlier collection leaves,
    provided the points the batch replaces were that document's. *)
Theorem qdrant_delete_undoes_add_chunks :
  forall (collection : list (Q.point vec)) (chunks : list str)
         (document_id user_id : Z),
    (forall p,
        In p collection ->
        In (Q.point_id p)
           (map Q.point_id
              (Q.points embed sha256_hexdigest chunks
                 document_id user_id)) ->
        of_document document_id user_id (Q.point_payload p)) ->
    Q.delete_document_chunks
      (Q.add_chunks embed sha256_hexdigest collection chunks
         document_id user_id)
      document_id user_id
    = Q.delete_document_chunks collection document_id user_id.
Proof.
  intros collection chunks d u Fresh.
  unfold Q.add_chunks. destruct (negb (truthy chunks)); [reflexivity |].
  unfold Q.delete_document_chunks, Q.client_delete. cbv zeta.
  apply filter_upsert_dropped.
  - intros p Hp. apply negb_false_iff, delete_filter_holds.
    now apply (in_qdrant_points chunks).
  - intros p Hp K. apply negb_false_iff, delete_filter_holds.
    now apply Fresh.
Qed.

End QdrantAddDelete.

(* ---------------------------------------------------------------- *)
(** *** The statements above on small collections

    Vectors and scores are integers, the embedding of a text is its
    length and the digest is the identity. *)

(** Qdrant: "alpha" in document 10 and "beta" in document 20, both of
    user 1. *)
Definition two_document_collection : list (Q.point Z) :=
  Q.add_chunks (fun s => len s) (fun s => s)
    (Q.add_chunks (fun s => len s) (fun s => s) [] [lit "alpha"] 10 1)
    [lit "beta"] 20 1.

Lemma qdrant_search_after_delete_user_data_witness :
  Q.search_similar_chunks (fun s => len s)
    (Q.reference_search (fun a b => a - b)
       (Q.delete_user_data two_user_collection 1))
    (lit "a") 1 5
  = Ret [].
Proof.
  apply (qdrant_search_after_delete_user_data Z Z (fun s => len s)
           two_user_collection).
  apply reference_search_serves.
Defined.

Lemma qdrant_search_after_delete_document_chunks_witness :
  Forall (fun c => assoc_get (lit "document_id") (Q.fc_metadata c)
                   <> Some (PInt 10))
         (match
            Q.search_similar_chunks (fun s => len s)
              (Q.reference_search (fun a b => a - b)
                 (Q.delete_document_chunks two_document_collection 10 1))
              (lit "a") 1 5
          with
          | Ret found => found
          | Raise _ => []
          end).
Proof.
  apply (qdrant_search_after_delete_document_chunks Z Z (fun s => len s)
           two_document_collection
           (Q.reference_search (fun a b => a - b)
              (Q.delete_document_chunks two_document_collection 10 1))
           (lit "a") 10 1 5).
  - apply reference_search_serves.
  - vm_compute. reflexivity.
Defined.

(** Chroma: one entry of user 1 and one of user 2. *)
Definition alpha_entry : C.entry Z :=
  {| C.ce_id := chunk_key 1 10 0; C.ce_embedding := 5;
     C.ce_document := lit "alpha";
     C.ce_metadata := [(lit "document_id", PInt 10);
                       (lit "user_id", PInt 1)] |}.

Definition beta_entry : C.entry Z :=
  {| C.ce_id := chunk_key 2 20 0; C.ce_embedding := 4;
     C.ce_document := lit "beta";
     C.ce_metadata := [(lit "document_id", PInt 20);
                       (lit "user_id", PInt 2)] |}.

Definition two_entries : list (C.entry Z) := [alpha_entry; beta_entry].

(** The entry of user 2 is there after user 1's deletions, because it
    is not user 1's. *)
Lemma chroma_deletes_remove_exactly_witness :
  (In beta_entry (C.delete_document_chunks two_entries 10 1)
   <-> In beta_entry two_entries
       /\ ~ of_document 10 1 (C.ce_metadata beta_entry))
  /\ (In beta_entry (C.delete_user_data two_entries 1)
      <-> In beta_entry two_entries
          /\ ~ of_user 1 (C.ce_metadata beta_entry)).
Proof.
  apply (chroma_deletes_remove_exactly Z two_entries 10 1 beta_entry).
  repeat constructor; cbn; intuition discriminate.
Defined.

Lemma qdrant_delete_undoes_add_chunks_witness :
  Q.delete_document_chunks
    (Q.add_chunks (fun s => len s) (fun s => s) two_user_collection
       [lit "gamma"] 30 1)
    30 1
  = Q.delete_document_chunks two_user_collection 30 1.
Proof.
  apply (qdrant_delete_undoes_add_chunks Z (fun s => len s) (fun s => s)
           two_user_collection [lit "gamma"] 30 1).
  intros p [<- | [<- | []]] [H | []]; discriminate H.
Defined.

End StoreProps.

(* ------------------------------------------------------------------ *)
(** *** [SimpleLLM.generate_answer_stream] (services.py, lines 33-46) *)

Module Streaming.
Import Py Services.

(** [s.split()]: the maximal runs of characters that are not white
    space; [word] is the run being read. *)
Fixpoint split_from (word : str) (s : str) : list str :=
  match s with
  | [] => if truthy word then [word] else []
  | c :: t =>
      if isspace c then
        if truthy word then word :: split_from [] t else split_from [] t
      else split_from (word ++ [c]) t
  end.

Definition split (s : str) : list str := split_from [] s.

(** [range(0, stop, step)] for a positive [step]. *)
Definition range_step (stop step : Z) : list Z :=
  map (fun k => Z.of_nat k * step)
      (seq 0 (Z.to_nat ((stop + step - 1) / step))).

(** The chunk yielded at index [i] of the loop. *)
Definition chunk_at (words : list str) (chunk_size : Z) (i : Z) : str :=
  let chunk := join (lit " ") (slice words i (i + chunk_size)) in
  if i + chunk_size <? len words then chunk ++ lit " " else chunk.

Section LLM.

Variable lower : str -> str.

(** [SimpleLLM.generate_answer_stream(question, context)]: the chunks
    in the order they are yielded (the pauses between them are left
    out). *)
Definition generate_answer_stream (question : str) (context : list str)
  : list str :=
  let answer := SimpleLLM.generate_answer lower question context in
  let words := split answer in
  let chunk_size := 3 in
  map (chunk_at words chunk_size) (range_step (len words) chunk_size).

End LLM.

End Streaming.

Module StreamingProps.
Import Py PyFacts Services Streaming.

Lemma split_from_nonempty (s : str) :
  forall word, Forall (fun w => w <> []) (split_from word s).
Proof.
  induction s as [|c t IH]; intros word; cbn [split_from].
  - destruct word; cbn; repeat constructor. discriminate.
  - destruct (isspace c); [| apply IH].
    destruct word; cbn [truthy]; [apply IH |].
    constructor; [discriminate | apply IH].
Qed.

Lemma range_step_next (n : Z) :
  0 < n ->
  range_step (n + 3) 3 = 0 :: map (fun i => i + 3) (range_step n 3).
Proof.
  intros Hn. unfold range_step.
  replace ((n + 3 + 3 - 1) / 3) with ((n + 3 - 1) / 3 + 1)
    by (rewrite <- (Z.div_add _ 1 3) by lia; f_equal; lia).
  assert (0 <= (n + 3 - 1) / 3) by (apply Z.div_pos; lia).
  rewrite Z2Nat.inj_add by lia. change (Z.to_nat 1) with 1%nat.
  rewrite Nat.add_1_r. cbn [seq map]. f_equal.
  rewrite <- seq_shift, !map_map. apply map_ext. intros k. lia.
Qed.

Lemma range_step_short (n : Z) :
  0 < n <= 3 -> range_step n 3 = [0].
Proof.
  intros Hn. unfold range_step.
  replace ((n + 3 - 1) / 3) with 1; [reflexivity |].
  apply Z.div_unique with (r := n - 1); lia.
Qed.

Lemma slice_all {A : Type} (l : list A) (hi : Z) :
  len l <= hi -> slice l 0 hi = l.
Proof.
  intros H. unfold slice. cbv zeta. pose proof (len_nonneg l).
  rewrite (adjust_nonneg 0), (adjust_nonneg hi) by lia.
  rewrite (Z.min_l 0), Z.min_r by lia. cbn [Z.to_nat skipn].
  apply firstn_all2. unfold len in *. lia.
Qed.

Lemma slice_past_three {A : Type} (a b c : A) (rest : list A) (i : Z) :
  0 <= i ->
  slice (a :: b :: c :: rest) (i + 3) (i + 3 + 3) = slice rest i (i + 3).
Proof.
  intros Hi. unfold slice. cbv zeta.
  assert (L : len (a :: b :: c :: rest) = len rest + 3)
    by (unfold len; cbn [List.length]; lia).
  rewrite L. pose proof (len_nonneg rest).
  rewrite !adjust_nonneg by lia.
  replace (Z.min (i + 3) (len rest + 3)) with (Z.min i (len rest) + 3)
    by lia.
  replace (Z.min (i + 3 + 3) (len rest + 3))
    with (Z.min (i + 3) (len rest) + 3) by lia.
  replace (Z.to_nat (Z.min i (len rest) + 3))
    with (3 + Z.to_nat (Z.min i (len rest)))%nat by lia.
  cbn [Nat.add skipn]. f_equal. lia.
Qed.

(** The chunks for a list of words, three words at a time. *)
Lemma stream_three (a b c d : str) (rest : list str) :
  map (chunk_at (a :: b :: c :: d :: rest) 3)
      (range_step (len (a :: b :: c :: d :: rest)) 3)
  = (join (lit " ") [a; b; c] ++ lit " ")
    :: map (chunk_at (d :: rest) 3) (range_step (len (d :: rest)) 3).
Proof.
  assert (L : len (a :: b :: c :: d :: rest) = len (d :: rest) + 3)
    by (unfold len; cbn [List.length]; lia).
  assert (P : 0 < len (d :: rest))
    by (unfold len; cbn [List.length]; lia).
  rewrite L, (range_step_next _ P). cbn [map]. f_equal.
  - unfold chunk_at. cbv zeta.
    destruct (Z.ltb_spec (0 + 3) (len (a :: b :: c :: d :: rest)));
      [| lia].
    change (slice (a :: b :: c :: d :: rest) 0 (0 + 3))
      with (slice_to (a :: b :: c :: d :: rest) 3).
    now rewrite StoreProps.slice_to_firstn by lia.
  - rewrite map_map. apply map_ext_in. intros i Hi.
    assert (0 <= i).
    { unfold range_step in Hi. apply in_map_iff in Hi as (k & <- & _). lia. }
    unfold chunk_at. cbv zeta.
    rewrite slice_past_three by assumption. rewrite L.
    destruct (Z.ltb_spec (i + 3 + 3) (len (d :: rest) + 3)),
             (Z.ltb_spec (i + 3) (len (d :: rest))); try lia; reflexivity.
Qed.

Lemma stream_short (words : list str) :
  0 < len words <= 3 ->
  map (chunk_at words 3) (range_step (len words) 3)
  = [join (lit " ") words].
Proof.
  intros H. rewrite range_step_short by assumption. cbn [map].
  unfold chunk_at. cbv zeta.
  destruct (Z.ltb_spec (0 + 3) (len words)); [lia |].
  now rewrite slice_all by lia.
Qed.

Lemma join_cons (sep w : str) (ws : list str) :
  ws <> [] -> join sep (w :: ws) = w ++ sep ++ join sep ws.
Proof. destruct ws; [congruence | reflexivity]. Qed.

Lemma stream_concat (n : nat) :
  forall words : list str,
    (List.length words <= n)%nat ->
    List.concat (map (chunk_at words 3) (range_step (len words) 3))
    = join (lit " ") words.
Proof.
  induction n as [|n IH]; intros words Hn.
  - destruct words; [reflexivity | cbn in Hn; lia].
  - destruct words as [|a [|b [|c [|d rest]]]];
      try (rewrite stream_short
             by (unfold len; cbn [List.length]; lia);
           cbn [List.concat]; apply app_nil_r).
    + reflexivity.
    + rewrite stream_three. cbn [List.concat].
      rewrite IH by (cbn [List.length] in *; lia).
      rewrite (join_cons _ a (b :: c :: d :: rest)),
              (join_cons _ b (c :: d :: rest)),
              (join_cons _ c (d :: rest)) by discriminate.
      cbn [join]. now rewrite <- !app_assoc.
Qed.

Lemma stream_chunks (n : nat) :
  forall words : list str,
    (List.length words <= n)%nat ->
    Forall (fun w => w <> []) words ->
    let chunks := map (chunk_at words 3) (range_step (len words) 3) in
    Forall (fun chunk => chunk <> []) chunks
    /\ len chunks = (len words + 2) / 3.
Proof.
  induction n as [|n IH]; intros words Hn Hw; cbv zeta.
  - destruct words; [| cbn in Hn; lia]. split; [constructor | reflexivity].
  - destruct words as [|a [|b [|c [|d rest]]]].
    + split; [constructor | reflexivity].
    + rewrite stream_short by (unfold len; cbn; lia).
      inversion Hw; subst. split; [| reflexivity].
      constructor; [assumption | constructor].
    + rewrite stream_short by (unfold len; cbn; lia).
      inversion Hw; subst. split; [| reflexivity].
      constructor; [| constructor]. cbn [join].
      destruct a; [congruence | discriminate].
    + rewrite stream_short by (unfold len; cbn; lia).
      inversion Hw; subst. split; [| reflexivity].
      constructor; [| constructor]. cbn [join].
      destruct a; [congruence | discriminate].
    + rewrite stream_three.
      inversion Hw as [| ? ? Ha Hw1]; subst.
      inversion Hw1 as [| ? ? Hb Hw2]; subst.
      inversion Hw2 as [| ? ? Hc Hw3]; subst.
      destruct (IH (d :: rest)) as [F L];
        [cbn [List.length] in *; lia | assumption |].
      split.
      * constructor; [| exact F]. cbn [join].
        destruct a; [congruence | discriminate].
      * assert (E : forall (x : str) (l : list str),
                      len (x :: l) = len l + 1)
          by (intros; unfold len; cbn [List.length]; lia).
        rewrite E, L, !E.
        replace (len rest + 1 + 1 + 1 + 1 + 2) with (len rest + 1 + 2 + 1 * 3)
          by lia.
        rewrite Z.div_add by lia. lia.
Qed.

(** X14.  [SimpleLLM.generate_answer_stream] yields the words of
    [generate_answer]'s answer three at a time: the chunks put together
    are the words joined by single spaces, no chunk is empty, and there
    are [ceil(words / 3)] of them. *)
Theorem generate_answer_stream_spells_answer :
  forall (lower : str -> str) (question : str) (context : list str),
    let words := split (SimpleLLM.generate_answer lower question context) in
    let chunks := generate_answer_stream lower question context in
    List.concat chunks = join (lit " ") words
    /\ Forall (fun chunk => chunk <> []) chunks
    /\ len chunks = (len words + 2) / 3.
Proof.
  intros lower question context words chunks.
  unfold chunks, generate_answer_stream. cbv zeta. fold words.
  split.
  - now apply (stream_concat (List.length words)).
  - apply (stream_chunks (List.length words)); [lia |].
    apply split_from_nonempty.
Qed.

End StreamingProps.

(* ------------------------------------------------------------------ *)
(** *** Document jobs: a processed upload, a failing store, deletion *)

Module DocumentJobProps.
Import Py VectorStore Jobs JobsProps Tasks KeyedProps DocumentTaskProps.

Section Tasks.

Variable store : Type.
Variable settings : Settings.
Variable b64decode : str -> res Codecs.bytes.
Variable sha256_hexdigest : Codecs.bytes -> str.
Variable extract_text_from_pdf : Codecs.bytes -> res str.
Variable suffix_lower : str -> str.
Variable add_chunks : store -> list str -> Z -> Z -> res store.
Variable str_of_exn : exn -> str.

Local Abbreviation run_job :=
  (process_document_async store settings b64decode sha256_hexdigest
     extract_text_from_pdf suffix_lower add_chunks str_of_exn).

(** The record the job creates for an upload. *)
Definition new_document (d : database) (user_id : Z) (filename : str)
  (file_content : Codecs.bytes) (text_content content_hash : str)
  : Document :=
  {| d_id := fresh_id (map d_id (documents d));
     d_filename := filename;
     d_content_hash := content_hash;
     d_chunk_count := len (split_with_defaults text_content);
     d_file_size := len file_content;
     d_user_id := user_id |}.

(** The upload gets as far as creating its record: the execution can
    store its state, the upload decodes, the user is known and below the
    document limit, the file is processed, its hash is new for the user
    and its chunks are within the limit. *)
Definition accepted (w : world store) (user_id : Z)
  (filename file_content_b64 : str) (file_content : Codecs.bytes)
  (user : User) (text_content content_hash : str) : Prop :=
  writable (updates w) = true
  /\ b64decode file_content_b64 = Ret file_content
  /\ find_user (db w) user_id = Some user
  /\ u_document_count user < max_documents_per_user settings
  /\ TextExtraction.process_document sha256_hexdigest extract_text_from_pdf
       suffix_lower filename file_content = Ret (text_content, content_hash)
  /\ (forall doc, In doc (documents (db w)) ->
                  ~ (d_content_hash doc = content_hash
                     /\ d_user_id doc = user_id))
  /\ len (split_with_defaults text_content)
     <= max_chunks_per_document settings.

Lemma no_duplicate (d : database) (content_hash : str) (user_id : Z) :
  (forall doc, In doc (documents d) ->
               ~ (d_content_hash doc = content_hash
                  /\ d_user_id doc = user_id)) ->
  find_duplicate d content_hash user_id = None.
Proof.
  intros H. unfold find_duplicate. apply find_none_forall.
  intros doc Hdoc. specialize (H doc Hdoc).
  destruct (str_eqb (d_content_hash doc) content_hash) eqn:E; [| reflexivity].
  apply str_eqb_eq in E.
  destruct (Z.eqb_spec (d_user_id doc) user_id); [tauto | reflexivity].
Qed.

(** The run of an accepted upload up to the call of the vector store. *)
Lemma run_job_accepted (w : world store) (user_id : Z)
  (filename file_content_b64 : str) (file_content : Codecs.bytes)
  (user : User) (text_content content_hash : str) :
  accepted w user_id filename file_content_b64 file_content user
    text_content content_hash ->
  let document :=
    new_document (db w) user_id filename file_content text_content
      content_hash in
  let progress p status :=
    {| su_state := lit "PROCESSING"; su_status := status;
       su_progress := p |} in
  let w1 :=
    {| db := insert_document document (db w); vs := vs w;
       updates :=
         (((updates w
            ++ [progress 0 (lit "Starting document processing")])
           ++ [progress 25 (lit "Processing document content")])
          ++ [progress 50 (lit "Splitting text into chunks")])
         ++ [progress 75 (lit "Adding chunks to vector store")];
       clock := clock w; ticks := ticks w |} in
  run_job user_id filename file_content_b64 w
  = match add_chunks (vs w) (split_with_defaults text_content)
            (d_id document) user_id with
    | Raise e =>
        (Raise e,
         {| db := db w1; vs := vs w;
            updates := updates w1
                       ++ [ {| su_state := lit "FAILURE";
                               su_status := lit "Error: " ++ str_of_exn e;
                               su_progress := 0 |} ];
            clock := clock w; ticks := ticks w |})
    | Ret s =>
        (Ret [(lit "status", PStr (lit "success"));
              (lit "document_id", PInt (d_id document));
              (lit "filename", PStr filename);
              (lit "chunk_count", PInt (d_chunk_count document));
              (lit "content_hash", PStr content_hash);
              (lit "message",
               PStr (lit "Document processed successfully with "
                     ++ str_of_int (d_chunk_count document)
                     ++ lit " chunks"))],
         {| db :=
              store_user
                {| u_id := u_id user;
                   u_document_count := count_documents (db w1) user_id;
                   u_query_count_today := u_query_count_today user;
                   u_last_query_date := u_last_query_date user |}
                (db w1);
            vs := s;
            updates := updates w1
                       ++ [ {| su_state := lit "SUCCESS";
                               su_status :=
                                 lit "Document processing completed";
                               su_progress := 100 |} ];
            clock := clock w; ticks := ticks w |})
    end.
Proof.
  intros (Hw & Hb & Hu & Hcap & Hp & Hnew & Hfits). cbv zeta.
  unfold process_document_async, report_failure, on_store.
  job_steps. stores_meta. rewrite Hb, Hu.
  destruct (Z.geb_spec (u_document_count user)
              (max_documents_per_user settings)) as [G | _]; [lia |].
  stores_meta. rewrite Hp. cbn [fst snd].
  rewrite (no_duplicate _ _ _ Hnew). stores_meta.
  destruct (Z.gtb_spec (len (split_with_defaults text_content))
              (max_chunks_per_document settings)) as [G | _]; [lia |].
  world_fields. stores_meta. unfold new_document. cbn [d_id d_chunk_count].
  destruct (add_chunks (vs w) (split_with_defaults text_content)
              (fresh_id (map d_id (documents (db w)))) user_id);
    stores_meta; reflexivity.
Qed.

End Tasks.

(** X15.  An upload that is accepted and whose chunks the vector
    store takes: the job returns a success result naming the new
    document and its chunk count; one document record is added, under a
    new id; the user's stored document count is the actual count, one
    more than before; and the progress stored goes 0, 25, 50, 75,
    100. *)
Theorem process_document_async_success :
  forall (store : Type) (settings : Settings)
         (b64decode : str -> res Codecs.bytes)
         (sha256_hexdigest : Codecs.bytes -> str)
         (extract_text_from_pdf : Codecs.bytes -> res str)
         (suffix_lower : str -> str)
         (add_chunks : store -> list str -> Z -> Z -> res store)
         (str_of_exn : exn -> str)
         (w : world store) (user_id : Z) (filename file_content_b64 : str)
         (file_content : Codecs.bytes) (user : User)
         (text_content content_hash : str) (s : store),
    accepted store settings b64decode sha256_hexdigest
      extract_text_from_pdf suffix_lower w user_id filename
      file_content_b64 file_content user text_content content_hash ->
    let document :=
      new_document (db w) user_id filename file_content text_content
        content_hash in
    add_chunks (vs w) (split_with_defaults text_content)
      (d_id document) user_id = Ret s ->
    let run :=
      process_document_async store settings b64decode sha256_hexdigest
        extract_text_from_pdf suffix_lower add_chunks str_of_exn
        user_id filename file_content_b64 w in
    (exists r,
        fst run = Ret r
        /\ assoc_get (lit "status") r = Some (PStr (lit "success"))
        /\ assoc_get (lit "document_id") r = Some (PInt (d_id document))
        /\ assoc_get (lit "chunk_count") r
           = Some (PInt (len (split_with_defaults text_content))))
    /\ documents (db (snd run)) = documents (db w) ++ [document]
    /\ (forall doc, In doc (documents (db w)) -> d_id doc <> d_id document)
    /\ (exists user',
          find_user (db (snd run)) user_id = Some user'
          /\ u_document_count user' = count_documents (db (snd run)) user_id
          /\ u_document_count user' = count_documents (db w) user_id + 1)
    /\ vs (snd run) = s
    /\ map su_progress (updates (snd run))
       = map su_progress (updates w) ++ [0; 25; 50; 75; 100].
Proof.
  intros store settings b64decode sha256_hexdigest extract_text_from_pdf
    suffix_lower add_chunks str_of_exn w user_id filename file_content_b64
    file_content user text_content content_hash s Acc document Hadd run.
  pose proof (run_job_accepted store settings b64decode sha256_hexdigest
                extract_text_from_pdf suffix_lower add_chunks str_of_exn
                w user_id filename file_content_b64 file_content user
                text_content content_hash Acc) as R.
  cbv zeta in R. fold document in R. rewrite Hadd in R.
  destruct Acc as (_ & _ & Hu & _).
  pose proof (find_user_id _ _ _ Hu) as Hid.
  unfold run. rewrite R. cbn [fst snd db vs updates].
  split; [eexists; repeat split |].
  split; [reflexivity |].
  split.
  { intros doc Hdoc. unfold document, new_document. cbn [d_id].
    pose proof (fresh_id_above (map d_id (documents (db w))) (d_id doc)
                  (in_map d_id _ _ Hdoc)). lia. }
  split.
  { eexists. split; [| split].
    - apply (find_user_store_user _ user); [exact Hu | exact Hid].
    - reflexivity.
    - cbn [u_document_count]. now apply count_documents_insert. }
  split; [reflexivity |].
  rewrite !map_app. cbn [map su_progress]. now rewrite <- !app_assoc.
Qed.

(** In the example world user 1 (one document, hash "h1") uploads the
    two bytes "hi" as notes.txt; the digest of every upload is "h2". *)
Lemma example_upload_accepted :
  accepted unit example_settings (fun _ => Ret [x68; x69])
    (fun _ => lit "h2") (fun _ => Raise (ValueError (lit "not a PDF")))
    (fun _ => lit ".txt") example_world 1 (lit "notes.txt") (lit "aGk=")
    [x68; x69]
    {| u_id := 1; u_document_count := 1; u_query_count_today := 100;
       u_last_query_date := Some 86400000 |}
    (lit "hi") (lit "h2").
Proof.
  unfold accepted.
  split; [reflexivity |]. split; [reflexivity |]. split; [reflexivity |].
  split; [cbn; lia |]. split; [reflexivity |]. split.
  - intros doc [<- | []] [H _]. vm_compute in H. discriminate H.
  - vm_compute. discriminate.
Defined.

Lemma process_document_async_success_witness :
  let run :=
    process_document_async unit example_settings
      (fun _ => Ret [x68; x69]) (fun _ => lit "h2")
      (fun _ => Raise (ValueError (lit "not a PDF"))) (fun _ => lit ".txt")
      (fun s _ _ _ => Ret s) (fun _ => lit "error")
      1 (lit "notes.txt") (lit "aGk=") example_world in
  documents (db (snd run))
  = documents example_database
    ++ [ {| d_id := 8; d_filename := lit "notes.txt";
            d_content_hash := lit "h2"; d_chunk_count := 1;
            d_file_size := 2; d_user_id := 1 |} ]
  /\ map su_progress (updates (snd run)) = [0; 25; 50; 75; 100].
Proof.
  pose proof (process_document_async_success unit example_settings
                (fun _ => Ret [x68; x69]) (fun _ => lit "h2")
                (fun _ => Raise (ValueError (lit "not a PDF")))
                (fun _ => lit ".txt")
                (fun s _ _ _ => Ret s) (fun _ => lit "error")
                example_world 1 (lit "notes.txt") (lit "aGk=") [x68; x69]
                _ (lit "hi") (lit "h2") tt example_upload_accepted eq_refl)
    as (_ & D & _ & _ & _ & P).
  split; [exact D | exact P].
Defined.

(** A task submitted anew has nothing stored under its id. *)
Definition new_task {store : Type} (w : world store) : world store :=
  {| db := db w; vs := vs w; updates := [];
     clock := clock w; ticks := ticks w |}.

(** X16.  An upload that is accepted but whose chunks the vector
    store refuses: the document record is committed before the store is
    called and stays; the execution raises the store's exception and is
    retried; the retried execution raises the result backend's error at
    its first [update_state]; and the same upload submitted as a new
    task is answered as a duplicate of the record without chunks. *)
Theorem process_document_async_store_failure :
  forall (store : Type) (settings : Settings)
         (b64decode : str -> res Codecs.bytes)
         (sha256_hexdigest : Codecs.bytes -> str)
         (extract_text_from_pdf : Codecs.bytes -> res str)
         (suffix_lower : str -> str)
         (add_chunks : store -> list str -> Z -> Z -> res store)
         (str_of_exn : exn -> str)
         (w : world store) (user_id : Z) (filename file_content_b64 : str)
         (file_content : Codecs.bytes) (user : User)
         (text_content content_hash : str) (e : exn),
    accepted store settings b64decode sha256_hexdigest
      extract_text_from_pdf suffix_lower w user_id filename
      file_content_b64 file_content user text_content content_hash ->
    let document :=
      new_document (db w) user_id filename file_content text_content
        content_hash in
    add_chunks (vs w) (split_with_defaults text_content)
      (d_id document) user_id = Raise e ->
    let job :=
      process_document_async store settings b64decode sha256_hexdigest
        extract_text_from_pdf suffix_lower add_chunks str_of_exn
        user_id filename file_content_b64 in
    let run := job w in
    let retried := job (snd run) in
    let resubmitted := job (new_task (snd run)) in
    fst run = Raise e
    /\ run_task process_document_options 0 (fst run) = RetryScheduled e 60
    /\ documents (db (snd run)) = documents (db w) ++ [document]
    /\ users (db (snd run)) = users (db w)
    /\ vs (snd run) = vs w
    /\ retried = (Raise meta_read_error, snd run)
    /\ fst resubmitted = Ret (duplicate_result (d_id document))
    /\ db (snd resubmitted) = db (snd run)
    /\ vs (snd resubmitted) = vs w.
Proof.
  intros store settings b64decode sha256_hexdigest extract_text_from_pdf
    suffix_lower add_chunks str_of_exn w user_id filename file_content_b64
    file_content user text_content content_hash e Acc document
    Hadd job run retried resubmitted.
  pose proof (run_job_accepted store settings b64decode sha256_hexdigest
                extract_text_from_pdf suffix_lower add_chunks str_of_exn
                w user_id filename file_content_b64 file_content user
                text_content content_hash Acc) as R.
  cbv zeta in R. fold document in R. rewrite Hadd in R.
  destruct Acc as (Hw & Hb & Hu & Hcap & Hp & Hnew & Hfits).
  assert (Run : run = _) by exact R. clear R.
  assert (Again :
    exists existing,
      In existing (documents (db (new_task (snd run))))
      /\ d_content_hash existing = content_hash
      /\ d_user_id existing = user_id
      /\ fst resubmitted = Ret (duplicate_result (d_id existing))
      /\ db (snd resubmitted) = db (new_task (snd run))
      /\ vs (snd resubmitted) = vs (new_task (snd run))).
  { apply (process_document_async_duplicate store settings b64decode
             sha256_hexdigest extract_text_from_pdf suffix_lower add_chunks
             str_of_exn (new_task (snd run)) user_id filename
             file_content_b64 file_content user text_content content_hash
             document).
    - reflexivity.
    - exact Hb.
    - rewrite Run. exact Hu.
    - exact Hcap.
    - exact Hp.
    - rewrite Run. cbn [new_task snd db insert_document documents].
      apply in_or_app. right. now left.
    - reflexivity.
    - reflexivity. }
  destruct Again as (existing & Hin & Hh & Hd & F & D & V).
  assert (existing = document) as ->.
  { rewrite Run in Hin.
    cbn [new_task snd db insert_document documents] in Hin.
    apply in_app_or in Hin as [Hin | [<- | []]]; [| reflexivity].
    exfalso. apply (Hnew existing Hin). auto. }
  assert (Retried : retried = (Raise meta_read_error, snd run)).
  { unfold retried, job.
    apply (process_document_async_after_failure store settings b64decode
             sha256_hexdigest extract_text_from_pdf suffix_lower add_chunks
             str_of_exn (snd run) user_id filename file_content_b64
             (failure_update str_of_exn e)); [| reflexivity].
    rewrite Run. cbn [snd updates]. apply current_meta_app. }
  rewrite F, D, V, Retried. rewrite Run.
  cbn [new_task fst snd db vs run_task].
  repeat split.
Qed.

Lemma process_document_async_store_failure_witness :
  let job :=
    process_document_async unit example_settings
      (fun _ => Ret [x68; x69]) (fun _ => lit "h2")
      (fun _ => Raise (ValueError (lit "not a PDF"))) (fun _ => lit ".txt")
      (fun _ _ _ _ => Raise RequestsConnectionError) (fun _ => lit "error")
      1 (lit "notes.txt") (lit "aGk=") in
  let run := job example_world in
  fst run = Raise RequestsConnectionError
  /\ run_task process_document_options 0 (fst run)
     = RetryScheduled RequestsConnectionError 60
  /\ fst (job (snd run)) = Raise meta_read_error
  /\ fst (job (new_task (snd run))) = Ret (duplicate_result 8).
Proof.
  pose proof (process_document_async_store_failure unit example_settings
                (fun _ => Ret [x68; x69]) (fun _ => lit "h2")
                (fun _ => Raise (ValueError (lit "not a PDF")))
                (fun _ => lit ".txt")
                (fun _ _ _ _ => Raise RequestsConnectionError)
                (fun _ => lit "error")
                example_world 1 (lit "notes.txt") (lit "aGk=") [x68; x69]
                _ (lit "hi") (lit "h2") RequestsConnectionError
                example_upload_accepted eq_refl)
    as (F & T & _ & _ & _ & R & D & _).
  split; [exact F | split; [exact T | split; [| exact D]]].
  cbv zeta in R. now rewrite R.
Defined.

(** X17.  Whatever the upload, the world and the outcome,
    [process_document_async] writes no query log, adds at most one
    document, which belongs to the uploader under the given file name,
    and leaves every other user's row as it was. *)
Theorem process_document_async_touches_only_uploader :
  forall (store : Type) (settings : Settings)
         (b64decode : str -> res Codecs.bytes)
         (sha256_hexdigest : Codecs.bytes -> str)
         (extract_text_from_pdf : Codecs.bytes -> res str)
         (suffix_lower : str -> str)
         (add_chunks : store -> list str -> Z -> Z -> res store)
         (str_of_exn : exn -> str)
         (w : world store) (user_id : Z) (filename file_content_b64 : str),
    let after :=
      db (snd (process_document_async store settings b64decode
                 sha256_hexdigest extract_text_from_pdf suffix_lower
                 add_chunks str_of_exn user_id filename file_content_b64
                 w)) in
    query_logs after = query_logs (db w)
    /\ (documents after = documents (db w)
        \/ exists doc,
             documents after = documents (db w) ++ [doc]
             /\ d_user_id doc = user_id /\ d_filename doc = filename)
    /\ map u_id (users after) = map u_id (users (db w))
    /\ (forall u, In u (users (db w)) -> u_id u <> user_id ->
                  In u (users after)).
Proof.
  intros store settings b64decode sha256_hexdigest extract_text_from_pdf
    suffix_lower add_chunks str_of_exn w user_id filename file_content_b64.
  cbv zeta.
  set (touched := fun after : database =>
    query_logs after = query_logs (db w)
    /\ (documents after = documents (db w)
        \/ exists doc,
             documents after = documents (db w) ++ [doc]
             /\ d_user_id doc = user_id /\ d_filename doc = filename)
    /\ map u_id (users after) = map u_id (users (db w))
    /\ (forall u, In u (users (db w)) -> u_id u <> user_id ->
                  In u (users after))).
  change (touched
            (db (snd (process_document_async store settings b64decode
                        sha256_hexdigest extract_text_from_pdf suffix_lower
                        add_chunks str_of_exn user_id filename
                        file_content_b64 w)))).
  assert (Untouched : touched (db w)) by (unfold touched; auto).
  assert (Inserted : forall doc,
    d_user_id doc = user_id -> d_filename doc = filename ->
    touched (insert_document doc (db w))).
  { intros doc Hd Hf. unfold touched.
    cbn [insert_document query_logs documents users].
    split; [reflexivity |]. split; [right; exists doc; auto |]. auto. }
  assert (Counted : forall doc user n,
    find_user (db w) user_id = Some user ->
    d_user_id doc = user_id -> d_filename doc = filename ->
    touched
      (store_user
         {| u_id := u_id user; u_document_count := n;
            u_query_count_today := u_query_count_today user;
            u_last_query_date := u_last_query_date user |}
         (insert_document doc (db w)))).
  { intros doc user n Hu Hd Hf. unfold touched.
    pose proof (find_user_id _ _ _ Hu) as Hid.
    split; [reflexivity |]. split; [right; exists doc; auto |].
    split; [rewrite store_user_ids; reflexivity |].
    intros u Hin N.
    apply (store_user_others _ (insert_document doc (db w))); [exact Hin |].
    cbn [u_id]. congruence. }
  unfold process_document_async. unfold job_try.
  match goal with
  | |- touched (db (snd (match ?body w with _ => _ end))) =>
      assert (Body : touched (db (snd (body w))));
      [| destruct (body w) as [[r | e] w']; cbn [snd] in *;
         [exact Body | now rewrite report_failure_db]]
  end.
  unfold on_store. job_steps. update_frame.
  destruct r as [[] | e]; world_fields; [| exact Untouched].
  destruct (b64decode file_content_b64) as [file_content |];
    [| exact Untouched].
  world_fields.
  destruct (find_user (db w) user_id) as [user |] eqn:Hu;
    [| exact Untouched].
  destruct (u_document_count user >=? max_documents_per_user settings);
    [exact Untouched |].
  update_frame.
  destruct r as [[] | e]; world_fields; [| exact Untouched].
  destruct (TextExtraction.process_document sha256_hexdigest
              extract_text_from_pdf suffix_lower filename file_content)
    as [[text_content content_hash] |]; [| exact Untouched].
  cbn [fst snd].
  destruct (find_duplicate (db w) content_hash user_id);
    [exact Untouched |].
  update_frame.
  destruct r as [[] | e]; world_fields; [| exact Untouched].
  destruct (len (split_with_defaults text_content)
            >? max_chunks_per_document settings); [exact Untouched |].
  world_fields. update_frame.
  destruct r as [[] | e]; world_fields;
    [| now apply Inserted].
  match goal with
  | |- context [add_chunks ?a ?b ?c ?d] => destruct (add_chunks a b c d)
  end; world_fields; [| now apply Inserted].
  update_frame.
  destruct r as [[] | e]; world_fields; now apply Counted.
Qed.

(** **** Deletion *)

Lemma find_unique_document (l : list Document) (document : Document) :
  NoDup (map d_id l) -> In document l ->
  find (fun doc => (d_id doc =? d_id document)
                   && (d_user_id doc =? d_user_id document)) l
  = Some document.
Proof.
  induction l as [|x l IH]; cbn [map find In]; [tauto |].
  intros N. inversion N as [| ? ? Nx Nl]; subst.
  intros [-> | Hin].
  - now rewrite !Z.eqb_refl.
  - destruct (Z.eqb_spec (d_id x) (d_id document)) as [E | _].
    + exfalso. apply Nx. rewrite E. now apply in_map.
    + cbn [andb]. now apply IH.
Qed.

Lemma remove_unique_document (l : list Document) (document : Document)
  (x : Document) :
  NoDup (map d_id l) -> In document l ->
  In x (filter (fun doc => negb (d_id doc =? d_id document)) l)
  <-> In x l /\ x <> document.
Proof.
  intros N Hin. rewrite filter_In, negb_true_iff, Z.eqb_neq. split.
  - intros [Hx Ne]. split; [exact Hx | congruence].
  - intros [Hx Ne]. split; [exact Hx |]. intros E. apply Ne.
    clear Ne. revert N Hin Hx E.
    induction l as [|y l IH]; cbn [map In]; [tauto |].
    intros N. inversion N as [| ? ? Ny Nl]; subst.
    intros [-> | Hd] [-> | Hx] E.
    + reflexivity.
    + exfalso. apply Ny. rewrite <- E. now apply in_map.
    + exfalso. apply Ny. rewrite E. now apply in_map.
    + now apply IH.
Qed.

Lemma count_after_removal (l : list Document) (document : Document) :
  NoDup (map d_id l) -> In document l ->
  len (filter (fun doc => d_user_id doc =? d_user_id document)
         (filter (fun doc => negb (d_id doc =? d_id document)) l))
  = len (filter (fun doc => d_user_id doc =? d_user_id document) l) - 1.
Proof.
  unfold len.
  induction l as [|y l IH]; cbn [map In filter]; [tauto |].
  intros N. inversion N as [| ? ? Ny Nl]; subst.
  intros [-> | Hd].
  - rewrite !Z.eqb_refl. cbn [negb List.length].
    assert (F : filter (fun doc => negb (d_id doc =? d_id document)) l = l).
    { apply forallb_filter_id, forallb_forall. intros x Hx.
      apply negb_true_iff, Z.eqb_neq. intros E. apply Ny.
      rewrite <- E. now apply in_map. }
    rewrite F. lia.
  - destruct (Z.eqb_spec (d_id y) (d_id document)) as [E | _].
    + exfalso. apply Ny. rewrite E. now apply in_map.
    + cbn [negb filter].
      specialize (IH Nl Hd).
      destruct (d_user_id y =? d_user_id document); cbn [List.length];
        lia.
Qed.

(** X18.  [delete_document_async] never raises, so it is never
    retried: it returns a result with status "success", or one with
    status "error" and leaves the world as it was. *)
Theorem delete_document_async_never_raises :
  forall (store : Type)
         (delete_document_chunks : store -> Z -> Z -> res store)
         (str_of_exn : exn -> str)
         (w : world store) (document_id user_id retries : Z),
    let run :=
      delete_document_async store delete_document_chunks str_of_exn
        document_id user_id w in
    exists r,
      fst run = Ret r
      /\ run_task delete_document_options retries (fst run) = Succeeded r
      /\ (assoc_get (lit "status") r = Some (PStr (lit "success"))
          \/ assoc_get (lit "status") r = Some (PStr (lit "error"))
             /\ snd run = w).
Proof.
  intros store delete_document_chunks str_of_exn w document_id user_id
    retries. cbv zeta.
  unfold delete_document_async, on_store. job_steps.
  destruct (find _ (documents (db w))) as [document |].
  - destruct (delete_document_chunks (vs w) document_id user_id).
    + eexists. split; [reflexivity |]. split; [reflexivity |].
      left. reflexivity.
    + eexists. split; [reflexivity |]. split; [reflexivity |].
      right. split; reflexivity.
  - eexists. split; [reflexivity |]. split; [reflexivity |].
    right. split; reflexivity.
Qed.

(** X19.  Deleting a stored document whose chunks the vector store
    deletes: the record goes, and no other; the actual document count
    of the owner drops by one, but the count stored on the user is the
    count from before the deletion, because the session does not flush
    the pending delete before counting. *)
Theorem delete_document_async_success :
  forall (store : Type)
         (delete_document_chunks : store -> Z -> Z -> res store)
         (str_of_exn : exn -> str)
         (w : world store) (document : Document) (user : User) (s : store),
    NoDup (map d_id (documents (db w))) ->
    In document (documents (db w)) ->
    find_user (db w) (d_user_id document) = Some user ->
    delete_document_chunks (vs w) (d_id document) (d_user_id document)
    = Ret s ->
    let run :=
      delete_document_async store delete_document_chunks str_of_exn
        (d_id document) (d_user_id document) w in
    let after := db (snd run) in
    fst run
    = Ret [(lit "status", PStr (lit "success"));
           (lit "message", PStr (lit "Document deleted successfully"));
           (lit "document_id", PInt (d_id document))]
    /\ vs (snd run) = s
    /\ (forall x, In x (documents after)
                  <-> In x (documents (db w)) /\ x <> document)
    /\ count_documents after (d_user_id document)
       = count_documents (db w) (d_user_id document) - 1
    /\ exists user',
         find_user after (d_user_id document) = Some user'
         /\ u_document_count user'
            = count_documents (db w) (d_user_id document).
Proof.
  intros store delete_document_chunks str_of_exn w document user s
    N Hin Hu Hdel. cbv zeta.
  unfold delete_document_async, on_store. job_steps.
  rewrite (find_unique_document _ document N Hin).
  world_fields. rewrite Hdel. world_fields. rewrite Hu.
  split; [reflexivity |]. split; [reflexivity |].
  split; [| split].
  - intros x. unfold store_user, remove_document. cbn [documents].
    now apply remove_unique_document.
  - unfold count_documents, store_user, remove_document. cbn [documents].
    now apply count_after_removal.
  - eexists. split.
    + apply (find_user_store_user (remove_document _ (db w)) user);
        [exact Hu |].
      cbn [u_id]. now apply (find_user_id (db w)).
    + reflexivity.
Qed.

Lemma delete_document_async_success_witness :
  let run :=
    delete_document_async unit (fun s _ _ => Ret s) (fun _ => lit "error")
      7 1 example_world in
  count_documents (db (snd run)) 1 = 0
  /\ exists user',
       find_user (db (snd run)) 1 = Some user'
       /\ u_document_count user' = 1.
Proof.
  pose proof (delete_document_async_success unit (fun s _ _ => Ret s)
                (fun _ => lit "error") example_world
                {| d_id := 7; d_filename := lit "demo.txt";
                   d_content_hash := lit "h1"; d_chunk_count := 1;
                   d_file_size := 2; d_user_id := 1 |}
                {| u_id := 1; u_document_count := 1;
                   u_query_count_today := 100;
                   u_last_query_date := Some 86400000 |}
                tt) as H.
  destruct H as (_ & _ & _ & C & U).
  - repeat constructor. cbn. tauto.
  - left. reflexivity.
  - reflexivity.
  - reflexivity.
  - split; [exact C | exact U].
Defined.

End DocumentJobProps.

(* ------------------------------------------------------------------ *)
(** *** [bulk_delete_user_documents] (document_tasks.py, lines 196-234) *)

Module BulkDelete.
Import Py VectorStore Jobs Tasks.

(** [for doc in documents: db.delete(doc)] *)
Definition remove_documents (docs : list Document) (d : database)
  : database :=
  fold_left (fun acc doc => remove_document (d_id doc) acc) docs d.

Section Tasks.

Variable store : Type.

(** [vector_store.delete_user_data] and [str(e)]. *)
Variable delete_user_data : store -> Z -> res store.
Variable str_of_exn : exn -> str.

Local Open Scope job_scope.

(** [bulk_delete_user_documents(user_id)] *)
Definition bulk_delete_user_documents (user_id : Z) : job store result :=
  job_try
    (d <- get_db ;;
     let documents :=
       filter (fun doc => d_user_id doc =? user_id) (documents d) in
     on_store (fun s => delete_user_data s user_id) ;;;
     commit (fun d0 =>
               let d1 := remove_documents documents d0 in
               match find_user d user_id with
               | Some user =>
                   store_user
                     {| u_id := u_id user;
                        u_document_count := 0;
                        u_query_count_today := u_query_count_today user;
                        u_last_query_date := u_last_query_date user |}
                     d1
               | None => d1
               end) ;;;
     ret [(lit "status", PStr (lit "success"));
          (lit "message",
           PStr (lit "Deleted " ++ str_of_int (len documents)
                 ++ lit " documents for user " ++ str_of_int user_id));
          (lit "deleted_count", PInt (len documents))])
    (fun e =>
       ret [(lit "status", PStr (lit "error"));
            (lit "message", PStr (str_of_exn e))]).

End Tasks.

End BulkDelete.

Module BulkDeleteProps.
Import Py VectorStore Jobs JobsProps Tasks KeyedProps QaTaskProps BulkDelete.
Import DocumentTaskProps DocumentJobProps.

Lemma remove_documents_documents (docs : list Document) (d : database) :
  documents (remove_documents docs d)
  = filter (fun doc => negb (existsb (fun x => d_id doc =? d_id x) docs))
           (documents d).
Proof.
  unfold remove_documents. revert d.
  induction docs as [|x docs IH]; intros d; cbn [fold_left existsb].
  - symmetry. apply forallb_filter_id, forallb_forall. reflexivity.
  - rewrite IH. unfold remove_document. cbn [documents].
    induction (documents d) as [|y l IHl]; [reflexivity |].
    cbn [filter].
    destruct (d_id y =? d_id x); cbn [negb orb filter]; [exact IHl |].
    destruct (negb (existsb (fun x0 => d_id y =? d_id x0) docs));
      [f_equal |]; exact IHl.
Qed.

Lemma remove_documents_rest (docs : list Document) (d : database) :
  users (remove_documents docs d) = users d
  /\ query_logs (remove_documents docs d) = query_logs d.
Proof.
  unfold remove_documents. revert d.
  induction docs as [|x docs IH]; intros d; cbn [fold_left]; [auto |].
  destruct (IH (remove_document (d_id x) d)) as [-> ->]. auto.
Qed.

(** With distinct primary keys, deleting a user's documents by key
    removes the documents of that user and no other. *)
Lemma remove_documents_of_user (l : list Document) (user_id : Z) :
  NoDup (map d_id l) ->
  filter (fun doc =>
            negb (existsb (fun x => d_id doc =? d_id x)
                    (filter (fun doc => d_user_id doc =? user_id) l))) l
  = filter (fun doc => negb (d_user_id doc =? user_id)) l.
Proof.
  intros N. apply filter_ext_in. intros doc Hdoc. f_equal.
  destruct (d_user_id doc =? user_id) eqn:U.
  - apply existsb_exists. exists doc. rewrite filter_In.
    split; [tauto | apply Z.eqb_refl].
  - destruct (existsb _ _) eqn:X; [| reflexivity].
    apply existsb_exists in X as (x & Hx & K).
    apply filter_In in Hx as [Hx Ux]. apply Z.eqb_eq in K.
    assert (doc = x); [| congruence].
    clear U Ux. revert N Hdoc Hx K.
    induction l as [|y l IH]; cbn [map In]; [tauto |].
    intros N. inversion N as [| ? ? Ny Nl]; subst.
    intros [-> | Hd] [-> | Hx] E.
    + reflexivity.
    + exfalso. apply Ny. rewrite E. now apply in_map.
    + exfalso. apply Ny. rewrite <- E. now apply in_map.
    + now apply IH.
Qed.

Lemma none_of_user_left (l : list Document) (user_id : Z) :
  filter (fun doc => d_user_id doc =? user_id)
         (filter (fun doc => negb (d_user_id doc =? user_id)) l)
  = [].
Proof.
  induction l as [|y l IH]; [reflexivity |].
  cbn [filter]. destruct (d_user_id y =? user_id) eqn:E; cbn [negb filter].
  - exact IH.
  - now rewrite E.
Qed.

(** X20.  [bulk_delete_user_documents], when the vector store
    deletes the user's data: every document of the user is removed, no
    other; the result reports how many; the user's stored count is 0,
    and the other users' rows are as before. *)
Theorem bulk_delete_user_documents_success :
  forall (store : Type) (delete_user_data : store -> Z -> res store)
         (str_of_exn : exn -> str)
         (w : world store) (user_id : Z) (s : store),
    NoDup (map d_id (documents (db w))) ->
    delete_user_data (vs w) user_id = Ret s ->
    let run :=
      bulk_delete_user_documents store delete_user_data str_of_exn
        user_id w in
    let after := db (snd run) in
    (exists r,
        fst run = Ret r
        /\ assoc_get (lit "status") r = Some (PStr (lit "success"))
        /\ assoc_get (lit "deleted_count") r
           = Some (PInt (count_documents (db w) user_id)))
    /\ vs (snd run) = s
    /\ documents after
       = filter (fun doc => negb (d_user_id doc =? user_id))
                (documents (db w))
    /\ count_documents after user_id = 0
    /\ (forall user, find_user (db w) user_id = Some user ->
          exists user',
            find_user after user_id = Some user'
            /\ u_document_count user' = 0)
    /\ (forall u, In u (users (db w)) -> u_id u <> user_id ->
                  In u (users after)).
Proof.
  intros store delete_user_data str_of_exn w user_id s N Hdel. cbv zeta.
  unfold bulk_delete_user_documents, on_store. job_steps. world_fields.
  rewrite Hdel. world_fields.
  set (mine := filter (fun doc => d_user_id doc =? user_id)
                      (documents (db w))).
  assert (D : documents (remove_documents mine (db w))
              = filter (fun doc => negb (d_user_id doc =? user_id))
                       (documents (db w))).
  { rewrite remove_documents_documents. now apply remove_documents_of_user. }
  destruct (remove_documents_rest mine (db w)) as [U _].
  assert (Z0 : forall d : database,
    documents d = filter (fun doc => negb (d_user_id doc =? user_id))
                         (documents (db w)) ->
    count_documents d user_id = 0).
  { intros d Hd. unfold count_documents, len.
    now rewrite Hd, none_of_user_left. }
  split; [eexists; repeat split |].
  split; [reflexivity |].
  destruct (find_user (db w) user_id) as [user |] eqn:Hu.
  - pose proof (find_user_id _ _ _ Hu) as Hid.
    split; [exact D |]. split; [now apply Z0 |]. split.
    + intros user0 [= <-]. eexists. split.
      * apply (find_user_store_user (remove_documents mine (db w)) user).
        -- unfold find_user in *. now rewrite U.
        -- exact Hid.
      * reflexivity.
    + intros u Hin Ne.
      apply (store_user_others _ (remove_documents mine (db w)));
        [now rewrite U | cbn [u_id]; congruence].
  - split; [exact D |]. split; [now apply Z0 |]. split.
    + intros user0 [=].
    + intros u Hin _. now rewrite U.
Qed.

Lemma bulk_delete_user_documents_success_witness :
  let run :=
    bulk_delete_user_documents unit (fun s _ => Ret s)
      (fun _ => lit "error") 1 example_world in
  documents (db (snd run)) = []
  /\ count_documents (db (snd run)) 1 = 0.
Proof.
  pose proof (bulk_delete_user_documents_success unit (fun s _ => Ret s)
                (fun _ => lit "error") example_world 1 tt) as H.
  destruct H as (_ & _ & D & C & _).
  - repeat constructor. cbn. tauto.
  - reflexivity.
  - split; [exact D | exact C].
Defined.

End BulkDeleteProps.

(* ------------------------------------------------------------------ *)
(** *** The question-answering job: what a run writes *)

Module QaJobProps.
Import Py VectorStore Jobs JobsProps Tasks KeyedProps QaTaskProps.

(** A world in which user 1 has asked three questions today. *)
Definition asking_user : User :=
  {| u_id := 1; u_document_count := 1; u_query_count_today := 3;
     u_last_query_date := Some 86400000 |}.

Definition asking_world : world unit :=
  {| db := {| users := [asking_user];
              documents := documents DocumentTaskProps.example_database;
              query_logs := [] |};
     vs := tt; updates := [];
     clock := fun _ => 86400000 + 5000; ticks := 0 |}.

Lemma asking_user_within_limit :
  within_limit DocumentTaskProps.example_settings asking_user
    (check_day unit asking_world).
Proof. right. right. cbn. lia. Defined.

(** X21.  A user within the limit whose question comes without
    context and retrieves none gets the no-context result, which Celery
    records as a success; the database and the vector store are
    unchanged. *)
Theorem answer_question_async_no_context :
  forall (store : Type) (settings : Settings)
         (search_similar_chunks : store -> str -> Z -> Z -> res (list str))
         (generate_answer : str -> list str -> res str)
         (str_of_exn : exn -> str)
         (w : world store) (user_id : Z) (question : str)
         (context : option (list str)) (user : User),
    writable (updates w) = true ->
    find_user (db w) user_id = Some user ->
    within_limit settings user (check_day store w) ->
    resolved search_similar_chunks (vs w) question user_id context
    = Ret [] ->
    let run :=
      answer_question_async store settings search_similar_chunks
        generate_answer str_of_exn user_id question context w in
    fst run = Ret no_context_result
    /\ run_task answer_question_options 0 (fst run)
       = Succeeded no_context_result
    /\ db (snd run) = db w
    /\ vs (snd run) = vs w.
Proof.
  intros store settings search_similar_chunks generate_answer str_of_exn
    w user_id question context user Hw Hu Hl Hr. cbv zeta.
  destruct (run_job_no_context store settings search_similar_chunks
              generate_answer str_of_exn w user_id question context user
              Hw Hu Hl Hr) as (R & D & V).
  rewrite R. repeat split; assumption.
Qed.

Lemma answer_question_async_no_context_witness :
  let run :=
    answer_question_async unit DocumentTaskProps.example_settings
      (fun _ _ _ _ => Ret []) (fun _ _ => Ret (lit "an answer"))
      (fun _ => lit "error") 1 (lit "What is Python used for?") None
      asking_world in
  fst run = Ret no_context_result
  /\ run_task answer_question_options 0 (fst run)
     = Succeeded no_context_result
  /\ db (snd run) = db asking_world
  /\ vs (snd run) = vs asking_world.
Proof.
  apply (answer_question_async_no_context unit
           DocumentTaskProps.example_settings
           (fun _ _ _ _ => Ret []) (fun _ _ => Ret (lit "an answer"))
           (fun _ => lit "error") asking_world 1
           (lit "What is Python used for?") None asking_user).
  - reflexivity.
  - reflexivity.
  - exact asking_user_within_limit.
  - reflexivity.
Defined.

(** X22.  A user within the limit whose question has context
    (passed in, or retrieved) and gets an answer: the result carries the
    answer, the number of chunks used and the id of the log; one log
    row is added under a new id; the stored counter is the counter
    after the rate-limit check plus one; documents and vector store are
    unchanged. *)
Theorem answer_question_async_answered :
  forall (store : Type) (settings : Settings)
         (search_similar_chunks : store -> str -> Z -> Z -> res (list str))
         (generate_answer : str -> list str -> res str)
         (str_of_exn : exn -> str)
         (w : world store) (user_id : Z) (question : str)
         (context : option (list str)) (user : User)
         (c : str) (cs : list str) (answer : str),
    writable (updates w) = true ->
    find_user (db w) user_id = Some user ->
    within_limit settings user (check_day store w) ->
    resolved search_similar_chunks (vs w) question user_id context
    = Ret (c :: cs) ->
    generate_answer question (c :: cs) = Ret answer ->
    let run :=
      answer_question_async store settings search_similar_chunks
        generate_answer str_of_exn user_id question context w in
    let after := db (snd run) in
    exists r log user',
      fst run = Ret r
      /\ assoc_get (lit "status") r = Some (PStr (lit "success"))
      /\ assoc_get (lit "answer") r = Some (PStr answer)
      /\ assoc_get (lit "chunks_used") r = Some (PInt (len (c :: cs)))
      /\ assoc_get (lit "query_id") r = Some (PInt (q_id log))
      /\ query_logs after = query_logs (db w) ++ [log]
      /\ q_user_id log = user_id /\ q_question log = question
      /\ q_answer log = answer /\ q_chunks_used log = len (c :: cs)
      /\ (forall l, In l (query_logs (db w)) -> q_id l <> q_id log)
      /\ find_user after user_id = Some user'
      /\ u_query_count_today user'
         = counter_after_check settings user (check_day store w) + 1
      /\ documents after = documents (db w)
      /\ vs (snd run) = vs w.
Proof.
  intros store settings search_similar_chunks generate_answer str_of_exn
    w user_id question context user c cs answer Hw Hu Hl Hr Hg.
  exact (run_job_answered store settings search_similar_chunks
           generate_answer str_of_exn w user_id question context user
           c cs answer Hw Hu Hl Hr Hg).
Qed.

Lemma answer_question_async_answered_witness :
  let run :=
    answer_question_async unit DocumentTaskProps.example_settings
      (fun _ _ _ _ => Ret [lit "Python is a language."])
      (fun _ _ => Ret (lit "an answer"))
      (fun _ => lit "error") 1 (lit "What is Python used for?") None
      asking_world in
  exists log user',
    query_logs (db (snd run)) = [log]
    /\ q_answer log = lit "an answer" /\ q_chunks_used log = 1
    /\ find_user (db (snd run)) 1 = Some user'
    /\ u_query_count_today user' = 4.
Proof.
  destruct (answer_question_async_answered unit
              DocumentTaskProps.example_settings
              (fun _ _ _ _ => Ret [lit "Python is a language."])
              (fun _ _ => Ret (lit "an answer"))
              (fun _ => lit "error") asking_world 1
              (lit "What is Python used for?") None asking_user
              (lit "Python is a language.") [] (lit "an answer")
              eq_refl eq_refl asking_user_within_limit eq_refl eq_refl)
    as (r & log & user' & _ & _ & _ & _ & _ & L & _ & _ & A & C & _ & F & Q
        & _).
  exists log, user'. auto.
Defined.

(** Retrieval or the answer generator raises [e]. *)
Definition backend_raises {store : Type}
  (search_similar_chunks : store -> str -> Z -> Z -> res (list str))
  (generate_answer : str -> list str -> res str)
  (s : store) (question : str) (user_id : Z) (context : option (list str))
  (e : exn) : Prop :=
  resolved search_similar_chunks s question user_id context = Raise e
  \/ exists c cs,
       resolved search_similar_chunks s question user_id context
       = Ret (c :: cs)
       /\ generate_answer question (c :: cs) = Raise e.

(** X23.  When retrieval or the answer generator raises, the
    job raises that exception, writes nothing to the database, is
    retried after 30 seconds, and has stored a FAILURE meta; the retried
    execution raises the result backend's error and writes nothing. *)
Theorem answer_question_async_backend_failure :
  forall (store : Type) (settings : Settings)
         (search_similar_chunks : store -> str -> Z -> Z -> res (list str))
         (generate_answer : str -> list str -> res str)
         (str_of_exn : exn -> str)
         (w : world store) (user_id : Z) (question : str)
         (context : option (list str)) (user : User) (e : exn),
    writable (updates w) = true ->
    find_user (db w) user_id = Some user ->
    within_limit settings user (check_day store w) ->
    backend_raises search_similar_chunks generate_answer (vs w) question
      user_id context e ->
    let job :=
      answer_question_async store settings search_similar_chunks
        generate_answer str_of_exn user_id question context in
    let run := job w in
    fst run = Raise e
    /\ run_task answer_question_options 0 (fst run) = RetryScheduled e 30
    /\ db (snd run) = db w
    /\ vs (snd run) = vs w
    /\ current_meta (updates (snd run)) = Some (failure_update str_of_exn e)
    /\ fst (job (snd run)) = Raise meta_read_error
    /\ db (snd (job (snd run))) = db w.
Proof.
  intros store settings search_similar_chunks generate_answer str_of_exn
    w user_id question context user e Hw Hu Hl Hb. cbv zeta.
  assert (Run : exists us n,
    answer_question_async store settings search_similar_chunks
      generate_answer str_of_exn user_id question context w
    = (Raise e,
       {| db := db w; vs := vs w;
          updates := us ++ [failure_update str_of_exn e];
          clock := clock w; ticks := n |})).
  { destruct (run_job_within_limit store settings search_similar_chunks
                generate_answer str_of_exn w user_id question context user
                Hw Hu Hl) as (user' & n & -> & _).
    unfold backend_raises, resolved in Hb.
    unfold job_try, answer_for, report_failure. job_steps.
    destruct (truthy_opt context) eqn:T; cbn [negb]; world_fields.
    - destruct Hb as [Hb | (c & cs & Hr & Hg)]; [discriminate |].
      injection Hr as Hr. rewrite Hr. cbn [truthy negb fst snd].
      stores_meta. rewrite Hg. stores_meta.
      do 2 eexists. reflexivity.
    - stores_meta. destruct Hb as [Hb | (c & cs & Hr & Hg)].
      + rewrite Hb. stores_meta. do 2 eexists. reflexivity.
      + rewrite Hr. cbn [truthy negb fst snd]. stores_meta.
        rewrite Hg. stores_meta. do 2 eexists. reflexivity. }
  destruct Run as (us & n & ->). world_fields.
  rewrite (run_job_after_failure store settings search_similar_chunks
             generate_answer str_of_exn _ user_id question context
             (failure_update str_of_exn e));
    [| apply current_meta_app | reflexivity].
  world_fields. repeat split. apply current_meta_app.
Qed.

Lemma answer_question_async_backend_failure_witness :
  let job :=
    answer_question_async unit DocumentTaskProps.example_settings
      (fun _ _ _ _ => Ret [lit "Python is a language."])
      (fun _ _ => Raise RequestsTimeout)
      (fun _ => lit "error") 1 (lit "What is Python used for?") None in
  let run := job asking_world in
  fst run = Raise RequestsTimeout
  /\ run_task answer_question_options 0 (fst run)
     = RetryScheduled RequestsTimeout 30
  /\ db (snd run) = db asking_world
  /\ fst (job (snd run)) = Raise meta_read_error.
Proof.
  destruct (answer_question_async_backend_failure unit
              DocumentTaskProps.example_settings
              (fun _ _ _ _ => Ret [lit "Python is a language."])
              (fun _ _ => Raise RequestsTimeout)
              (fun _ => lit "error") asking_world 1
              (lit "What is Python used for?") None asking_user
              RequestsTimeout eq_refl eq_refl asking_user_within_limit)
    as (F & T & D & _ & _ & R & _).
  - right. exists (lit "Python is a language."), []. split; reflexivity.
  - auto.
Defined.

(** X24.  Whatever the question, the world and the outcome,
    [answer_question_async] leaves documents, vector store and the rows
    of other users alone, and either leaves the database as it was or
    adds exactly one log row, of the asker and of the question. *)
Theorem answer_question_async_touches_only_asker :
  forall (store : Type) (settings : Settings)
         (search_similar_chunks : store -> str -> Z -> Z -> res (list str))
         (generate_answer : str -> list str -> res str)
         (str_of_exn : exn -> str)
         (w : world store) (user_id : Z) (question : str)
         (context : option (list str)),
    let run :=
      answer_question_async store settings search_similar_chunks
        generate_answer str_of_exn user_id question context w in
    let after := db (snd run) in
    documents after = documents (db w)
    /\ vs (snd run) = vs w
    /\ map u_id (users after) = map u_id (users (db w))
    /\ (forall u, In u (users (db w)) -> u_id u <> user_id ->
                  In u (users after))
    /\ (after = db w
        \/ exists log,
             query_logs after = query_logs (db w) ++ [log]
             /\ q_user_id log = user_id /\ q_question log = question).
Proof.
  intros store settings search_similar_chunks generate_answer str_of_exn
    w user_id question context. cbv zeta.
  set (touched := fun w' : world store =>
    documents (db w') = documents (db w)
    /\ vs w' = vs w
    /\ map u_id (users (db w')) = map u_id (users (db w))
    /\ (forall u, In u (users (db w)) -> u_id u <> user_id ->
                  In u (users (db w')))
    /\ (db w' = db w
        \/ exists log,
             query_logs (db w') = query_logs (db w) ++ [log]
             /\ q_user_id log = user_id /\ q_question log = question)).
  change (touched
            (snd (answer_question_async store settings search_similar_chunks
                    generate_answer str_of_exn user_id question context w))).
  assert (Untouched : forall us n,
    touched {| db := db w; vs := vs w; updates := us;
               clock := clock w; ticks := n |}).
  { intros us n. unfold touched. world_fields. auto 10. }
  assert (Logged : forall (user' : User) log us n,
    u_id user' = user_id ->
    q_user_id log = user_id -> q_question log = question ->
    touched {| db := store_user user' (insert_query_log log (db w));
               vs := vs w; updates := us;
               clock := clock w; ticks := n |}).
  { intros user' log us n Hid Hl Hq. unfold touched. world_fields.
    split; [reflexivity |]. split; [reflexivity |].
    split; [rewrite store_user_ids; reflexivity |].
    split.
    - intros u Hin N.
      apply (store_user_others _ (insert_query_log _ (db w)));
        [exact Hin | congruence].
    - right. exists log. auto. }
  assert (Failure : forall (e : exn) (w' : world store),
    touched w' ->
    touched (snd (report_failure store str_of_exn (A := result) e w'))).
  { intros e w' T. unfold report_failure. job_steps. update_frame.
    destruct w' as [d s us' c t].
    destruct r as [[] | e']; exact T. }
  unfold answer_question_async. unfold job_try.
  match goal with
  | |- touched (snd (match ?body w with _ => _ end)) =>
      assert (Body : touched (snd (body w)));
      [| destruct (body w) as [[r | e] w']; cbn [snd] in *;
         [exact Body | now apply Failure]]
  end.
  job_steps. world_fields. update_frame.
  destruct r as [[] | e]; world_fields; [| now apply Untouched].
  destruct (find_user (db w) user_id) as [user |] eqn:Hu;
    [| now apply Untouched].
  pose proof (find_user_id _ _ _ Hu) as Hid.
  assert (Answer : forall (user' : User) (us : list state_update) (n : nat),
    u_id user' = user_id ->
    touched
      (snd (answer_for store search_similar_chunks generate_answer
              user' (clock w (ticks w)) user_id question context
              {| db := db w; vs := vs w; updates := us;
                 clock := clock w; ticks := n |}))).
  { intros user' us0 n Hid'.
    unfold answer_for. job_steps.
    destruct (truthy_opt context); cbn [negb]; world_fields.
    - destruct (truthy (match context with Some c => c | None => [] end));
        cbn [negb]; world_fields; [| now apply Untouched].
      update_frame.
      destruct r as [[] | e]; world_fields; [| now apply Untouched].
      destruct (generate_answer question _); world_fields;
        [| now apply Untouched].
      update_frame.
      destruct r as [[] | e]; world_fields; [| now apply Untouched].
      update_frame.
      destruct r as [[] | e]; world_fields; now apply Logged.
    - update_frame.
      destruct r as [[] | e]; world_fields; [| now apply Untouched].
      destruct (search_similar_chunks (vs w) question user_id 5)
        as [similar_chunks |]; world_fields; [| now apply Untouched].
      destruct (truthy similar_chunks); cbn [negb]; world_fields;
        [| now apply Untouched].
      update_frame.
      destruct r as [[] | e]; world_fields; [| now apply Untouched].
      destruct (generate_answer question similar_chunks); world_fields;
        [| now apply Untouched].
      update_frame.
      destruct r as [[] | e]; world_fields; [| now apply Untouched].
      update_frame.
      destruct r as [[] | e]; world_fields; now apply Logged. }
  unfold check_rate_limit. job_steps.
  destruct (rate_limit_enabled settings); world_fields.
  - destruct (u_last_query_date user) as [last |]; world_fields.
    + destruct (date_of last =? date_of (clock w (S (ticks w))));
        world_fields.
      * destruct (u_query_count_today user
                  >=? max_queries_per_hour settings); world_fields.
        -- now apply Untouched.
        -- now apply (Answer user).
      * now apply (Answer (reset_user user _)).
    + now apply (Answer (reset_user user _)).
  - now apply (Answer user).
Qed.

End QaJobProps.

(* ================================================================== *)
(** ** app/utils/task_monitor.py: tracking, listing and retrying tasks *)
(* ================================================================== *)

(** The Redis commands the monitor issues, on a database that holds
    strings and lists.  The keys of the two kinds never meet (they
    start with "task_meta:" and with "user_tasks:"), so each kind has
    its own table.  Expiry is left out: the statements below are about
    entries that are still alive. *)
Module Redis.
Import Py.

Record redis : Type := {
  strings : list (str * str);
  lists : list (str * list str)
}.

(** [d[key] = v] on an association list: the first entry under [key]
    is rewritten, a new key goes to the end. *)
Fixpoint assoc_set {V : Type} (key : str) (v : V) (items : list (str * V))
  : list (str * V) :=
  match items with
  | [] => [(key, v)]
  | (k, x) :: rest =>
      if str_eqb k key then (k, v) :: rest
      else (k, x) :: assoc_set key v rest
  end.

(** GET and SETEX *)
Definition get (r : redis) (key : str) : option str :=
  assoc_get key (strings r).

Definition setex (r : redis) (key : str) (seconds : Z) (value : str)
  : redis :=
  {| strings := assoc_set key value (strings r); lists := lists r |}.

(** The list under a key; a missing key reads as the empty list. *)
Definition list_at (r : redis) (key : str) : list str :=
  match assoc_get key (lists r) with
  | Some l => l
  | None => []
  end.

(** The elements [start .. stop] of a list, both ends included, as
    LRANGE and LTRIM count them: a negative index counts from the end,
    an end past the last element is the last element. *)
Definition range_of (l : list str) (start stop : Z) : list str :=
  let llen := len l in
  let start := if start <? 0 then llen + start else start in
  let stop := if stop <? 0 then llen + stop else stop in
  let start := if start <? 0 then 0 else start in
  if (start >? stop) || (start >=? llen) then []
  else
    let stop := if stop >=? llen then llen - 1 else stop in
    firstn (Z.to_nat (stop - start + 1)) (skipn (Z.to_nat start) l).

(** LPUSH, LTRIM, LRANGE, EXPIRE *)
Definition lpush (r : redis) (key : str) (value : str) : redis :=
  {| strings := strings r;
     lists := assoc_set key (value :: list_at r key) (lists r) |}.

Definition ltrim (r : redis) (key : str) (start stop : Z) : redis :=
  {| strings := strings r;
     lists := assoc_set key (range_of (list_at r key) start stop)
                (lists r) |}.

Definition lrange (r : redis) (key : str) (start stop : Z) : list str :=
  range_of (list_at r key) start stop.

Definition expire (r : redis) (key : str) (seconds : Z) : redis := r.

End Redis.

Module TaskTracking.
Import Py Services VectorStore TaskMonitor Redis.

(** [bool(value)] for a parsed JSON value. *)
Definition json_truthy (value : json) : bool :=
  match value with
  | JNull => false
  | JBool b => b
  | JInt z => negb (z =? 0)
  | JStr s => truthy s
  | JList l => truthy l
  | JDict items => truthy items
  end.

(** A job handed to Celery by [.delay(...)], with its keyword
    arguments. *)
Inductive submission : Type :=
| ProcessDocument (user_id filename file_content_b64 : json)
| AnswerQuestion (user_id question priority : json).

(** What a call of [retry_task] did: the value it returned, the jobs
    it handed to [.delay], and Redis afterwards. *)
Record retry_outcome : Type := {
  retried : option str;
  delay_calls : list submission;
  redis_after : redis
}.

Section Monitor.

(** [json.dumps], [json.loads], [datetime.utcnow().isoformat()], the
    status of [AsyncResult(task_id)], [.delay], which answers with the
    id of the new task, and [repr] of a list or dict. *)
Variable json_dumps : json -> str.
Variable json_loads : str -> res json.
Variable utcnow_isoformat : str.
Variable async_result_status : str -> res str.
Variable delay : submission -> res str.
Variable repr : json -> str.

(** [f"{value}"] *)
Definition format_value (value : json) : str :=
  match value with
  | JNull => lit "None"
  | JBool true => lit "True"
  | JBool false => lit "False"
  | JInt z => str_of_int z
  | JStr s => s
  | _ => repr value
  end.

(** The metadata [track_user_task] stores for a task. *)
Definition task_meta (user_id : json) (task_type : str) (metadata : json)
  : json :=
  JDict [(lit "user_id", user_id);
         (lit "task_type", JStr task_type);
         (lit "created_at", JStr utcnow_isoformat);
         (lit "metadata",
          if json_truthy metadata then metadata else JDict [])].

(** [TaskMonitor.track_user_task(user_id, task_id, task_type, metadata)];
    callers pass an [int] as [user_id], [retry_task] passes what the
    stored metadata holds. *)
Definition track_user_task (r : redis) (user_id : json)
  (task_id task_type : str) (metadata : json) : redis :=
  let user_tasks_key := lit "user_tasks:" ++ format_value user_id in
  let r := lpush r user_tasks_key task_id in
  let r := ltrim r user_tasks_key 0 99 in
  let r := expire r user_tasks_key (86400 * 7) in
  let task_meta_key := lit "task_meta:" ++ task_id in
  setex r task_meta_key 86400
    (json_dumps (task_meta user_id task_type metadata)).

Section Listing.

(** [TaskMonitor.get_task_info], which reads the Celery result and the
    stored metadata of one task. *)
Variable info : Type.
Variable get_task_info : str -> res info.

(** [TaskMonitor.get_user_tasks(user_id, limit)] *)
Definition get_user_tasks (r : redis) (user_id : Z) (limit : Z)
  : res (list info) :=
  let user_tasks_key := lit "user_tasks:" ++ str_of_int user_id in
  let task_ids := lrange r user_tasks_key 0 (limit - 1) in
  for_each get_task_info task_ids.

End Listing.

(** [a == b] for a parsed JSON value and a string. *)
Definition json_is_str (value : json) (s : str) : bool :=
  match value with
  | JStr x => str_eqb x s
  | _ => false
  end.

(** [meta["user_id"]]: [KeyError] on a missing key, [TypeError] on a
    value that cannot be subscripted with a string. *)
Definition json_item (obj : json) (key : str) : res json :=
  match obj with
  | JDict items =>
      match assoc_get key items with
      | Some v => Ret v
      | None => Raise KeyError
      end
  | _ => Raise TypeError
  end.

(** Lines 156-172: the checks that come before a retry; [Ret None]
    stands for [return None], [Ret (Some meta)] for going on. *)
Definition retry_allowed (r : redis) (task_id : str) (user_id : option Z)
  : res (option json) :=
  let task_meta_key := lit "task_meta:" ++ task_id in
  match get r task_meta_key with
  | None => Ret None
  | Some meta_data =>
      if negb (truthy meta_data) then Ret None
      else
        meta <- json_loads meta_data ;;
        mismatch <-
          (if user_id_given user_id then
             owner <- json_get meta (lit "user_id") JNull ;;
             Ret (json_ne_int owner
                    (match user_id with Some n => n | None => 0 end))
           else Ret false) ;;
        if mismatch then Ret None
        else
          status <- async_result_status task_id ;;
          if negb (str_eqb status (lit "FAILURE")) then Ret None
          else Ret (Some meta)
  end.

(** Lines 174-194: the job to submit again, with the owner and the
    task type it is tracked under; [Ret None] for a task type that is
    not one of the two. *)
Definition resubmission (meta : json)
  : res (option (json * str * json * submission)) :=
  task_type <- json_get meta (lit "task_type") JNull ;;
  original_metadata <- json_get meta (lit "metadata") (JDict []) ;;
  if json_is_str task_type (lit "document_processing") then
    owner <- json_item meta (lit "user_id") ;;
    filename <- json_get original_metadata (lit "filename") JNull ;;
    file_content_b64 <-
      json_get original_metadata (lit "file_content_b64") JNull ;;
    Ret (Some (owner, lit "document_processing", original_metadata,
               ProcessDocument owner filename file_content_b64))
  else if json_is_str task_type (lit "question_answering") then
    owner <- json_item meta (lit "user_id") ;;
    question <- json_get original_metadata (lit "question") JNull ;;
    priority <-
      json_get original_metadata (lit "priority") (JStr (lit "normal")) ;;
    Ret (Some (owner, lit "question_answering", original_metadata,
               AnswerQuestion owner question priority))
  else Ret None.

(** [TaskMonitor.retry_task(task_id, user_id)]: any exception inside
    the [try] makes the call return [None]. *)
Definition retry_task (r : redis) (task_id : str) (user_id : option Z)
  : retry_outcome :=
  let nothing :=
    {| retried := None; delay_calls := []; redis_after := r |} in
  match retry_allowed r task_id user_id with
  | Raise _ | Ret None => nothing
  | Ret (Some meta) =>
      match resubmission meta with
      | Raise _ | Ret None => nothing
      | Ret (Some (owner, task_type, original_metadata, job)) =>
          match delay job with
          | Raise _ =>
              {| retried := None; delay_calls := [job];
                 redis_after := r |}
          | Ret new_task_id =>
              {| retried := Some new_task_id;
                 delay_calls := [job];
                 redis_after :=
                   track_user_task r owner new_task_id task_type
                     original_metadata |}
          end
      end
  end.

End Monitor.

End TaskTracking.

(* ------------------------------------------------------------------ *)
(** *** Tracked tasks: listing, cancelling, retrying *)

Module TaskTrackingProps.
Import Py PyFacts Services VectorStore KeyedProps TaskMonitor Redis.
Import TaskTracking TaskMonitorProps.

Lemma assoc_get_set_same {V : Type} (key : str) (v : V)
  (items : list (str * V)) :
  assoc_get key (assoc_set key v items) = Some v.
Proof.
  induction items as [|[k x] items IH]; cbn.
  - now rewrite str_eqb_refl.
  - destruct (str_eqb k key) eqn:E; cbn; now rewrite E.
Qed.

(** [LRANGE key 0 k] and [LTRIM key 0 k] keep the first [k + 1]
    elements; [LRANGE key 0 -1] is the whole list. *)
Ltac range_cases :=
  unfold range_of, len; cbv zeta;
  repeat match goal with
         | |- context [Z.ltb ?a ?b] => destruct (Z.ltb_spec a b)
         | |- context [Z.gtb ?a ?b] => destruct (Z.gtb_spec a b)
         | |- context [Z.geb ?a ?b] => destruct (Z.geb_spec a b)
         end;
  cbn [orb]; try lia.

Lemma firstn_same {A : Type} (a b : nat) (l : list A) :
  a = b \/ (List.length l <= a /\ List.length l <= b)%nat ->
  firstn a l = firstn b l.
Proof.
  intros [-> | [Ha Hb]]; [reflexivity |].
  now rewrite !firstn_all2.
Qed.

Ltac range_done :=
  cbn [Z.to_nat skipn];
  first
    [ apply firstn_same; lia
    | apply firstn_all2; lia
    | match goal with
      | l : list str |- _ =>
          destruct l; [now rewrite ?firstn_nil | cbn in *; lia]
      end ].

Lemma range_of_prefix (l : list str) (k : Z) :
  0 <= k -> range_of l 0 k = firstn (Z.to_nat (k + 1)) l.
Proof. intros Hk. range_cases; range_done. Qed.

Lemma range_of_all (l : list str) : range_of l 0 (-1) = l.
Proof. range_cases; range_done. Qed.

Section Monitor.

Variable json_dumps : json -> str.
Variable json_loads : str -> res json.
Variable utcnow_isoformat : str.
Variable async_result_status : str -> res str.
Variable delay : submission -> res str.
Variable repr : json -> str.

#[local] Abbreviation track_user_task :=
  (track_user_task json_dumps utcnow_isoformat repr).

(** The task ids tracked for a user, most recent first. *)
Definition tracked (r : redis) (user_id : Z) : list str :=
  list_at r (lit "user_tasks:" ++ str_of_int user_id).

Lemma tracked_after (r : redis) (user_id : Z) (task_id task_type : str)
  (metadata : json) :
  tracked (track_user_task r (JInt user_id) task_id task_type metadata)
    user_id
  = firstn 100 (task_id :: tracked r user_id).
Proof.
  unfold tracked, TaskTracking.track_user_task. cbv zeta.
  unfold setex, expire, ltrim, lpush, list_at. cbn [lists format_value].
  rewrite !assoc_get_set_same.
  now rewrite range_of_prefix by lia.
Qed.

Lemma meta_after (r : redis) (user_id : json) (task_id task_type : str)
  (metadata : json) :
  get (track_user_task r user_id task_id task_type metadata)
      (lit "task_meta:" ++ task_id)
  = Some (json_dumps (task_meta utcnow_isoformat user_id task_type
                        metadata)).
Proof.
  unfold TaskTracking.track_user_task, get, setex. cbv zeta.
  cbn [strings]. apply assoc_get_set_same.
Qed.

End Monitor.

(** A Redis without entries, and a failed question of user 7 tracked
    as task "t1"; [json.dumps] and [json.loads] are stand-ins that agree
    on that task's metadata. *)
Definition no_entries : redis := {| strings := []; lists := [] |}.

Definition question_metadata : json :=
  JDict [(lit "question", JStr (lit "What is Python used for?"))].

Definition tracked_question : redis :=
  track_user_task (fun _ => lit "meta") (lit "2024-01-01T00:00:00")
    (fun _ => lit "...") no_entries (JInt 7) (lit "t1")
    (lit "question_answering") question_metadata.

Definition stored_meta : json :=
  task_meta (lit "2024-01-01T00:00:00") (JInt 7) (lit "question_answering")
    question_metadata.

(** X25.  After [track_user_task], [get_user_tasks] of that
    user lists the new task first, followed by the tasks tracked before,
    100 at most, cut at [limit] -- except that [limit = 0] lists them
    all. *)
Theorem get_user_tasks_after_track_user_task :
  forall (json_dumps : json -> str) (utcnow_isoformat : str)
         (repr : json -> str)
         (info : Type) (get_task_info : str -> res info)
         (r : redis) (user_id : Z) (task_id task_type : str)
         (metadata : json) (limit : Z),
    0 <= limit ->
    let after :=
      track_user_task json_dumps utcnow_isoformat repr r (JInt user_id)
        task_id task_type metadata in
    let kept := firstn 100 (task_id :: tracked r user_id) in
    get_user_tasks info get_task_info after user_id limit
    = for_each get_task_info
        (if limit =? 0 then kept else firstn (Z.to_nat limit) kept).
Proof.
  intros json_dumps utcnow_isoformat repr info get_task_info r user_id
    task_id task_type metadata limit Hl. cbv zeta.
  unfold get_user_tasks, lrange. cbv zeta.
  rewrite <- (tracked_after json_dumps utcnow_isoformat repr r user_id
                task_id task_type metadata).
  unfold tracked. f_equal.
  destruct (Z.eqb_spec limit 0) as [-> | N].
  - apply range_of_all.
  - rewrite range_of_prefix by lia. f_equal. lia.
Qed.

Lemma get_user_tasks_after_track_user_task_witness :
  get_user_tasks str (fun task_id => Ret task_id) tracked_question 7 50
  = Ret [lit "t1"].
Proof.
  exact (get_user_tasks_after_track_user_task (fun _ => lit "meta")
           (lit "2024-01-01T00:00:00") (fun _ => lit "...")
           str (fun task_id => Ret task_id) no_entries 7 (lit "t1")
           (lit "question_answering") question_metadata 50
           ltac:(lia)).
Defined.

(** X26.  For a task tracked by [track_user_task], whose
    metadata reads back as written, [cancel_task] with a caller id other
    than 0 revokes the task exactly when the caller is the owner it was
    tracked for. *)
Theorem cancel_task_after_track_user_task :
  forall (json_dumps : json -> str) (json_loads : str -> res json)
         (utcnow_isoformat : str) (repr : json -> str)
         (control_revoke : str -> bool -> res unit)
         (r : redis) (owner : Z) (task_id task_type : str)
         (metadata : json) (caller : Z),
    let meta := task_meta utcnow_isoformat (JInt owner) task_type metadata in
    let after :=
      track_user_task json_dumps utcnow_isoformat repr r (JInt owner)
        task_id task_type metadata in
    json_dumps meta <> [] ->
    json_loads (json_dumps meta) = Ret meta ->
    caller <> 0 ->
    cancel_task (fun key => Ret (get after key)) json_loads control_revoke
      task_id (Some caller)
    = if caller =? owner
      then match control_revoke task_id true with
           | Ret _ => {| returned := true; revoke_calls := [task_id] |}
           | Raise _ => {| returned := false; revoke_calls := [task_id] |}
           end
      else {| returned := false; revoke_calls := [] |}.
Proof.
  intros json_dumps json_loads utcnow_isoformat repr control_revoke r owner
    task_id task_type metadata caller meta after Hne Hround Hc.
  unfold cancel_task, ownership_mismatch, user_id_given.
  destruct (Z.eqb_spec caller 0); [contradiction |]. cbn [negb bind].
  unfold after. rewrite meta_after. fold meta.
  destruct (json_dumps meta) as [|c s] eqn:D; [contradiction |].
  cbn [truthy]. rewrite Hround. cbn [bind].
  unfold meta at 1, task_meta, json_get.
  cbn [assoc_get]. replace (str_eqb (lit "user_id") (lit "user_id"))
    with true by reflexivity.
  cbn [bind json_ne_int]. rewrite (Z.eqb_sym owner caller).
  destruct (caller =? owner); reflexivity.
Qed.

Lemma cancel_task_after_track_user_task_witness :
  cancel_task (fun key => Ret (get tracked_question key))
    (fun _ => Ret stored_meta) (fun _ _ => Ret tt) (lit "t1") (Some 8)
  = {| returned := false; revoke_calls := [] |}.
Proof.
  apply (cancel_task_after_track_user_task (fun _ => lit "meta")
           (fun _ => Ret stored_meta) (lit "2024-01-01T00:00:00")
           (fun _ => lit "...") (fun _ _ => Ret tt) no_entries 7 (lit "t1")
           (lit "question_answering") question_metadata 8).
  - discriminate.
  - reflexivity.
  - discriminate.
Defined.

(** X27.  [retry_task] hands a job to Celery only for a task whose
    metadata is stored and parses, whose status is FAILURE, and whose
    stored owner is the caller when a caller id (other than 0) is
    given; it hands over one job, submitted for the stored owner. *)
Theorem retry_task_guarded :
  forall (json_dumps : json -> str) (json_loads : str -> res json)
         (utcnow_isoformat : str)
         (async_result_status : str -> res str)
         (delay : submission -> res str) (repr : json -> str)
         (r : redis) (task_id : str) (user_id : option Z),
    let out :=
      retry_task json_dumps json_loads utcnow_isoformat async_result_status
        delay repr r task_id user_id in
    delay_calls out <> [] ->
    exists stored meta owner job,
      get r (lit "task_meta:" ++ task_id) = Some stored
      /\ json_loads stored = Ret meta
      /\ async_result_status task_id = Ret (lit "FAILURE")
      /\ json_item meta (lit "user_id") = Ret owner
      /\ (forall caller, user_id = Some caller -> caller <> 0 ->
                         json_ne_int owner caller = false)
      /\ delay_calls out = [job]
      /\ match job with
         | ProcessDocument u _ _ | AnswerQuestion u _ _ => u = owner
         end.
Proof.
  intros json_dumps json_loads utcnow_isoformat async_result_status delay
    repr r task_id user_id. cbv zeta.
  unfold retry_task. cbv zeta.
  destruct (retry_allowed json_loads async_result_status r task_id user_id)
    as [[meta |] |] eqn:A; try (intros H; now contradiction H).
  destruct (resubmission meta)
    as [[[[[owner task_type] original_metadata] job] |] |] eqn:S;
    try (intros H; now contradiction H).
  intros _.
  (* the checks that were passed *)
  unfold retry_allowed in A. cbv zeta in A.
  destruct (get r (lit "task_meta:" ++ task_id)) as [stored |] eqn:G;
    [| discriminate].
  destruct (negb (truthy stored)); [discriminate |].
  destruct (json_loads stored) as [meta0 |] eqn:L; cbn [bind] in A;
    [| discriminate].
  assert (Own : forall caller, user_id = Some caller -> caller <> 0 ->
            exists v, json_get meta0 (lit "user_id") JNull = Ret v
                      /\ json_ne_int v caller = false).
  { intros caller -> Hc. cbn [user_id_given] in A.
    destruct (Z.eqb_spec caller 0); [contradiction |]. cbn [negb] in A.
    destruct (json_get meta0 (lit "user_id") JNull) as [v |];
      cbn [bind] in A; [| discriminate].
    exists v. split; [reflexivity |].
    destruct (json_ne_int v caller); [discriminate | reflexivity]. }
  assert (A' : async_result_status task_id = Ret (lit "FAILURE")
               /\ meta0 = meta).
  { destruct (if user_id_given user_id then _ else _) as [[|] |];
      cbn [bind] in A; try discriminate.
    destruct (async_result_status task_id) as [status |]; cbn [bind] in A;
      [| discriminate].
    destruct (str_eqb status (lit "FAILURE")) eqn:E; cbn [negb] in A;
      [| discriminate].
    apply str_eqb_eq in E. subst status. injection A as <-. auto. }
  destruct A' as [St ->].
  (* the job that was built *)
  assert (J : json_item meta (lit "user_id") = Ret owner
              /\ match job with
                 | ProcessDocument u _ _ | AnswerQuestion u _ _ => u = owner
                 end).
  { unfold resubmission in S.
    destruct (json_get meta (lit "task_type") JNull) as [tt |];
      cbn [bind] in S; [| discriminate].
    destruct (json_get meta (lit "metadata") (JDict [])) as [om |];
      cbn [bind] in S; [| discriminate].
    destruct (json_is_str tt (lit "document_processing")).
    - destruct (json_item meta (lit "user_id")) as [o |]; cbn [bind] in S;
        [| discriminate].
      destruct (json_get om (lit "filename") JNull); cbn [bind] in S;
        [| discriminate].
      destruct (json_get om (lit "file_content_b64") JNull);
        cbn [bind] in S; [| discriminate].
      injection S as <- _ _ <-. auto.
    - destruct (json_is_str tt (lit "question_answering"));
        [| discriminate].
      destruct (json_item meta (lit "user_id")) as [o |]; cbn [bind] in S;
        [| discriminate].
      destruct (json_get om (lit "question") JNull); cbn [bind] in S;
        [| discriminate].
      destruct (json_get om (lit "priority") (JStr (lit "normal")));
        cbn [bind] in S; [| discriminate].
      injection S as <- _ _ <-. auto. }
  destruct J as [Jo Ju].
  exists stored, meta, owner, job.
  split; [reflexivity |]. split; [exact L |]. split; [exact St |].
  split; [exact Jo |]. split.
  - intros caller Hu Hc. destruct (Own caller Hu Hc) as (v & Hv & Hn).
    assert (v = owner); [| now subst].
    unfold json_get in Hv. unfold json_item in Jo.
    destruct meta as [| | | | | items]; try discriminate.
    destruct (assoc_get (lit "user_id") items); [| discriminate].
    congruence.
  - split; [| exact Ju]. now destruct (delay job).
Qed.

Lemma retry_task_guarded_witness :
  let out :=
    retry_task (fun _ => lit "meta") (fun _ => Ret stored_meta)
      (lit "2024-01-02T00:00:00") (fun _ => Ret (lit "FAILURE"))
      (fun _ => Ret (lit "t2")) (fun _ => lit "...")
      tracked_question (lit "t1") (Some 7) in
  retried out = Some (lit "t2")
  /\ delay_calls out
     = [AnswerQuestion (JInt 7) (JStr (lit "What is Python used for?"))
          (JStr (lit "normal"))]
  /\ exists stored meta owner job,
       get tracked_question (lit "task_meta:" ++ lit "t1") = Some stored
       /\ (fun _ : str => Ret stored_meta) stored = Ret meta
       /\ json_item meta (lit "user_id") = Ret owner
       /\ delay_calls out = [job].
Proof.
  cbv zeta. split; [reflexivity |]. split; [reflexivity |].
  destruct (retry_task_guarded (fun _ => lit "meta")
              (fun _ => Ret stored_meta)
              (lit "2024-01-02T00:00:00") (fun _ => Ret (lit "FAILURE"))
              (fun _ => Ret (lit "t2")) (fun _ => lit "...")
              tracked_question (lit "t1") (Some 7))
    as (stored & meta & owner & job & G & L & _ & J & _ & D & _).
  - discriminate.
  - exists stored, meta, owner, job. auto.
Defined.

End TaskTrackingProps.

(* ------------------------------------------------------------------ *)
(** *** [TaskMonitor.get_queue_stats] (task_monitor.py, lines 65-108) *)

Module QueueStats.
Import Py Services.

(** The three counters kept per queue. *)
Record counts : Type := {
  active : Z;
  scheduled : Z;
  reserved : Z
}.

Inductive kind : Type := Active | Scheduled | Reserved.

Definition no_tasks : counts :=
  {| active := 0; scheduled := 0; reserved := 0 |}.

(** [queue_stats[queue][kind] += 1] *)
Definition incr (k : kind) (c : counts) : counts :=
  match k with
  | Active =>
      {| active := active c + 1; scheduled := scheduled c;
         reserved := reserved c |}
  | Scheduled =>
      {| active := active c; scheduled := scheduled c + 1;
         reserved := reserved c |}
  | Reserved =>
      {| active := active c; scheduled := scheduled c;
         reserved := reserved c + 1 |}
  end.

(** Can a parsed JSON value be the key of a dict? *)
Definition hashable (value : json) : bool :=
  match value with
  | JList _ | JDict _ => false
  | _ => true
  end.

(** [a == b] between keys ([True] and [False] compare as 1 and 0). *)
Definition key_eqb (a b : json) : bool :=
  match a, b with
  | JNull, JNull => true
  | JBool x, JBool y => Bool.eqb x y
  | JInt x, JInt y => x =? y
  | JBool x, JInt y => (if x then 1 else 0) =? y
  | JInt x, JBool y => x =? (if y then 1 else 0)
  | JStr x, JStr y => str_eqb x y
  | _, _ => false
  end.

(** The dict [queue_stats], in insertion order. *)
Definition stats := list (json * counts).

(** [if queue not in queue_stats: queue_stats[queue] = {0, 0, 0}]
    followed by [queue_stats[queue][kind] += 1]. *)
Fixpoint bump (k : kind) (queue : json) (s : stats) : stats :=
  match s with
  | [] => [(queue, incr k no_tasks)]
  | (q, c) :: rest =>
      if key_eqb q queue then (q, incr k c) :: rest
      else (q, c) :: bump k queue rest
  end.

(** [task.get('delivery_info', {}).get('routing_key', 'default')] *)
Definition queue_of (task : json) : res json :=
  delivery_info <- json_get task (lit "delivery_info") (JDict []) ;;
  json_get delivery_info (lit "routing_key") (JStr (lit "default")).

(** The body of the inner loop, for one task. *)
Definition count_task (k : kind) (s : stats) (task : json) : res stats :=
  queue <- queue_of task ;;
  if hashable queue then Ret (bump k queue s) else Raise TypeError.

(** [for task in tasks: ...] *)
Fixpoint count_tasks (k : kind) (s : stats) (tasks : list json)
  : res stats :=
  match tasks with
  | [] => Ret s
  | task :: rest =>
      s' <- count_task k s task ;;
      count_tasks k s' rest
  end.

(** [for worker, tasks in by_worker.items(): ...] *)
Fixpoint count_workers (k : kind) (s : stats)
  (by_worker : list (str * list json)) : res stats :=
  match by_worker with
  | [] => Ret s
  | (worker, tasks) :: rest =>
      s' <- count_tasks k s tasks ;;
      count_workers k s' rest
  end.

(** [sum(len(tasks) for tasks in by_worker.values())] *)
Definition total (by_worker : list (str * list json)) : Z :=
  fold_right Z.add 0 (map (fun '(_, tasks) => len tasks) by_worker).

(** What the call returns when nothing raises. *)
Record queue_stats : Type := {
  queues : stats;
  total_active : Z;
  total_scheduled : Z;
  total_reserved : Z;
  workers : list str
}.

(** What an [inspect] call answers: a dict from worker name to its
    tasks, or [None] when no worker replies. *)
Definition reply := option (list (str * list json)).

(** [reply or {}] *)
Definition or_empty (r : reply) : list (str * list json) :=
  match r with
  | Some by_worker => by_worker
  | None => []
  end.

Section Monitor.

(** [inspect.active()], [inspect.scheduled()], [inspect.reserved()],
    and [str(e)]. *)
Variable inspect_active : res reply.
Variable inspect_scheduled : res reply.
Variable inspect_reserved : res reply.
Variable str_of_exn : exn -> str.

(** [TaskMonitor.get_queue_stats()]: the statistics, or the message of
    the exception that was caught. *)
Definition get_queue_stats : queue_stats + str :=
  match
    (active <- inspect_active ;;
     scheduled <- inspect_scheduled ;;
     reserved <- inspect_reserved ;;
     let active := or_empty active in
     let scheduled := or_empty scheduled in
     let reserved := or_empty reserved in
     s <- count_workers Active [] active ;;
     s <- count_workers Scheduled s scheduled ;;
     s <- count_workers Reserved s reserved ;;
     Ret {| queues := s;
            total_active := total active;
            total_scheduled := total scheduled;
            total_reserved := total reserved;
            workers := map fst active |})
  with
  | Ret result => inl result
  | Raise e => inr (str_of_exn e)
  end.

End Monitor.

End QueueStats.

Module QueueStatsProps.
Import Py Services QueueStats.

(** The sum of one counter over all queues. *)
Definition counter (k : kind) (c : counts) : Z :=
  match k with
  | Active => active c
  | Scheduled => scheduled c
  | Reserved => reserved c
  end.

Definition sum_over (k : kind) (s : stats) : Z :=
  fold_right Z.add 0 (map (fun '(_, c) => counter k c) s).

Definition same_kind (a b : kind) : bool :=
  match a, b with
  | Active, Active | Scheduled, Scheduled | Reserved, Reserved => true
  | _, _ => false
  end.

Lemma counter_incr (k k' : kind) (c : counts) :
  counter k' (incr k c) = counter k' c + (if same_kind k k' then 1 else 0).
Proof. destruct k, k'; cbn; lia. Qed.

Lemma sum_over_bump (k k' : kind) (queue : json) (s : stats) :
  sum_over k' (bump k queue s)
  = sum_over k' s + (if same_kind k k' then 1 else 0).
Proof.
  unfold sum_over.
  induction s as [|[q c] s IH]; cbn [bump map fold_right].
  - rewrite counter_incr. destruct k'; cbn; lia.
  - destruct (key_eqb q queue); cbn [map fold_right].
    + rewrite counter_incr. lia.
    + rewrite IH. lia.
Qed.

Lemma sum_over_count_tasks (k k' : kind) (tasks : list json) :
  forall s s',
    count_tasks k s tasks = Ret s' ->
    sum_over k' s'
    = sum_over k' s + (if same_kind k k' then len tasks else 0).
Proof.
  induction tasks as [|task tasks IH]; intros s s'; cbn [count_tasks].
  - intros [= <-]. destruct (same_kind k k'); cbn; lia.
  - unfold count_task at 1.
    destruct (queue_of task) as [queue |]; cbn [bind]; [| discriminate].
    destruct (hashable queue); cbn [bind]; [| discriminate].
    intros H. rewrite (IH _ _ H), sum_over_bump.
    assert (L : len (task :: tasks) = len tasks + 1)
      by (unfold len; cbn [List.length]; lia).
    rewrite L. destruct (same_kind k k'); lia.
Qed.

Lemma sum_over_count_workers (k k' : kind)
  (by_worker : list (str * list json)) :
  forall s s',
    count_workers k s by_worker = Ret s' ->
    sum_over k' s'
    = sum_over k' s + (if same_kind k k' then total by_worker else 0).
Proof.
  unfold total.
  induction by_worker as [|[worker tasks] rest IH]; intros s s';
    cbn [count_workers map fold_right].
  - intros [= <-]. destruct (same_kind k k'); lia.
  - destruct (count_tasks k s tasks) as [s1 |] eqn:T; cbn [bind];
      [| discriminate].
    intros H. rewrite (IH _ _ H), (sum_over_count_tasks _ _ _ _ _ T).
    destruct (same_kind k k'); lia.
Qed.

(** X28.  When [get_queue_stats] returns statistics, the per-queue
    counters add up to the totals: for each of active, scheduled and
    reserved, the sum over the queues is the number of tasks the
    workers reported. *)
Theorem get_queue_stats_totals :
  forall (inspect_active inspect_scheduled inspect_reserved : res reply)
         (str_of_exn : exn -> str) (result : queue_stats),
    get_queue_stats inspect_active inspect_scheduled inspect_reserved
      str_of_exn = inl result ->
    sum_over Active (queues result) = total_active result
    /\ sum_over Scheduled (queues result) = total_scheduled result
    /\ sum_over Reserved (queues result) = total_reserved result.
Proof.
  intros inspect_active inspect_scheduled inspect_reserved str_of_exn result.
  unfold get_queue_stats.
  destruct inspect_active as [a |]; cbn [bind]; [| discriminate].
  destruct inspect_scheduled as [sc |]; cbn [bind]; [| discriminate].
  destruct inspect_reserved as [re |]; cbn [bind]; [| discriminate].
  destruct (count_workers Active [] (or_empty a)) as [s1 |] eqn:C1;
    cbn [bind]; [| discriminate].
  destruct (count_workers Scheduled s1 (or_empty sc)) as [s2 |] eqn:C2;
    cbn [bind]; [| discriminate].
  destruct (count_workers Reserved s2 (or_empty re)) as [s3 |] eqn:C3;
    cbn [bind]; [| discriminate].
  intros [= <-].
  cbn [queues total_active total_scheduled total_reserved].
  repeat split.
  - rewrite (sum_over_count_workers _ Active _ _ _ C3),
            (sum_over_count_workers _ Active _ _ _ C2),
            (sum_over_count_workers _ Active _ _ _ C1).
    cbn. lia.
  - rewrite (sum_over_count_workers _ Scheduled _ _ _ C3),
            (sum_over_count_workers _ Scheduled _ _ _ C2),
            (sum_over_count_workers _ Scheduled _ _ _ C1).
    cbn. lia.
  - rewrite (sum_over_count_workers _ Reserved _ _ _ C3),
            (sum_over_count_workers _ Reserved _ _ _ C2),
            (sum_over_count_workers _ Reserved _ _ _ C1).
    cbn. lia.
Qed.

(** Two active tasks on one worker, one of them routed to "qa", and
    nothing scheduled or reserved. *)
Definition sample_stats : queue_stats + str :=
  get_queue_stats
    (Ret (Some [(lit "worker1",
                 [JDict [(lit "delivery_info",
                          JDict [(lit "routing_key", JStr (lit "qa"))])];
                  JDict []])]))
    (Ret None) (Ret (Some [])) (fun _ => lit "error").

Lemma get_queue_stats_totals_witness :
  exists result,
    sample_stats = inl result
    /\ total_active result = 2
    /\ sum_over Active (queues result) = total_active result
    /\ sum_over Scheduled (queues result) = total_scheduled result
    /\ sum_over Reserved (queues result) = total_reserved result.
Proof.
  eexists. split; [vm_compute; reflexivity |].
  split; [reflexivity |].
  apply (get_queue_stats_totals
           (Ret (Some [(lit "worker1",
                        [JDict [(lit "delivery_info",
                                 JDict [(lit "routing_key",
                                         JStr (lit "qa"))])];
                         JDict []])]))
           (Ret None) (Ret (Some [])) (fun _ => lit "error")).
  vm_compute. reflexivity.
Defined.

End QueueStatsProps.

(* ------------------------------------------------------------------ *)
(** *** Chroma: a search over a collection *)

Module ChromaSearchProps.
Import Py PyFacts VectorStore KeyedProps SearchProps.

Module C := ChromaVectorStore.

(** [l[n]] for a position [n] of the list. *)
Lemma index_at {A : Type} (l : list A) (n : nat) (x : A) :
  nth_error l n = Some x -> index l (Z.of_nat n) = Ret x.
Proof.
  intros H. unfold index, adjust, len.
  assert (L : (n < List.length l)%nat)
    by (apply nth_error_Some; congruence).
  destruct (Z.ltb_spec (Z.of_nat n) 0) as [G | _]; [lia |].
  rewrite Z.min_l by lia. rewrite Nat2Z.id, H.
  destruct (Z.ltb_spec (Z.of_nat n) (- Z.of_nat (List.length l)))
    as [G | _]; [lia | reflexivity].
Qed.

Lemma subscript_row {A : Type} (row : list A) (rows : list (list A)) :
  subscript (Some (row :: rows)) 0 = Ret row.
Proof. exact (index_at (row :: rows) 0 row eq_refl). Qed.

Section Search.

Variable vec score_t : Type.
Variable embed : str -> vec.
Variable distance : vec -> vec -> score_t.

(** The entries of a user, in the order of the collection. *)
Definition entries_of (user_id : Z) (collection : list (C.entry vec))
  : list (C.entry vec) :=
  filter (fun e => C.where_holds (C.WIs (lit "user_id") (PInt user_id))
                     (C.ce_metadata e))
         collection.

(** An entry as a search reports it. *)
Definition reported (query : str) (e : C.entry vec) : C.found score_t :=
  {| C.cf_content := C.ce_document e;
     C.cf_metadata := C.ce_metadata e;
     C.cf_distance := Some (distance (embed query) (C.ce_embedding e)) |}.

(** The loop over the documents of an answer whose rows come from
    the same hits reports the hits, one by one. *)
Lemma format_hits (query : str) (results : C.query_result score_t)
  (hits : list (C.entry vec)) :
  subscript (C.qr_metadatas results) 0 = Ret (map C.ce_metadata hits) ->
  truthy_opt (C.qr_distances results) = true ->
  subscript (C.qr_distances results) 0
  = Ret (map (fun e => distance (embed query) (C.ce_embedding e)) hits) ->
  forall rest before,
    hits = before ++ rest ->
    for_each
      (fun '(i, doc) =>
         metadatas0 <- subscript (C.qr_metadatas results) 0 ;;
         metadata <- index metadatas0 i ;;
         distance <-
           (if truthy_opt (C.qr_distances results) then
              distances0 <- subscript (C.qr_distances results) 0 ;;
              d <- index distances0 i ;;
              Ret (Some d)
            else Ret None) ;;
         Ret {| C.cf_content := doc; C.cf_metadata := metadata;
                C.cf_distance := distance |})
      (enumerate_from (len before) (map C.ce_document rest))
    = Ret (map (reported query) rest).
Proof.
  intros M T D.
  induction rest as [|e rest IH]; intros before H; [reflexivity |].
  cbn [map enumerate_from for_each].
  specialize (IH (before ++ [e])).
  replace (len (before ++ [e])) with (len before + 1) in IH
    by (unfold len; rewrite length_app; cbn; lia).
  rewrite IH by (rewrite <- app_assoc; exact H).
  rewrite M, T, D. cbn [bind]. unfold len.
  rewrite (index_at _ _ (C.ce_metadata e))
    by (rewrite H, nth_error_map, nth_error_app2, Nat.sub_diag;
        [reflexivity | lia]).
  cbn [bind].
  rewrite (index_at _ _ (distance (embed query) (C.ce_embedding e)))
    by (rewrite H, nth_error_map, nth_error_app2, Nat.sub_diag;
        [reflexivity | lia]).
  reflexivity.
Qed.


End Search.


End ChromaSearchProps.

(* ------------------------------------------------------------------ *)
(** *** Qdrant: a search over what [add_chunks] stored *)

Module QdrantSearchProps.
Import Py PyFacts VectorStore KeyedProps SearchProps.

Module Q := QdrantVectorStore.

Lemma for_each_returns {A B : Type} (f : A -> res B) (g : A -> B)
  (xs : list A) :
  (forall x, In x xs -> f x = Ret (g x)) ->
  for_each f xs = Ret (map g xs).
Proof.
  induction xs as [|x xs IH]; intros H; [reflexivity |].
  cbn [for_each map]. rewrite (H x) by now left. cbn [bind].
  rewrite IH by (intros y Hy; apply H; now right). reflexivity.
Qed.

Lemma for_each_of_map {A B C : Type} (f : B -> res C) (g : A -> B)
  (xs : list A) :
  for_each f (map g xs) = for_each (fun x => f (g x)) xs.
Proof.
  induction xs as [|x xs IH]; [reflexivity |].
  cbn [map for_each]. now rewrite IH.
Qed.

Section Search.

Variable vec score_t : Type.
Variable embed : str -> vec.
Variable sha256_hexdigest : str -> str.
Variable score : vec -> vec -> score_t.

(** A point as [add_chunks] builds it: its payload holds the chunk, the
    ids of its document and user, its index and its preview. *)
Definition built (p : Q.point vec) : Prop :=
  exists chunk document_id user_id i,
    Q.point_payload p
    = [(lit "content", PStr chunk);
       (lit "document_id", PInt document_id);
       (lit "user_id", PInt user_id);
       (lit "chunk_index", PInt i);
       (lit "text_preview", PStr (text_preview chunk));
       (lit "string_id", PStr (chunk_key user_id document_id i))].

(** The points of a user, in the order of the collection. *)
Definition points_of (user_id : Z) (collection : list (Q.point vec))
  : list (Q.point vec) :=
  filter (fun p =>
            Q.filter_holds
              {| Q.must := [ {| Q.fc_key := lit "user_id";
                                Q.fc_match := PInt user_id |} ] |}
              (Q.point_payload p))
         collection.

(** The value a payload holds under a key (of a built point, which
    holds one under each of the keys read). *)
Definition value_at (pl : payload) (key : str) : pval :=
  match assoc_get key pl with
  | Some v => v
  | None => PStr []
  end.

(** A point as a search reports it. *)
Definition reported (query : str) (p : Q.point vec)
  : Q.found_chunk score_t :=
  let pl := Q.point_payload p in
  {| Q.fc_content := value_at pl (lit "content");
     Q.fc_metadata :=
       [(lit "document_id", value_at pl (lit "document_id"));
        (lit "user_id", value_at pl (lit "user_id"));
        (lit "chunk_index", value_at pl (lit "chunk_index"));
        (lit "text_preview", value_at pl (lit "text_preview"))];
     Q.fc_score := score (embed query) (Q.point_vector p) |}.

Lemma points_built (chunks : list str) (document_id user_id : Z)
  (p : Q.point vec) :
  In p (Q.points embed sha256_hexdigest chunks document_id user_id) ->
  built p.
Proof.
  unfold Q.points. rewrite in_map_iff.
  intros ([i [chunk embedding]] & <- & _).
  exists chunk, document_id, user_id, i. reflexivity.
Qed.

Lemma in_upsert_from {E : Type} (key : E -> str) (es l : list E) (x : E) :
  In x (upsert key l es) -> In x l \/ In x es.
Proof.
  intros H.
  destruct (last_under E key es (key x)) as [e |] eqn:L.
  - right. rewrite (in_upsert_settled E key es l x e H L).
    now apply (last_under_key E key es (key x) e L).
  - left. now apply (in_upsert_untouched E key es l x H L).
Qed.

Lemma format_result_built (query : str) (p : Q.point vec) :
  built p ->
  Q.format_result
    {| Q.sp_id := Q.point_id p;
       Q.sp_score := score (embed query) (Q.point_vector p);
       Q.sp_payload := Q.point_payload p |}
  = Ret (reported query p).
Proof.
  intros (chunk & document_id & user_id & i & H).
  unfold Q.format_result, reported. cbn [Q.sp_payload Q.sp_score].
  rewrite H. reflexivity.
Qed.


End Search.


End QdrantSearchProps.
